(** * Order execution engine: a shallow embedding and its specification

    The development follows the TypeScript sources file by file:
    - [types/index.ts], [models/order.ts]: the data model and the order store
      (PostgreSQL rows behind a Redis cache-aside read path);
    - [utils/helpers.ts], [services/dex-router.ts]: the mock venue router;
    - [services/websocket-manager.ts]: the status broadcaster;
    - [queues/order-queue.ts]: the job processor [processOrder];
    - [routes/orders.ts]: request validation and the submission handler.

    Conventions of the embedding.
    - A JavaScript [number] is an exact rational ([Q]); the rounding of
      IEEE doubles is not represented, so only bounds that rounding
      preserves are stated of a computed number.  The one division of the
      sources, in [getBestQuote], is not guarded; its value is a [JsNumber],
      which is [NaN] or an infinity where the divisor is zero.
    - The table stores what it is given: the scale of its [DECIMAL] columns,
      the width of its [VARCHAR] columns and the text syntax of its [UUID]
      key are not represented, and neither store loses its connection.
    - [Math.random()], [randomUUID()] and [generateMockTxHash()] are inputs:
      the caller of a definition supplies the value that was drawn.
    - [async] code that touches the stores is a state transformer over
      [World]; an exception is the [Throw] result.  Every store operation and
      every call of the broadcaster is appended to the world's [log], so
      that "which effects happened, in which order" is a property of it.
    - Timers ([sleep], [setTimeout]) only delay and are dropped. *)

From Stdlib Require Import QArith Qabs Lqa Qround.
From Stdlib Require Import Ascii String.
From stdpp Require Import gmap strings list sorting.

Local Open Scope string_scope.
Set Warnings "-register-all".

(** ** JavaScript values ([any]) *)

Inductive JsValue :=
| JsUndefined
| JsNull
| JsBool (b : bool)
| JsNum (n : Q)
| JsStr (s : string)
| JsObj (fields : list (string * JsValue)).

(** [if (v)], [!v]: ToBoolean. *)
Definition truthy (v : JsValue) : bool :=
  match v with
  | JsUndefined | JsNull => false
  | JsBool b => b
  | JsNum n => negb (Qeq_bool n 0)
  | JsStr s => negb (String.eqb s "")
  | JsObj _ => true
  end.

Definition typeof (v : JsValue) : string :=
  match v with
  | JsUndefined => "undefined"
  | JsNull => "object"
  | JsBool _ => "boolean"
  | JsNum _ => "number"
  | JsStr _ => "string"
  | JsObj _ => "object"
  end.

Definition Qlt_bool (x y : Q) : bool := negb (Qle_bool y x).

(** The relational operators, on numbers.  The sources apply them only
    behind a [typeof v !== 'number'] guard, so no coercion is needed. *)
Definition js_lt (a b : JsValue) : bool :=
  match a, b with JsNum x, JsNum y => Qlt_bool x y | _, _ => false end.
Definition js_gt (a b : JsValue) : bool := js_lt b a.
Definition js_le (a b : JsValue) : bool :=
  match a, b with JsNum x, JsNum y => Qle_bool x y | _, _ => false end.

(** [a === b]; two objects are never the same reference here. *)
Definition js_strict_eq (a b : JsValue) : bool :=
  match a, b with
  | JsUndefined, JsUndefined => true
  | JsNull, JsNull => true
  | JsBool x, JsBool y => Bool.eqb x y
  | JsNum x, JsNum y => Qeq_bool x y
  | JsStr x, JsStr y => String.eqb x y
  | _, _ => false
  end.

(** The value of an arithmetic expression that may divide by zero.
    JavaScript does not throw there: zero over zero is [NaN], and any other
    number over zero is an infinity of the dividend's sign (over the
    negative zero, which no amount that passed validation produces, of the
    opposite sign). *)
Inductive JsNumber :=
| FiniteNumber (q : Q)
| NaN
| PlusInfinity
| MinusInfinity.

(** [a / b]. *)
Definition js_div (a b : Q) : JsNumber :=
  if Qeq_bool b 0 then
    if Qeq_bool a 0 then NaN
    else if Qlt_bool 0 a then PlusInfinity else MinusInfinity
  else FiniteNumber (a / b).

(** [x * k] for a positive constant [k]: [NaN] and the infinities are kept. *)
Definition js_times (x : JsNumber) (k : Q) : JsNumber :=
  match x with
  | FiniteNumber q => FiniteNumber (q * k)
  | NaN => NaN
  | PlusInfinity => PlusInfinity
  | MinusInfinity => MinusInfinity
  end.

(** ** Results of code that may throw *)

Inductive Result (A : Type) :=
| Ok (a : A)
| Throw (message : string).
Arguments Ok {A} a.
Arguments Throw {A} message.

(** ** types/index.ts and models/order.ts: the data model *)

Inductive OrderStatus := pending | routing | building | submitted | confirmed | failed.

Inductive Dex := raydium | meteora.

Definition dex_name (d : Dex) : string :=
  match d with raydium => "raydium" | meteora => "meteora" end.

Record DexQuote := {
  dex : Dex;
  price : Q;
  fee : Q;
  estimatedOutput : Q;
  timestamp : nat
}.

Record SwapResult := {
  sr_txHash : string;
  sr_executedPrice : Q;
  sr_amountIn : Q;
  sr_amountOut : Q;
  sr_dex : Dex;
  sr_timestamp : nat
}.

Record OrderDetails := {
  od_orderId : string;
  od_tokenIn : string;
  od_tokenOut : string;
  od_amount : Q;
  od_slippage : Q
}.

(** [interface Order]; an optional field is an [option], an [any] field a
    [JsValue]. *)
Record Order := {
  id : string;
  tokenIn : string;
  tokenOut : string;
  amount : Q;
  slippage : Q;
  status : OrderStatus;
  selectedDex : option Dex;
  raydiumQuote : JsValue;
  meteoraQuote : JsValue;
  executedPrice : option Q;
  amountOut : option Q;
  txHash : option string;
  errorMessage : option string;
  retryCount : nat;
  createdAt : nat;
  updatedAt : nat
}.

(** [Partial<Order>], the [additionalData] of [updateStatus]: every field
    may be missing ([None], or [JsUndefined] for the two [any] fields). *)
Record PartialOrder := {
  p_id : option string;
  p_tokenIn : option string;
  p_tokenOut : option string;
  p_amount : option Q;
  p_slippage : option Q;
  p_status : option OrderStatus;
  p_selectedDex : option Dex;
  p_raydiumQuote : JsValue;
  p_meteoraQuote : JsValue;
  p_executedPrice : option Q;
  p_amountOut : option Q;
  p_txHash : option string;
  p_errorMessage : option string;
  p_retryCount : option nat;
  p_createdAt : option nat;
  p_updatedAt : option nat
}.

Definition emptyPatch : PartialOrder :=
  {| p_id := None; p_tokenIn := None; p_tokenOut := None; p_amount := None;
     p_slippage := None; p_status := None; p_selectedDex := None;
     p_raydiumQuote := JsUndefined; p_meteoraQuote := JsUndefined;
     p_executedPrice := None; p_amountOut := None; p_txHash := None;
     p_errorMessage := None; p_retryCount := None; p_createdAt := None;
     p_updatedAt := None |}.

(** The three object literals [processOrder] passes as [additionalData]. *)
Definition patch_building (selected : Dex) (raydiumQ meteoraQ : JsValue) : PartialOrder :=
  {| p_id := None; p_tokenIn := None; p_tokenOut := None; p_amount := None;
     p_slippage := None; p_status := None; p_selectedDex := Some selected;
     p_raydiumQuote := raydiumQ; p_meteoraQuote := meteoraQ;
     p_executedPrice := None; p_amountOut := None; p_txHash := None;
     p_errorMessage := None; p_retryCount := None; p_createdAt := None;
     p_updatedAt := None |}.

Definition patch_confirmed (executedPrice amountOut : Q) (txHash : string)
  : PartialOrder :=
  {| p_id := None; p_tokenIn := None; p_tokenOut := None; p_amount := None;
     p_slippage := None; p_status := None; p_selectedDex := None;
     p_raydiumQuote := JsUndefined; p_meteoraQuote := JsUndefined;
     p_executedPrice := Some executedPrice; p_amountOut := Some amountOut;
     p_txHash := Some txHash; p_errorMessage := None; p_retryCount := None;
     p_createdAt := None; p_updatedAt := None |}.

Definition patch_failed (errorMessage : string) (retryCount : nat) : PartialOrder :=
  {| p_id := None; p_tokenIn := None; p_tokenOut := None; p_amount := None;
     p_slippage := None; p_status := None; p_selectedDex := None;
     p_raydiumQuote := JsUndefined; p_meteoraQuote := JsUndefined;
     p_executedPrice := None; p_amountOut := None; p_txHash := None;
     p_errorMessage := Some errorMessage; p_retryCount := Some retryCount;
     p_createdAt := None; p_updatedAt := None |}.

(** One row of the [orders] table (config/database.ts); a nullable column
    is an [option]. *)
Record Row := {
  r_id : string;
  token_in : string;
  token_out : string;
  r_amount : Q;
  r_slippage : Q;
  r_status : OrderStatus;
  selected_dex : option Dex;
  raydium_quote : option JsValue;
  meteora_quote : option JsValue;
  executed_price : option Q;
  amount_out : option Q;
  tx_hash : option string;
  error_message : option string;
  retry_count : nat;
  created_at : nat;
  updated_at : nat
}.

(** A [DexQuote] seen as a plain object (what is stored as a snapshot). *)
Definition quoteToJs (q : DexQuote) : JsValue :=
  JsObj [ ("dex", JsStr (dex_name (dex q)));
          ("price", JsNum (price q));
          ("fee", JsNum (fee q));
          ("estimatedOutput", JsNum (estimatedOutput q));
          ("timestamp", JsNum (inject_Z (Z.of_nat (timestamp q)))) ].

(** ** utils/helpers.ts *)

(** [applyPriceVariance]; [rnd] is the value of [Math.random()]. *)
Definition applyPriceVariance (basePrice minVariance maxVariance rnd : Q) : Q :=
  let variance := (minVariance + rnd * (maxVariance - minVariance))%Q in
  (basePrice * variance)%Q.

(** ** services/dex-router.ts *)

Definition basePrices : list (string * Q) :=
  [ ("SOL-USDC", 100.0%Q);
    ("SOL-USDT", 100.0%Q);
    ("USDC-SOL", 0.01%Q);
    ("USDT-SOL", 0.01%Q);
    ("SOL-RAY", 20.0%Q);
    ("RAY-SOL", 0.05%Q) ].

Fixpoint lookupPrice (pair : string) (table : list (string * Q)) : option Q :=
  match table with
  | [] => None
  | (k, v) :: rest => if String.eqb k pair then Some v else lookupPrice pair rest
  end.

(** [this.basePrices[pair] || 1.0]: a missing pair, and a price of zero,
    fall back to [1.0]. *)
Definition getBasePrice (tokenIn tokenOut : string) : Q :=
  let pair := tokenIn +:+ "-" +:+ tokenOut in
  match lookupPrice pair basePrices with
  | Some p => if truthy (JsNum p) then p else 1.0%Q
  | None => 1.0%Q
  end.

Definition getRaydiumQuote (tokenIn tokenOut : string) (amount : Q)
    (rnd : Q) (now : nat) : DexQuote :=
  let basePrice := getBasePrice tokenIn tokenOut in
  let price := applyPriceVariance basePrice 0.98%Q 1.04%Q rnd in
  let fee := 0.003%Q in
  let estimatedOutput := (amount * price * (1 - fee))%Q in
  {| dex := raydium; price := price; fee := fee;
     estimatedOutput := estimatedOutput; timestamp := now |}.

Definition getMeteorQuote (tokenIn tokenOut : string) (amount : Q)
    (rnd : Q) (now : nat) : DexQuote :=
  let basePrice := getBasePrice tokenIn tokenOut in
  let price := applyPriceVariance basePrice 0.97%Q 1.05%Q rnd in
  let fee := 0.002%Q in
  let estimatedOutput := (amount * price * (1 - fee))%Q in
  {| dex := meteora; price := price; fee := fee;
     estimatedOutput := estimatedOutput; timestamp := now |}.

Record BestQuote := {
  bq_raydiumQuote : DexQuote;
  bq_meteoraQuote : DexQuote;
  bestQuote : DexQuote;
  priceImprovement : JsNumber
}.

(** [Math.min] on two numbers. *)
Definition Math_min (a b : Q) : Q := if Qle_bool a b then a else b.

(** [getBestQuote]; [rndR] and [rndM] are the two venues' random draws.
    The source divides by [worseOutput] without a guard: where the smaller
    output is zero the improvement is [NaN] or an infinity. *)
Definition getBestQuote (tokenIn tokenOut : string) (amount : Q)
    (rndR rndM : Q) (now : nat) : BestQuote :=
  let raydiumQuote := getRaydiumQuote tokenIn tokenOut amount rndR now in
  let meteoraQuote := getMeteorQuote tokenIn tokenOut amount rndM now in
  let best :=
    if Qlt_bool (estimatedOutput meteoraQuote) (estimatedOutput raydiumQuote)
    then raydiumQuote
    else meteoraQuote in
  let worseOutput :=
    Math_min (estimatedOutput raydiumQuote) (estimatedOutput meteoraQuote) in
  let improvement :=
    js_times (js_div (estimatedOutput best - worseOutput)%Q worseOutput) 100 in
  {| bq_raydiumQuote := raydiumQuote; bq_meteoraQuote := meteoraQuote;
     bestQuote := best; priceImprovement := improvement |}.

(** [executeSwap]; [rnd] is the draw of [Math.random()], [hash] the
    generated transaction hash. *)
Definition executeSwap (order : OrderDetails) (selected : Dex)
    (rnd : Q) (hash : string) (now : nat) : SwapResult :=
  let basePrice := getBasePrice (od_tokenIn order) (od_tokenOut order) in
  let slippageVariance := (1 - rnd * od_slippage order)%Q in
  let executedPrice := (basePrice * slippageVariance)%Q in
  let fee := match selected with raydium => 0.003%Q | meteora => 0.002%Q end in
  let amountOut := (od_amount order * executedPrice * (1 - fee))%Q in
  {| sr_txHash := hash; sr_executedPrice := executedPrice;
     sr_amountIn := od_amount order; sr_amountOut := amountOut;
     sr_dex := selected; sr_timestamp := now |}.

(** ** The world: durable rows, the cache, the queue and the effect log *)

(** One assignment of the [SET] list that [updateStatus] builds. *)
Inductive Assignment :=
| set_status (s : OrderStatus)
| set_updated_at_now
| set_selected_dex (d : Dex)
| set_raydium_quote (j : JsValue)
| set_meteora_quote (j : JsValue)
| set_executed_price (q : Q)
| set_amount_out (q : Q)
| set_tx_hash (h : string)
| set_error_message (m : string)
| set_retry_count (n : nat).

(** The [data] payload of a status event, one constructor per shape the
    sources send.  [BuildingData] carries the improvement as the number it
    is (the source formats it with [toFixed(3)], which prints [NaN] and the
    infinities by name). *)
Inductive EventData :=
| MessageData (message : string)
| PendingData (tokenIn tokenOut : string) (amount slippage : Q)
| BuildingData (selectedDex : Dex) (estimatedOutput : Q)
    (priceImprovement : JsNumber)
| ConfirmedData (txHash : string) (executedPrice amountOut : Q) (dex : Dex)
| FailedData (error : string) (retryCount : nat) (willRetry : bool)
| ErrorData (error : string).

Record StatusUpdate := {
  su_orderId : string;
  su_status : OrderStatus;
  su_timestamp : nat;
  su_data : EventData
}.

Inductive Effect :=
| RedisGet (key : string)
| RedisSetex (key : string) (seconds : nat) (value : string)
| RedisDel (key : string)
| PgInsert (row : Row)
| PgSelect (id : string)
| PgUpdate (id : string) (updates : list Assignment)
| Broadcast (u : StatusUpdate)
| RegisterConnection (orderId : string)
| QueueAdd (jobId : string).

Record World := {
  db : gmap string Row;        (* table [orders], by primary key *)
  cache : gmap string string;  (* Redis: key to stored text *)
  queue : list string;         (* ids of the jobs the queue holds *)
  log : list Effect;           (* effects so far, oldest first *)
  clock : nat                  (* [NOW()], [Date.now()] *)
}.

(** ** A state-and-exception monad for the [async] functions *)

Definition M (A : Type) : Type := World -> Result A * World.

Definition ret {A} (a : A) : M A := fun w => (Ok a, w).

Definition throw {A} (message : string) : M A := fun w => (Throw message, w).

Definition bind {A B} (m : M A) (k : A -> M B) : M B :=
  fun w =>
    match m w with
    | (Ok a, w') => k a w'
    | (Throw e, w') => (Throw e, w')
    end.

(** [try { body } catch (error) { handler(error.message) }]: the handler
    runs in the world the body left behind. *)
Definition try_catch {A} (body : M A) (handler : string -> M A) : M A :=
  fun w =>
    match body w with
    | (Ok a, w') => (Ok a, w')
    | (Throw e, w') => handler e w'
    end.

Notation "x <- m ;; k" := (bind m (fun x => k))
  (at level 100, m at next level, right associativity).
Notation "m ;;; k" := (bind m (fun _ => k))
  (at level 100, right associativity).

Definition emit (e : Effect) (w : World) : World :=
  {| db := db w; cache := cache w; queue := queue w;
     log := log w ++ [e]; clock := clock w |}.

Definition now : M nat := fun w => (Ok (clock w), w).

(** *** Redis *)

Definition redis_get (key : string) : M (option string) :=
  fun w => (Ok (cache w !! key), emit (RedisGet key) w).

Definition redis_setex (key : string) (seconds : nat) (value : string) : M unit :=
  fun w =>
    (Ok tt,
     emit (RedisSetex key seconds value)
       {| db := db w; cache := <[key := value]> (cache w); queue := queue w;
          log := log w; clock := clock w |}).

Definition redis_del (key : string) : M unit :=
  fun w =>
    (Ok tt,
     emit (RedisDel key)
       {| db := db w; cache := delete key (cache w); queue := queue w;
          log := log w; clock := clock w |}).

(** What [redis.get] hands back: the stored text, or [null]. *)
Definition redis_reply (o : option string) : JsValue :=
  match o with Some s => JsStr s | None => JsNull end.

(** *** PostgreSQL *)

(** [INSERT ... RETURNING *]: the primary key must be new. *)
Definition pg_insert (row : Row) : M Row :=
  fun w =>
    match db w !! r_id row with
    | Some _ => (Throw "duplicate key value violates unique constraint", w)
    | None =>
        (Ok row,
         emit (PgInsert row)
           {| db := <[r_id row := row]> (db w); cache := cache w;
              queue := queue w; log := log w; clock := clock w |})
    end.

(** [SELECT * FROM orders WHERE id = $1]: at most one row. *)
Definition pg_select (oid : string) : M (option Row) :=
  fun w => (Ok (db w !! oid), emit (PgSelect oid) w).

Definition assign (t : nat) (a : Assignment) (r : Row) : Row :=
  let upd st sd rq mq ep ao th em rc ua :=
    {| r_id := r_id r; token_in := token_in r; token_out := token_out r;
       r_amount := r_amount r; r_slippage := r_slippage r; r_status := st;
       selected_dex := sd; raydium_quote := rq; meteora_quote := mq;
       executed_price := ep; amount_out := ao; tx_hash := th;
       error_message := em; retry_count := rc; created_at := created_at r;
       updated_at := ua |} in
  let keep f := f (r_status r) (selected_dex r) (raydium_quote r)
                  (meteora_quote r) (executed_price r) (amount_out r)
                  (tx_hash r) (error_message r) (retry_count r) (updated_at r) in
  match a with
  | set_status s => keep (fun _ => upd s)
  | set_updated_at_now => keep (fun st sd rq mq ep ao th em rc _ => upd st sd rq mq ep ao th em rc t)
  | set_selected_dex d => keep (fun st _ => upd st (Some d))
  | set_raydium_quote j => keep (fun st sd _ => upd st sd (Some j))
  | set_meteora_quote j => keep (fun st sd rq _ => upd st sd rq (Some j))
  | set_executed_price q => keep (fun st sd rq mq _ => upd st sd rq mq (Some q))
  | set_amount_out q => keep (fun st sd rq mq ep _ => upd st sd rq mq ep (Some q))
  | set_tx_hash h => keep (fun st sd rq mq ep ao _ => upd st sd rq mq ep ao (Some h))
  | set_error_message m => keep (fun st sd rq mq ep ao th _ => upd st sd rq mq ep ao th (Some m))
  | set_retry_count n => keep (fun st sd rq mq ep ao th em _ => upd st sd rq mq ep ao th em n)
  end.

(** The [SET] list applied left to right to one row. *)
Definition sql_set (t : nat) (updates : list Assignment) (r : Row) : Row :=
  fold_left (fun acc a => assign t a acc) updates r.

(** [UPDATE orders SET ... WHERE id = $1]: the row with that key, if any. *)
Definition pg_update (oid : string) (updates : list Assignment) : M unit :=
  fun w =>
    (Ok tt,
     emit (PgUpdate oid updates)
       {| db := match db w !! oid with
                | Some r => <[oid := sql_set (clock w) updates r]> (db w)
                | None => db w
                end;
          cache := cache w; queue := queue w; log := log w; clock := clock w |}).

(** ** models/order.ts: the order store *)

Definition is_hex (c : Ascii.ascii) : bool :=
  let n := Ascii.nat_of_ascii c in
  ((48 <=? n)%nat && (n <=? 57)%nat) || ((97 <=? n)%nat && (n <=? 102)%nat)
  || ((65 <=? n)%nat && (n <=? 70)%nat).

(** Exactly [n] characters of [[0-9a-fA-F]]; the rest of the text. *)
Fixpoint hexRun (n : nat) (s : string) : option string :=
  match n with
  | 0 => Some s
  | S k =>
      match s with
      | String c rest => if is_hex c then hexRun k rest else None
      | EmptyString => None
      end
  end.

Definition dash (s : string) : option string :=
  match s with
  | String c rest => if Ascii.eqb c "-"%char then Some rest else None
  | EmptyString => None
  end.

(** [uuidRegex.test(id)] for
    [/^[0-9a-fA-F]{8}-[0-9a-fA-F]{4}-[0-9a-fA-F]{4}-[0-9a-fA-F]{4}-[0-9a-fA-F]{12}$/]. *)
Definition uuidRegex_test (s : string) : bool :=
  match
    s1 ← hexRun 8 s; s2 ← dash s1;
    s3 ← hexRun 4 s2; s4 ← dash s3;
    s5 ← hexRun 4 s4; s6 ← dash s5;
    s7 ← hexRun 4 s6; s8 ← dash s7;
    hexRun 12 s8
  with
  | Some rest => String.eqb rest ""
  | None => false
  end.

Definition cacheKey (oid : string) : string := "order:" +:+ oid.

(** [mapRow].  A [NULL] JSON column reads as [null].  The driver hands a
    [DECIMAL] column back as text, so a stored price is truthy whatever its
    value and the two [row.x ? parseFloat(row.x) : undefined] fields are
    defined exactly when the column is not [NULL]. *)
Definition mapRow (row : Row) : Order :=
  {| id := r_id row;
     tokenIn := token_in row;
     tokenOut := token_out row;
     amount := r_amount row;
     slippage := r_slippage row;
     status := r_status row;
     selectedDex := selected_dex row;
     raydiumQuote := default JsNull (raydium_quote row);
     meteoraQuote := default JsNull (meteora_quote row);
     executedPrice := executed_price row;
     amountOut := amount_out row;
     txHash := tx_hash row;
     errorMessage := error_message row;
     retryCount := retry_count row;
     createdAt := created_at row;
     updatedAt := updated_at row |}.

(** Truthiness of an optional string field, and of an optional enum. *)
Definition truthyStr (o : option string) : bool :=
  match o with Some s => truthy (JsStr s) | None => false end.

Record Job := {
  job_orderId : string;   (* [job.data.orderId] *)
  attemptsMade : nat      (* [job.attemptsMade] *)
}.

(** What the outside supplies to one run of [processOrder]: the random
    draws, the generated transaction hash, and whether an awaited router
    call rejects.  The mock router's own code never throws; the worker
    awaits it inside [try] all the same, and a rejection (a fault of the
    venue behind the interface) is an input here. *)
Record Env := {
  rand_raydium : Q;
  rand_meteora : Q;
  rand_slippage : Q;
  mockTxHash : string;
  quote_fault : option string;
  swap_fault : option string
}.

(** [await promise]: the value, or the rejection. *)
Definition await {A} (fault : option string) (value : A) : M A :=
  match fault with
  | Some message => throw message
  | None => ret value
  end.

Inductive Reply :=
| Reply400 (message : string)
| Reply201 (orderId : string) (status : OrderStatus)
| Reply500
| Hijacked.  (* the socket was upgraded: no HTTP reply *)

Record OrderSubmitBody := {
  body_tokenIn : JsValue;
  body_tokenOut : JsValue;
  body_amount : JsValue;
  body_slippage : JsValue
}.

Record Request := {
  body : OrderSubmitBody;
  upgradeWebsocket : bool   (* [request.headers.upgrade === 'websocket'] *)
}.

Record Validation := {
  valid : bool;
  error : option string
}.

Inductive JobOutcome := JobCompleted | JobFailed.

(** [JSON.stringify] and [JSON.parse] on orders are an interface;
    [JSON.parse] throws on text that is not JSON. *)
Class JsonCodec := {
  JSON_stringify : Order -> string;
  JSON_parse : string -> Result Order
}.

(** [config.queue]. *)
Class QueueConfig := {
  maxRetries : nat
}.

Section Engine.

Context {codec : JsonCodec} {config : QueueConfig}.

(** [OrderModel.create]; [newId] is the value of [randomUUID()]. *)
Definition create (newId tokenIn tokenOut : string) (amount slippage : Q) : M Order :=
  t <- now ;;
  row <- pg_insert
    {| r_id := newId; token_in := tokenIn; token_out := tokenOut;
       r_amount := amount; r_slippage := slippage; r_status := pending;
       selected_dex := None; raydium_quote := None; meteora_quote := None;
       executed_price := None; amount_out := None; tx_hash := None;
       error_message := None; retry_count := 0; created_at := t;
       updated_at := t |} ;;
  let order := mapRow row in
  redis_setex (cacheKey newId) 3600 (JSON_stringify order) ;;;
  ret order.

(** [OrderModel.getById]. *)
Definition getById (oid : string) : M (option Order) :=
  cached <- redis_get (cacheKey oid) ;;
  if truthy (redis_reply cached) then
    match JSON_parse (default "" cached) with
    | Ok parsed => ret (Some parsed)
    | Throw e => throw e
    end
  else if negb (uuidRegex_test oid) then
    ret None
  else
    rows <- pg_select oid ;;
    match rows with
    | None => ret None
    | Some row =>
        let order := mapRow row in
        redis_setex (cacheKey oid) 3600 (JSON_stringify order) ;;;
        ret (Some order)
    end.

(** The [SET] list of [updateStatus], built in the order of the source's
    [updates.push] calls; [additionalData] is [None] when the argument is
    omitted. *)
Definition updates_of (status : OrderStatus) (additionalData : option PartialOrder)
  : list Assignment :=
  let ad := default emptyPatch additionalData in
  [set_status status; set_updated_at_now]
  ++ match p_selectedDex ad with Some d => [set_selected_dex d] | None => [] end
  ++ (if truthy (p_raydiumQuote ad) then [set_raydium_quote (p_raydiumQuote ad)] else [])
  ++ (if truthy (p_meteoraQuote ad) then [set_meteora_quote (p_meteoraQuote ad)] else [])
  ++ match p_executedPrice ad with Some q => [set_executed_price q] | None => [] end
  ++ match p_amountOut ad with Some q => [set_amount_out q] | None => [] end
  ++ (if truthyStr (p_txHash ad) then [set_tx_hash (default "" (p_txHash ad))] else [])
  ++ (if truthyStr (p_errorMessage ad)
      then [set_error_message (default "" (p_errorMessage ad))] else [])
  ++ match p_retryCount ad with Some n => [set_retry_count n] | None => [] end.

(** [OrderModel.updateStatus]. *)
Definition updateStatus (oid : string) (status : OrderStatus)
    (additionalData : option PartialOrder) : M unit :=
  pg_update oid (updates_of status additionalData) ;;;
  redis_del (cacheKey oid).

(** ** services/websocket-manager.ts *)

(** [broadcastStatus]: the call is recorded; which sockets are connected,
    and so who receives the message, is outside the model. *)
Definition broadcastStatus (u : StatusUpdate) : M unit :=
  fun w => (Ok tt, emit (Broadcast u) w).

Definition registerConnection (orderId : string) : M unit :=
  fun w => (Ok tt, emit (RegisterConnection orderId) w).

Definition broadcastNow (orderId : string) (st : OrderStatus) (data : EventData) : M unit :=
  t <- now ;;
  broadcastStatus
    {| su_orderId := orderId; su_status := st; su_timestamp := t; su_data := data |}.

(** ** queues/order-queue.ts *)

(** [addOrderToQueue]: the job id is the order id, and the queue ignores an
    id it already holds. *)
Definition addOrderToQueue (orderId : string) : M unit :=
  fun w =>
    (Ok tt,
     emit (QueueAdd orderId)
       {| db := db w; cache := cache w;
          queue := if bool_decide (orderId ∈ queue w) then queue w
                   else queue w ++ [orderId];
          log := log w; clock := clock w |}).

(** The [try] block of [processOrder]. *)
Definition processOrder_try (job : Job) (env : Env) : M unit :=
  let orderId := job_orderId job in
  found <- getById orderId ;;
  match found with
  | None => throw ("Order " +:+ orderId +:+ " not found")
  | Some order =>
      updateStatus orderId routing None ;;;
      broadcastNow orderId routing (MessageData "Comparing DEX quotes...") ;;;
      t <- now ;;
      quotes <- await (quote_fault env)
        (getBestQuote (tokenIn order) (tokenOut order) (amount order)
           (rand_raydium env) (rand_meteora env) t) ;;
      let best := bestQuote quotes in
      updateStatus orderId building
        (Some (patch_building (dex best) (quoteToJs (bq_raydiumQuote quotes))
                 (quoteToJs (bq_meteoraQuote quotes)))) ;;;
      broadcastNow orderId building
        (BuildingData (dex best) (estimatedOutput best) (priceImprovement quotes)) ;;;
      updateStatus orderId submitted None ;;;
      broadcastNow orderId submitted
        (MessageData "Transaction submitted to blockchain...") ;;;
      t' <- now ;;
      swapResult <- await (swap_fault env)
        (executeSwap
           {| od_orderId := orderId; od_tokenIn := tokenIn order;
              od_tokenOut := tokenOut order; od_amount := amount order;
              od_slippage := slippage order |}
           (dex best) (rand_slippage env) (mockTxHash env) t') ;;
      updateStatus orderId confirmed
        (Some (patch_confirmed (sr_executedPrice swapResult)
                 (sr_amountOut swapResult) (sr_txHash swapResult))) ;;;
      broadcastNow orderId confirmed
        (ConfirmedData (sr_txHash swapResult) (sr_executedPrice swapResult)
           (sr_amountOut swapResult) (sr_dex swapResult))
  end.

(** The [catch] block of [processOrder]: record and announce the failure,
    then re-throw for the queue's retry logic. *)
Definition processOrder_catch (job : Job) (errorMessage : string) : M unit :=
  let orderId := job_orderId job in
  updateStatus orderId failed
    (Some (patch_failed errorMessage (attemptsMade job))) ;;;
  broadcastNow orderId failed
    (FailedData errorMessage (attemptsMade job) (attemptsMade job <? maxRetries)%nat) ;;;
  throw errorMessage.

(** [processOrder]. *)
Definition processOrder (job : Job) (env : Env) : M unit :=
  try_catch (processOrder_try job env) (processOrder_catch job).

(** ** routes/orders.ts *)

Definition invalid (message : string) : Validation :=
  {| valid := false; error := Some message |}.

(** [validateOrderRequest]. *)
Definition validateOrderRequest (b : OrderSubmitBody) : Validation :=
  if negb (truthy (body_tokenIn b))
     || negb (String.eqb (typeof (body_tokenIn b)) "string")
  then invalid "tokenIn is required and must be a string"
  else if negb (truthy (body_tokenOut b))
     || negb (String.eqb (typeof (body_tokenOut b)) "string")
  then invalid "tokenOut is required and must be a string"
  else if negb (truthy (body_amount b))
     || negb (String.eqb (typeof (body_amount b)) "number")
     || js_le (body_amount b) (JsNum 0)
  then invalid "amount is required and must be a positive number"
  else if js_strict_eq (body_slippage b) JsUndefined
     || negb (String.eqb (typeof (body_slippage b)) "number")
     || js_lt (body_slippage b) (JsNum 0)
     || js_gt (body_slippage b) (JsNum 1)
  then invalid "slippage is required and must be between 0 and 1"
  else if js_strict_eq (body_tokenIn b) (body_tokenOut b)
  then invalid "tokenIn and tokenOut must be different"
  else {| valid := true; error := None |}.

(** The text of a validated string field, the value of a validated number. *)
Definition asString (v : JsValue) : string :=
  match v with JsStr s => s | _ => "" end.
Definition asNumber (v : JsValue) : Q :=
  match v with JsNum n => n | _ => 0 end.

(** [executeOrder]; [newId] is the id [OrderModel.create] draws.  The reply
    is the function's result; [Reply500] is the handler's [catch]. *)
Definition executeOrder (newId : string) (request : Request) : M Reply :=
  let b := body request in
  let validation := validateOrderRequest b in
  if negb (valid validation) then
    ret (Reply400 (default "" (error validation)))
  else
    try_catch
      ( order <- create newId (asString (body_tokenIn b)) (asString (body_tokenOut b))
                   (asNumber (body_amount b)) (asNumber (body_slippage b)) ;;
        if upgradeWebsocket request then
          registerConnection (id order) ;;;
          broadcastNow (id order) pending
            (PendingData (tokenIn order) (tokenOut order) (amount order)
               (slippage order)) ;;;
          try_catch (addOrderToQueue (id order))
            (fun _ => broadcastNow (id order) failed
                        (ErrorData "Failed to queue order")) ;;;
          ret Hijacked
        else
          addOrderToQueue (id order) ;;;
          ret (Reply201 (id order) (status order)) )
      (fun _ => ret Reply500).

(** ** Redelivery by the queue *)

(** Modelled from the spec: the queue library that runs the worker and
    redelivers a failed job is not among the sources (only its
    configuration, [attempts: config.queue.maxRetries], is).  Following the
    spec, a job carries an attempt counter; a run that throws is delivered
    again, with the counter one higher, until the counter reaches the
    configured maximum, and a run that returns completes the job.  The
    counter the processor reads counts the running attempt, from 1.
    [retriesLeft] is the maximum minus the counter, so a job is delivered
    again exactly while its counter is below the maximum.  [envs k] is the
    environment of attempt [k].  The result is the job's outcome, the
    number of deliveries, and the final world. *)
Fixpoint redeliver (retriesLeft : nat) (attempt : nat) (envs : nat -> Env)
    (orderId : string) (w : World) : JobOutcome * nat * World :=
  match processOrder {| job_orderId := orderId; attemptsMade := attempt |}
          (envs attempt) w with
  | (Ok _, w') => (JobCompleted, 1, w')
  | (Throw _, w') =>
      match retriesLeft with
      | 0 => (JobFailed, 1, w')
      | S k =>
          let '(outcome, n, w'') := redeliver k (S attempt) envs orderId w' in
          (outcome, S n, w'')
      end
  end.

Definition runJob (envs : nat -> Env) (orderId : string) (w : World)
  : JobOutcome * nat * World :=
  redeliver (maxRetries - 1) 1 envs orderId w.

End Engine.

(** * The rest of the engine

    The definitions below embed the code around the submission and the
    worker: the remaining helpers, the listing of recent orders, the two
    read handlers, the registry of WebSocket connections and the WebSocket
    route.  The listing is a read of the table that the log does not
    record; the registry has a state of its own, apart from [World]. *)

(** ** utils/helpers.ts and config/redis.ts: the remaining helpers *)

(** [randomDelay]; [rnd] is the value of [Math.random()]. *)
Definition randomDelay (minMs maxMs rnd : Q) : Q :=
  (minMs + rnd * (maxMs - minMs))%Q.

(** [retryStrategy] of the Redis client: the delay before reconnection
    attempt [times]. *)
Definition retryStrategy (times : Q) : Q :=
  let delay := Math_min (times * 50)%Q 2000%Q in
  delay.

(** [Math.floor]. *)
Definition Math_floor (x : Q) : Z := Qfloor x.

(** [s[i]] followed by [hash += ...]: the character at an index, as a
    text; an index outside the string reads [undefined], which [+=]
    appends as the text "undefined". *)
Definition charAt (s : string) (i : Z) : string :=
  if (i <? 0)%Z then "undefined"
  else match String.get (Z.to_nat i) s with
       | Some c => String c EmptyString
       | None => "undefined"
       end.

(** The loop of [generateMockTxHash]: [n] more rounds from index [i];
    [draws i] is the value [Math.random()] returns in round [i]. *)
Fixpoint generateMockTxHash_loop (chars : string) (draws : nat -> Q)
    (n i : nat) (hash : string) : string :=
  match n with
  | O => hash
  | S k =>
      generateMockTxHash_loop chars draws k (S i)
        (hash +:+ charAt chars
           (Math_floor (draws i * inject_Z (Z.of_nat (String.length chars)))))
  end.

(** [generateMockTxHash]. *)
Definition generateMockTxHash (draws : nat -> Q) : string :=
  let chars := "0123456789abcdef" in
  generateMockTxHash_loop chars draws 64 0 "".

(** ** models/order.ts: the listing *)

(** [ORDER BY created_at DESC]: the row created later comes first. *)
Definition newerFirst (a b : Row) : Prop := (created_at b <= created_at a)%nat.

#[global] Instance newerFirst_dec : RelDecision newerFirst :=
  fun a b => decide (created_at b <= created_at a)%nat.

(** The rows of the table in the order of the query.  The database may
    return rows created at the same instant in any order; here they come
    in the order of their keys. *)
Definition rowsNewestFirst (w : World) : list Row :=
  merge_sort newerFirst ((map_to_list (db w)).*2).

(** [OrderModel.getRecent]; [limit] is [None] when the argument is
    omitted.  The query reads the table and nothing else: it does not go
    through the cache, and it is not recorded in the log.  A limit that is
    negative or not an integer, which the database rejects, has no
    representation. *)
Definition getRecent (limit : option nat) : M (list Order) :=
  fun w => (Ok (mapRow <$> take (default 50%nat limit) (rowsNewestFirst w)), w).

(** ** routes/orders.ts: the two read handlers *)

Definition is_digit (c : Ascii.ascii) : bool :=
  let n := Ascii.nat_of_ascii c in (48 <=? n)%nat && (n <=? 57)%nat.

Definition digit_value (c : Ascii.ascii) : Z :=
  Z.of_nat (Ascii.nat_of_ascii c - 48).

(** White space that [parseInt] skips; the query text is taken to be
    ASCII. *)
Definition is_white_space (c : Ascii.ascii) : bool :=
  let n := Ascii.nat_of_ascii c in
  ((9 <=? n)%nat && (n <=? 13)%nat) || (n =? 32)%nat.

Fixpoint skipWhiteSpace (s : string) : string :=
  match s with
  | String c rest => if is_white_space c then skipWhiteSpace rest else s
  | EmptyString => s
  end.

(** The decimal digits at the front of a text, read as a number; [acc] is
    the number read so far, [None] before the first digit. *)
Fixpoint leadingDigits (acc : option Z) (s : string) : option Z :=
  match s with
  | String c rest =>
      if is_digit c
      then leadingDigits (Some (10 * default 0%Z acc + digit_value c)%Z) rest
      else acc
  | EmptyString => acc
  end.

(** [parseInt(s, 10)]: leading white space, an optional sign, then the
    longest run of decimal digits; [None] is [NaN]. *)
Definition parseInt (s : string) : option Z :=
  let s1 := skipWhiteSpace s in
  match s1 with
  | String c rest =>
      if Ascii.eqb c "-"%char then Z.opp <$> leadingDigits None rest
      else if Ascii.eqb c "+"%char then leadingDigits None rest
      else leadingDigits None s1
  | EmptyString => None
  end.

(** The fields [getOrders] sends for one order. *)
Record OrderSummary := {
  os_orderId : string;
  os_tokenIn : string;
  os_tokenOut : string;
  os_amount : Q;
  os_status : OrderStatus;
  os_selectedDex : option Dex;
  os_txHash : option string;
  os_createdAt : nat
}.

Definition summary (order : Order) : OrderSummary :=
  {| os_orderId := id order; os_tokenIn := tokenIn order;
     os_tokenOut := tokenOut order; os_amount := amount order;
     os_status := status order; os_selectedDex := selectedDex order;
     os_txHash := txHash order; os_createdAt := createdAt order |}.

Inductive OrdersReply :=
| OrdersReply400 (message : string)
| OrdersReply200 (orders : list OrderSummary) (count : nat)
| OrdersReply500.

(** [getOrders]; [limit] is the query parameter, [None] when it is not
    given.  [isNaN(limitNum) || limitNum < 1 || limitNum > 100] is the
    rejection below. *)
Definition getOrders (limit : option string) : M OrdersReply :=
  let limitNum := if truthyStr limit then parseInt (default "" limit)
                  else Some 50%Z in
  match limitNum with
  | None => ret (OrdersReply400 "limit must be between 1 and 100")
  | Some n =>
      if (n <? 1)%Z || (100 <? n)%Z
      then ret (OrdersReply400 "limit must be between 1 and 100")
      else
        try_catch
          ( orders <- getRecent (Some (Z.to_nat n)) ;;
            ret (OrdersReply200 (summary <$> orders) (length orders)) )
          (fun _ => ret OrdersReply500)
  end.

(** The fields [getOrder] sends. *)
Record OrderView := {
  ov_orderId : string;
  ov_tokenIn : string;
  ov_tokenOut : string;
  ov_amount : Q;
  ov_slippage : Q;
  ov_status : OrderStatus;
  ov_selectedDex : option Dex;
  ov_executedPrice : option Q;
  ov_amountOut : option Q;
  ov_txHash : option string;
  ov_errorMessage : option string;
  ov_createdAt : nat;
  ov_updatedAt : nat
}.

Definition view (order : Order) : OrderView :=
  {| ov_orderId := id order; ov_tokenIn := tokenIn order;
     ov_tokenOut := tokenOut order; ov_amount := amount order;
     ov_slippage := slippage order; ov_status := status order;
     ov_selectedDex := selectedDex order;
     ov_executedPrice := executedPrice order; ov_amountOut := amountOut order;
     ov_txHash := txHash order; ov_errorMessage := errorMessage order;
     ov_createdAt := createdAt order; ov_updatedAt := updatedAt order |}.

Inductive OrderReply :=
| OrderReply404
| OrderReply200 (order : OrderView)
| OrderReply500.

Section Routes.

Context {codec : JsonCodec}.

(** [getOrder]. *)
Definition getOrder (orderId : string) : M OrderReply :=
  try_catch
    ( order <- getById orderId ;;
      match order with
      | None => ret OrderReply404
      | Some o => ret (OrderReply200 (view o))
      end )
    (fun _ => ret OrderReply500).

End Routes.

(** ** services/websocket-manager.ts: the registry of connections *)

(** The broadcaster above records that it was called.  Who receives a
    message is decided by the module's registry
    [connections : Map<string, Set<WebSocket>>], modelled here on its own.
    A socket is known by its identity, a number ([nat] below is the type
    [WebSocket]); a [Set] of sockets is the list of its members in
    insertion order, without repetition. *)
Module WebSocketManager.


(** [ws.readyState]. *)
Inductive ReadyState := CONNECTING | OPEN | CLOSING | CLOSED.

Definition isOpen (s : ReadyState) : bool :=
  match s with OPEN => true | _ => false end.

(** What the server sends on a socket: the JSON text of a status update,
    of the "Order not found" object, or of the snapshot that
    [subscribeToOrder] sends first. *)
Inductive Message :=
| UpdateMessage (update : StatusUpdate)
| NotFoundMessage (orderId : string)
| SnapshotMessage (orderId : string) (status : OrderStatus) (timestamp : nat)
    (tokenIn tokenOut : string) (amount slippage : Q)
    (txHash error : option string).

Record Sockets := {
  connections : gmap string (list nat);
  readyState : nat -> ReadyState;
  (* the listeners [ws.on('close', ...)] has attached: the socket and the
     order id the closure holds, oldest first *)
  closeListeners : list (nat * string);
  (* what [ws.send] has accepted: the socket and the message, oldest
     first *)
  sent : list (nat * Message)
}.

(** [set.add(ws)], [set.delete(ws)]. *)
Definition Set_add (ws : nat) (set : list nat) : list nat :=
  if bool_decide (ws ∈ set) then set else set ++ [ws].

Definition Set_delete (ws : nat) (set : list nat) : list nat :=
  filter (fun x => x <> ws) set.

(** The listener [registerConnection] attaches to [ws] for [orderId]. *)
Definition onClose (orderId : string) (ws : nat)
    (conns : gmap string (list nat)) : gmap string (list nat) :=
  match conns !! orderId with
  | Some orderConnections =>
      let remaining := Set_delete ws orderConnections in
      if (length remaining =? 0)%nat then delete orderId conns
      else <[orderId := remaining]> conns
  | None => conns
  end.

(** [registerConnection]. *)
Definition registerConnection (orderId : string) (ws : nat) (s : Sockets)
  : Sockets :=
  let withSet :=
    match connections s !! orderId with
    | Some _ => connections s
    | None => <[orderId := []]> (connections s)
    end in
  {| connections := alter (Set_add ws) orderId withSet;
     readyState := readyState s;
     closeListeners := closeListeners s ++ [(ws, orderId)];
     sent := sent s |}.

(** The socket's ['close'] event: the socket is closed, and its listeners
    run in the order they were attached. *)
Definition closeEvent (ws : nat) (s : Sockets) : Sockets :=
  {| connections :=
       fold_left
         (fun conns listener =>
            if (fst listener =? ws)%nat then onClose (snd listener) ws conns
            else conns)
         (closeListeners s) (connections s);
     readyState := fun x => if (x =? ws)%nat then CLOSED else readyState s x;
     closeListeners := closeListeners s;
     sent := sent s |}.

(** [ws.send(message)] inside [try]/[catch]: [sendThrows ws] tells whether
    the call throws, in which case nothing is sent and the loop goes on. *)
Definition trySend (sendThrows : nat -> bool) (update : StatusUpdate)
    (s : Sockets) (ws : nat) : Sockets :=
  if isOpen (readyState s ws) then
    if sendThrows ws then s
    else {| connections := connections s; readyState := readyState s;
            closeListeners := closeListeners s;
            sent := sent s ++ [(ws, UpdateMessage update)] |}
  else s.

(** [broadcastStatus]. *)
Definition broadcastStatus (sendThrows : nat -> bool) (update : StatusUpdate)
    (s : Sockets) : Sockets :=
  match connections s !! su_orderId update with
  | None => s
  | Some orderConnections =>
      if (length orderConnections =? 0)%nat then s
      else fold_left (trySend sendThrows update) orderConnections s
  end.

(** [ws.close()]: a socket that is connecting or open starts its closing
    handshake; the ['close'] event comes later. *)
Definition close (s : Sockets) (ws : nat) : Sockets :=
  match readyState s ws with
  | CONNECTING | OPEN =>
      {| connections := connections s;
         readyState := fun x => if (x =? ws)%nat then CLOSING else readyState s x;
         closeListeners := closeListeners s; sent := sent s |}
  | CLOSING | CLOSED => s
  end.

(** One round of the loop of [closeConnections]. *)
Definition closeIfOpen (s : Sockets) (ws : nat) : Sockets :=
  if isOpen (readyState s ws) then close s ws else s.

(** [socket.send(message)] outside the broadcaster.  It throws on a socket
    that is still connecting, and where [sendThrows] says so; otherwise an
    open socket takes the message and a closing or closed one drops it. *)
Definition send (sendThrows : nat -> bool) (ws : nat) (message : Message)
    (s : Sockets) : Result unit * Sockets :=
  match readyState s ws with
  | CONNECTING => (Throw "WebSocket is not open: readyState 0 (CONNECTING)", s)
  | OPEN =>
      if sendThrows ws then (Throw "send failed", s)
      else (Ok tt, {| connections := connections s; readyState := readyState s;
                      closeListeners := closeListeners s;
                      sent := sent s ++ [(ws, message)] |})
  | CLOSING | CLOSED => if sendThrows ws then (Throw "send failed", s) else (Ok tt, s)
  end.

(** [closeConnections]. *)
Definition closeConnections (orderId : string) (s : Sockets) : Sockets :=
  match connections s !! orderId with
  | None => s
  | Some orderConnections =>
      let s' := fold_left closeIfOpen orderConnections s in
      {| connections := delete orderId (connections s');
         readyState := readyState s'; closeListeners := closeListeners s';
         sent := sent s' |}
  end.

(** [getActiveConnectionCount]. *)
Definition getActiveConnectionCount (s : Sockets) : nat :=
  map_fold (fun _ orderConnections count => (count + length orderConnections)%nat)
    0%nat (connections s).

(** What the registry looks like between two calls: no set is empty, none
    repeats a socket, and every member of an order's set has a close
    listener for that order. *)
Definition wellFormed (s : Sockets) : Prop :=
  forall orderId set, connections s !! orderId = Some set ->
    set <> [] /\ NoDup set
    /\ forall ws, ws ∈ set -> (ws, orderId) ∈ closeListeners s.

(** The sockets registered for an order. *)
Definition subscribers (orderId : string) (s : Sockets) : list nat :=
  default [] (connections s !! orderId).

Definition empty : Sockets :=
  {| connections := ∅; readyState := fun _ => OPEN; closeListeners := [];
     sent := [] |}.

End WebSocketManager.

(** ** routes/orders.ts: the WebSocket route *)

Section Subscription.

Context {codec : JsonCodec}.

(** [subscribeToOrder]: the order store and the registry side by side.
    [socket] is the connection's socket (it is never undefined here);
    whatever is thrown inside [try] ends in the handler's [catch], which
    closes the socket. *)
Definition subscribeToOrder (sendThrows : nat -> bool) (orderId : string)
    (socket : nat) (w : World) (s : WebSocketManager.Sockets)
  : World * WebSocketManager.Sockets :=
  match getById orderId w with
  | (Ok None, w') =>
      let '(_, s1) :=
        WebSocketManager.send sendThrows socket
          (WebSocketManager.NotFoundMessage orderId) s in
      (w', WebSocketManager.close s1 socket)
  | (Ok (Some order), w') =>
      let s1 := WebSocketManager.registerConnection orderId socket s in
      match
        WebSocketManager.send sendThrows socket
          (WebSocketManager.SnapshotMessage (id order) (status order) (clock w')
             (tokenIn order) (tokenOut order) (amount order) (slippage order)
             (txHash order) (errorMessage order)) s1
      with
      | (Ok _, s2) => (w', s2)
      | (Throw _, s2) => (w', WebSocketManager.close s2 socket)
      end
  | (Throw _, w') => (w', WebSocketManager.close s socket)
  end.

End Subscription.


(** ** Vocabulary of the specification *)

(** The transitions the specification's state machine permits:
    [pending -> routing -> building -> submitted -> confirmed], each of
    [routing], [building], [submitted] to [failed], and [failed] back to
    [routing] on a retry. *)
Definition spec_transition (a b : OrderStatus) : bool :=
  match a, b with
  | pending, routing | routing, building | building, submitted
  | submitted, confirmed => true
  | routing, failed | building, failed | submitted, failed => true
  | failed, routing => true
  | _, _ => false
  end.

(** Every step of a status sequence is a permitted transition. *)
Fixpoint permitted (l : list OrderStatus) : bool :=
  match l with
  | a :: (b :: _) as rest => spec_transition a b && permitted rest
  | _ => true
  end.

(** The statuses an assignment list sets. *)
Definition statusOf (updates : list Assignment) : list OrderStatus :=
  omap (fun a => match a with set_status s => Some s | _ => None end) updates.

(** The retry counts an assignment list sets. *)
Definition retryCountOf (updates : list Assignment) : list nat :=
  omap (fun a => match a with set_retry_count n => Some n | _ => None end) updates.

(** The statuses written for order [oid] by the statements of a log, in
    order: the status of its [INSERT], then of each [UPDATE]. *)
Definition statusWrites (oid : string) (l : list Effect) : list OrderStatus :=
  flat_map (fun e =>
    match e with
    | PgInsert row => if String.eqb (r_id row) oid then [r_status row] else []
    | PgUpdate i updates => if String.eqb i oid then statusOf updates else []
    | _ => []
    end) l.

(** The retry counts written for order [oid] by the statements of a log. *)
Definition retryCountWrites (oid : string) (l : list Effect) : list nat :=
  flat_map (fun e =>
    match e with
    | PgInsert row => if String.eqb (r_id row) oid then [retry_count row] else []
    | PgUpdate i updates => if String.eqb i oid then retryCountOf updates else []
    | _ => []
    end) l.

(** The statuses broadcast for order [oid], in order. *)
Definition broadcasts (oid : string) (l : list Effect) : list OrderStatus :=
  flat_map (fun e =>
    match e with
    | Broadcast u => if String.eqb (su_orderId u) oid then [su_status u] else []
    | _ => []
    end) l.

(** A computation keeps a property of the world. *)
Definition preserves {A} (P : World -> Prop) (m : M A) : Prop :=
  forall w, P w -> P (snd (m w)).

(** Every cache entry is a non-empty text. *)
Definition cacheEntriesNonEmpty (w : World) : Prop :=
  map_Forall (fun (_ : string) (s : string) => s <> ""%string) (cache w).

(** The fee rate of a venue. *)
Definition venueFee (d : Dex) : Q :=
  match d with raydium => 0.003%Q | meteora => 0.002%Q end.

(** The values of a swap fit the columns that take them: [executed_price]
    and [amount_out] are [DECIMAL(20,8)], which takes a number of magnitude
    up to 999999999999 and keeps 8 decimal places of it, and [tx_hash] is
    [VARCHAR(100)].  The table refuses an [UPDATE] with a value that does
    not fit. *)
Definition fitsColumns (swap : SwapResult) : bool :=
  Qle_bool (Qabs (sr_executedPrice swap)) 999999999999
  && Qle_bool (Qabs (sr_amountOut swap)) 999999999999
  && (String.length (sr_txHash swap) <=? 100)%nat.

(** The columns no statement of the store assigns after the insert. *)
Definition immutableColumns (r : Row) : string * string * string * Q * Q * nat :=
  (r_id r, token_in r, token_out r, r_amount r, r_slippage r, created_at r).

(** The table of [w'] holds the rows of [w], key by key, with the same
    immutable columns. *)
Definition sameOrders (w w' : World) : Prop :=
  forall k, immutableColumns <$> (db w' !! k) = immutableColumns <$> (db w !! k).

(** The cache outside one key. *)
Definition sameCacheExcept (key : string) (w w' : World) : Prop :=
  forall k, k <> key -> cache w' !! k = cache w !! k.

(** Every character of a text is one of an alphabet's. *)
Definition drawnFrom (alphabet s : string) : Prop :=
  Forall (fun c => In c (list_ascii_of_string alphabet)) (list_ascii_of_string s).

(** Every character of a text is a decimal digit. *)
Fixpoint allDigits (s : string) : bool :=
  match s with
  | String c rest => is_digit c && allDigits rest
  | EmptyString => true
  end.

(** A text that does not go on with a digit. *)
Definition noDigitAhead (s : string) : bool :=
  match s with
  | String c _ => negb (is_digit c)
  | EmptyString => true
  end.

(** The sets of a map are non-empty and free of repetitions. *)
Definition goodSets (m : gmap string (list nat)) : Prop :=
  forall k set, m !! k = Some set -> set <> [] /\ NoDup set.

(** Every set of [m'] is within the set [m] has for the same order. *)
Definition shrunk (m m' : gmap string (list nat)) : Prop :=
  forall k set', m' !! k = Some set' ->
    exists set, m !! k = Some set /\ forall x, x ∈ set' -> x ∈ set.

(** ** Concrete inputs for the examples *)

Module Demo.

Definition orderId : string := "00000000-0000-0000-0000-000000000000".

Definition solUsdc : Order :=
  {| id := orderId; tokenIn := "SOL"; tokenOut := "USDC"; amount := 1.5%Q;
     slippage := 0.01%Q; status := pending; selectedDex := None;
     raydiumQuote := JsNull; meteoraQuote := JsNull; executedPrice := None;
     amountOut := None; txHash := None; errorMessage := None; retryCount := 0;
     createdAt := 0; updatedAt := 0 |}.

(** A stand-in for the JSON codec: the text of an order is its id, and the
    only order the examples cache is [solUsdc]. *)
Definition stringify (o : Order) : string := "order " +:+ id o.
Definition parse (s : string) : Result Order :=
  if String.eqb s (stringify solUsdc) then Ok solUsdc
  else Throw "Unexpected token in JSON".

Definition codec : JsonCodec :=
  {| JSON_stringify := stringify; JSON_parse := parse |}.

Definition config : QueueConfig := {| maxRetries := 3 |}.

Definition emptyWorld : World :=
  {| db := ∅; cache := ∅; queue := []; log := []; clock := 0 |}.

Definition calm : Env :=
  {| rand_raydium := 0.5%Q; rand_meteora := 0.25%Q; rand_slippage := 0.5%Q;
     mockTxHash := "5f2c"; quote_fault := None; swap_fault := None |}.

Definition faulty : Env :=
  {| rand_raydium := 0.5%Q; rand_meteora := 0.25%Q; rand_slippage := 0.5%Q;
     mockTxHash := "5f2c"; quote_fault := Some "quote timeout";
     swap_fault := None |}.

Definition firstDelivery : Job := {| job_orderId := orderId; attemptsMade := 1 |}.

(** The row of the order [solUsdc], and a world that stores it (nothing is
    cached). *)
Definition storedRow : Row :=
  {| r_id := orderId; token_in := "SOL"; token_out := "USDC";
     r_amount := 1.5%Q; r_slippage := 0.01%Q; r_status := pending;
     selected_dex := None; raydium_quote := None; meteora_quote := None;
     executed_price := None; amount_out := None; tx_hash := None;
     error_message := Some "quote timeout"; retry_count := 1;
     created_at := 0; updated_at := 0 |}.

Definition stored : World :=
  {| db := {[ orderId := storedRow ]}; cache := ∅; queue := []; log := [];
     clock := 5 |}.

(** A world whose cache holds a snapshot under a key that is not a UUID. *)
Definition malformedId : string := "not-a-uuid".

Definition cachedOnly : World :=
  {| db := ∅; cache := {[ cacheKey malformedId := stringify solUsdc ]};
     queue := []; log := []; clock := 0 |}.

(** The spec's example submission, upgraded to a WebSocket. *)
Definition submission : Request :=
  {| body := {| body_tokenIn := JsStr "SOL"; body_tokenOut := JsStr "USDC";
                body_amount := JsNum 1.5%Q; body_slippage := JsNum 0.01%Q |};
     upgradeWebsocket := true |}.

(** The same submission as a plain HTTP request. *)
Definition httpSubmission : Request :=
  {| body := body submission; upgradeWebsocket := false |}.

(** A request for 1.5 SOL to USDC with a slippage of exactly 1. *)
Definition slippageOne : Request :=
  {| body := {| body_tokenIn := JsStr "SOL"; body_tokenOut := JsStr "USDC";
                body_amount := JsNum 1.5%Q; body_slippage := JsNum 1%Q |};
     upgradeWebsocket := false |}.

End Demo.

(** A registry with two sockets on one order and one on another. *)
Definition threeSockets : WebSocketManager.Sockets :=
  WebSocketManager.registerConnection "order-b" 3
    (WebSocketManager.registerConnection Demo.orderId 2
       (WebSocketManager.registerConnection Demo.orderId 1
          WebSocketManager.empty)).

(** * Properties *)

(** ** Arithmetic of the router *)

Local Close Scope string_scope.
Local Open Scope Q_scope.


Lemma Qlt_bool_false_iff (x y : Q) : Qlt_bool x y = false <-> y <= x.
Proof.
  unfold Qlt_bool. rewrite negb_false_iff. apply Qle_bool_iff.
Qed.

Lemma Math_min_spec (a b : Q) :
  (a <= b /\ Math_min a b = a) \/ (b < a /\ Math_min a b = b).
Proof.
  unfold Math_min. destruct (Qle_bool a b) eqn:E.
  - left. split; [now apply Qle_bool_iff | reflexivity].
  - right. split; [|reflexivity].
    apply Qnot_le_lt. intros H. apply Qle_bool_iff in H. congruence.
Qed.

Lemma lookupPrice_pos (pair : string) (p : Q) :
  lookupPrice pair basePrices = Some p -> 0 < p.
Proof.
  unfold basePrices. cbn [lookupPrice].
  repeat (destruct (String.eqb _ pair);
          [intros [= <-]; reflexivity|]).
  discriminate.
Qed.

(** The base price of every pair is positive. *)
Lemma getBasePrice_pos (a b : string) : 0 < getBasePrice a b.
Proof.
  unfold getBasePrice.
  destruct (lookupPrice _ basePrices) as [p|] eqn:E; [|reflexivity].
  destruct (truthy (JsNum p)); [|reflexivity].
  eapply lookupPrice_pos; eassumption.
Qed.






(** An exact tie: the Meteora draw is chosen so that both outputs are
    146.559; Meteora is selected and the improvement is zero. *)
Example getBestQuote_tie_selects_meteora :
  let r := getBestQuote "SOL" "USDC" 1.5 0 ((0.97706 / 0.998 - 0.97) / 0.08) 0 in
  estimatedOutput (bq_raydiumQuote r) == 146.559
  /\ estimatedOutput (bq_meteoraQuote r) == 146.559
  /\ dex (bestQuote r) = meteora
  /\ exists q, priceImprovement r = FiniteNumber q /\ q == 0.
Proof.
  cbv zeta. split; [reflexivity|]. split; [reflexivity|].
  split; [reflexivity|].
  eexists. split; [vm_compute; reflexivity | reflexivity].
Qed.



(** C4, as the code has it.  For a tolerance [s] and a draw [r], both in
    [[0,1)], the executed price is [basePrice * (1 - r * s)]; it lies
    between [basePrice * (1 - s)] and [basePrice], both bounds included;
    and the amount out is [amount * executedPrice * (1 - venueFee)]. *)
Theorem executeSwap_price_bounds
    (order : OrderDetails) (selected : Dex) (r : Q) (hash : string) (t : nat) :
  0 <= od_slippage order < 1 -> 0 <= r < 1 ->
  let basePrice := getBasePrice (od_tokenIn order) (od_tokenOut order) in
  let s := od_slippage order in
  let res := executeSwap order selected r hash t in
  sr_executedPrice res = basePrice * (1 - r * s)
  /\ basePrice * (1 - s) <= sr_executedPrice res
  /\ sr_executedPrice res <= basePrice
  /\ sr_amountOut res
     = od_amount order * sr_executedPrice res * (1 - venueFee selected)
  /\ sr_amountIn res = od_amount order /\ sr_dex res = selected.
Proof.
  intros [Hs0 Hs1] [Hr0 Hr1].
  pose proof (getBasePrice_pos (od_tokenIn order) (od_tokenOut order)) as Hb.
  cbv zeta. unfold executeSwap.
  cbn [sr_executedPrice sr_amountOut sr_amountIn sr_dex].
  set (b := getBasePrice (od_tokenIn order) (od_tokenOut order)) in *.
  set (s := od_slippage order) in *.
  assert (Hrs : 0 <= r * s) by (apply Qmult_le_0_compat; assumption).
  assert (Hrs' : r * s <= s).
  { assert (0 <= (1 - r) * s) by (apply Qmult_le_0_compat; lra). lra. }
  split; [reflexivity|].
  split.
  { assert (0 <= b * (s - r * s)) by (apply Qmult_le_0_compat; lra). lra. }
  split.
  { assert (0 <= b * (r * s)) by (apply Qmult_le_0_compat; lra). lra. }
  split; [|split; reflexivity].
  destruct selected; reflexivity.
Qed.

(** The spec's example order, executed on Raydium with the draw 1/2. *)
Lemma executeSwap_price_bounds_witness :
  ((0 <= 0.01 < 1) /\ (0 <= 0.5 < 1))
  /\ sr_executedPrice
       (executeSwap {| od_orderId := Demo.orderId; od_tokenIn := "SOL";
                       od_tokenOut := "USDC"; od_amount := 1.5;
                       od_slippage := 0.01 |} raydium 0.5 "5f2c" 0)
     <= getBasePrice "SOL" "USDC".
Proof.
  split.
  - repeat split; lra.
  - apply (executeSwap_price_bounds
             {| od_orderId := Demo.orderId; od_tokenIn := "SOL";
                od_tokenOut := "USDC"; od_amount := 1.5; od_slippage := 0.01 |}
             raydium 0.5 "5f2c" 0); cbn [od_slippage]; split; lra.
Defined.

(** C4, as stated, fails at tolerance zero: the tolerance 0 and the draw
    1/2 are both in [[0,1)], the executed price is the base price, and
    [basePrice * (1 - s) < executedPrice] does not hold. *)
Lemma executeSwap_zero_slippage_not_strict :
  let order := {| od_orderId := Demo.orderId; od_tokenIn := "SOL";
                  od_tokenOut := "USDC"; od_amount := 1.5; od_slippage := 0 |} in
  let res := executeSwap order raydium 0.5 "5f2c" 0 in
  (0 <= od_slippage order < 1) /\ (0 <= 0.5 < 1)
  /\ sr_executedPrice res == getBasePrice "SOL" "USDC"
  /\ ~ (getBasePrice "SOL" "USDC" * (1 - od_slippage order)
        < sr_executedPrice res).
Proof.
  cbv zeta. cbn [od_slippage].
  split; [split; lra|]. split; [split; lra|].
  split; [reflexivity|].
  vm_compute. intros H. discriminate H.
Qed.

(** ** Request validation *)

Lemma guard_string_iff (v : JsValue) :
  negb (truthy v) || negb (String.eqb (typeof v) "string") = false
  <-> exists s, v = JsStr s /\ s <> ""%string.
Proof.
  split.
  - intros H. apply orb_false_iff in H as [Ht Hs].
    destruct v as [ | |b|n|s|fields]; cbn in Hs; try discriminate Hs.
    exists s. split; [reflexivity|].
    intros ->. cbn in Ht. discriminate.
  - intros (s & -> & Hs). cbn [truthy typeof].
    apply String.eqb_neq in Hs. rewrite Hs. reflexivity.
Qed.

Lemma guard_amount_iff (v : JsValue) :
  negb (truthy v) || negb (String.eqb (typeof v) "number")
    || js_le v (JsNum 0) = false
  <-> exists a, v = JsNum a /\ 0 < a.
Proof.
  split.
  - intros H. apply orb_false_iff in H as [H Hle].
    apply orb_false_iff in H as [Ht Hn].
    destruct v as [ | |b|n|s|fields]; cbn in Hn; try discriminate Hn.
    exists n. split; [reflexivity|]. apply Qnot_le_lt. intros H.
    apply Qle_bool_iff in H. cbn [js_le] in Hle. congruence.
  - intros (a & -> & Ha). cbn [truthy typeof js_le].
    assert (Hne : Qeq_bool a 0 = false).
    { destruct (Qeq_bool a 0) eqn:E; [|reflexivity].
      apply Qeq_bool_iff in E. lra. }
    assert (Hle : Qle_bool a 0 = false).
    { destruct (Qle_bool a 0) eqn:E; [|reflexivity].
      apply Qle_bool_iff in E. lra. }
    rewrite Hne, Hle. reflexivity.
Qed.

Lemma guard_slippage_iff (v : JsValue) :
  js_strict_eq v JsUndefined || negb (String.eqb (typeof v) "number")
    || js_lt v (JsNum 0) || js_gt v (JsNum 1) = false
  <-> exists s, v = JsNum s /\ 0 <= s /\ s <= 1.
Proof.
  split.
  - intros H. apply orb_false_iff in H as [H H1].
    apply orb_false_iff in H as [H H0].
    apply orb_false_iff in H as [_ Hn].
    destruct v as [ | |b|n|s|fields]; cbn in Hn; try discriminate Hn.
    cbn [js_lt js_gt] in H0, H1.
    apply Qlt_bool_false_iff in H0. apply Qlt_bool_false_iff in H1.
    exists n. auto.
  - intros (s & -> & H0 & H1). cbn [js_strict_eq typeof js_lt js_gt].
    apply Qlt_bool_false_iff in H0. apply Qlt_bool_false_iff in H1.
    rewrite H0, H1. reflexivity.
Qed.

(** The requests [validateOrderRequest] accepts. *)
Lemma validateOrderRequest_valid_iff (b : OrderSubmitBody) :
  valid (validateOrderRequest b) = true
  <-> exists (tin tout : string) (a s : Q),
        body_tokenIn b = JsStr tin /\ tin <> ""%string
        /\ body_tokenOut b = JsStr tout /\ tout <> ""%string
        /\ body_amount b = JsNum a /\ 0 < a
        /\ body_slippage b = JsNum s /\ 0 <= s /\ s <= 1
        /\ tin <> tout.
Proof.
  unfold validateOrderRequest. split.
  - destruct (negb (truthy (body_tokenIn b)) || _) eqn:G1; [discriminate|].
    destruct (negb (truthy (body_tokenOut b)) || _) eqn:G2; [discriminate|].
    destruct (negb (truthy (body_amount b)) || _ || _) eqn:G3; [discriminate|].
    destruct (js_strict_eq (body_slippage b) JsUndefined || _ || _ || _) eqn:G4;
      [discriminate|].
    destruct (js_strict_eq (body_tokenIn b) (body_tokenOut b)) eqn:G5;
      [discriminate|].
    intros _.
    apply guard_string_iff in G1 as (tin & E1 & N1).
    apply guard_string_iff in G2 as (tout & E2 & N2).
    apply guard_amount_iff in G3 as (a & E3 & P3).
    apply guard_slippage_iff in G4 as (s & E4 & L4 & U4).
    exists tin, tout, a, s. rewrite E1, E2 in G5. cbn in G5.
    apply String.eqb_neq in G5. auto 12.
  - intros (tin & tout & a & s & E1 & N1 & E2 & N2 & E3 & P3 & E4 & L4 & U4 & Hne).
    assert (G1 : negb (truthy (body_tokenIn b))
                 || negb (String.eqb (typeof (body_tokenIn b)) "string") = false)
      by (apply guard_string_iff; eauto).
    assert (G2 : negb (truthy (body_tokenOut b))
                 || negb (String.eqb (typeof (body_tokenOut b)) "string") = false)
      by (apply guard_string_iff; eauto).
    assert (G3 : negb (truthy (body_amount b))
                 || negb (String.eqb (typeof (body_amount b)) "number")
                 || js_le (body_amount b) (JsNum 0) = false)
      by (apply guard_amount_iff; eauto).
    assert (G4 : js_strict_eq (body_slippage b) JsUndefined
                 || negb (String.eqb (typeof (body_slippage b)) "number")
                 || js_lt (body_slippage b) (JsNum 0)
                 || js_gt (body_slippage b) (JsNum 1) = false)
      by (apply guard_slippage_iff; eauto).
    rewrite G1, G2, G3, G4. rewrite E1, E2. cbn [js_strict_eq].
    apply String.eqb_neq in Hne. rewrite Hne. reflexivity.
Qed.

Section Properties.

Context {codec : JsonCodec} {config : QueueConfig}.

(** ** The submission handler *)

(** [OrderModel.create] with an unused id: the row it inserts, pending and
    with a retry count of zero, and the cache entry it writes. *)
Lemma create_fresh (newId tin tout : string) (a s : Q) (w : World) :
  db w !! newId = None ->
  let row := {| r_id := newId; token_in := tin; token_out := tout;
                r_amount := a; r_slippage := s; r_status := pending;
                selected_dex := None; raydium_quote := None;
                meteora_quote := None; executed_price := None;
                amount_out := None; tx_hash := None; error_message := None;
                retry_count := 0; created_at := clock w;
                updated_at := clock w |} in
  create newId tin tout a s w
  = (Ok (mapRow row),
     {| db := <[newId := row]> (db w);
        cache := <[cacheKey newId := JSON_stringify (mapRow row)]> (cache w);
        queue := queue w;
        log := log w ++ [PgInsert row;
                         RedisSetex (cacheKey newId) 3600
                           (JSON_stringify (mapRow row))];
        clock := clock w |}).
Proof.
  intros Hnew. cbv zeta.
  unfold create, bind, now, pg_insert. cbn [r_id]. rewrite Hnew.
  unfold redis_setex, ret, emit. cbn [db cache queue log clock].
  rewrite <- app_assoc. reflexivity.
Qed.

(** C2, as the code has it.  [validateOrderRequest] accepts exactly the
    bodies whose tokens are two different non-empty strings, whose amount is
    a positive number and whose slippage is a number in the closed interval
    [[0,1]] (1 included); so it rejects an amount [<= 0], a slippage below 0
    or above 1, and equal tokens.  On a rejected body [executeOrder] answers
    400 and leaves the world as it was: no row, no cache entry, no job.  On
    an accepted body, with an unused id, it inserts a pending order and
    enqueues its job. *)
Theorem executeOrder_validates_before_creating
    (newId : string) (request : Request) (w : World) :
  let b := body request in
  (valid (validateOrderRequest b) = true
   <-> exists (tin tout : string) (a s : Q),
         body_tokenIn b = JsStr tin /\ tin <> ""%string
         /\ body_tokenOut b = JsStr tout /\ tout <> ""%string
         /\ body_amount b = JsNum a /\ 0 < a
         /\ body_slippage b = JsNum s /\ 0 <= s /\ s <= 1
         /\ tin <> tout)
  /\ (forall a, body_amount b = JsNum a -> a <= 0 ->
        valid (validateOrderRequest b) = false)
  /\ (forall s, body_slippage b = JsNum s -> s < 0 \/ 1 < s ->
        valid (validateOrderRequest b) = false)
  /\ (body_tokenIn b = body_tokenOut b -> valid (validateOrderRequest b) = false)
  /\ (valid (validateOrderRequest b) = false ->
        exists message, executeOrder newId request w = (Ok (Reply400 message), w))
  /\ (valid (validateOrderRequest b) = true -> db w !! newId = None ->
        exists w' row,
          executeOrder newId request w
          = (Ok (if upgradeWebsocket request then Hijacked
                 else Reply201 newId pending), w')
          /\ db w' !! newId = Some row
          /\ r_status row = pending /\ retry_count row = 0%nat
          /\ newId ∈ queue w'
          /\ (forall other, other <> newId -> db w' !! other = db w !! other)).
Proof.
  cbv zeta. set (b := body request).
  assert (Hrej : forall P : Prop,
             (valid (validateOrderRequest b) = true -> P -> False) ->
             P -> valid (validateOrderRequest b) = false).
  { intros P HP p. destruct (valid (validateOrderRequest b)) eqn:E;
      [exfalso; eauto | reflexivity]. }
  split; [apply validateOrderRequest_valid_iff|].
  split.
  { intros a Ea Ha. apply (Hrej (a <= 0)); [|assumption].
    intros Hv _. apply validateOrderRequest_valid_iff in Hv
      as (? & ? & a' & ? & _ & _ & _ & _ & Ea' & Hpos & _).
    rewrite Ea in Ea'. injection Ea' as <-. lra. }
  split.
  { intros s Es Hs. apply (Hrej (s < 0 \/ 1 < s)); [|assumption].
    intros Hv _. apply validateOrderRequest_valid_iff in Hv
      as (? & ? & ? & s' & _ & _ & _ & _ & _ & _ & Es' & H0 & H1 & _).
    rewrite Es in Es'. injection Es' as <-. lra. }
  split.
  { intros Heq. apply (Hrej True); [|exact I].
    intros Hv _. apply validateOrderRequest_valid_iff in Hv
      as (tin & tout & ? & ? & E1 & _ & E2 & _ & _ & _ & _ & _ & _ & Hne).
    rewrite E1, E2 in Heq. injection Heq as ->. congruence. }
  split.
  { intros Hv. unfold executeOrder. fold b. rewrite Hv.
    cbn [negb]. eexists. reflexivity. }
  intros Hv Hnew.
  pose proof Hv as Hshape. apply validateOrderRequest_valid_iff in Hshape
    as (tin & tout & a & s & E1 & _ & E2 & _ & E3 & _ & E4 & _).
  unfold executeOrder. fold b. rewrite Hv. cbn [negb].
  unfold try_catch at 1. unfold bind at 1.
  rewrite (create_fresh _ _ _ _ _ _ Hnew).
  rewrite E1, E2, E3, E4. cbn [asString asNumber mapRow id status].
  destruct (upgradeWebsocket request);
    cbv [bind registerConnection broadcastNow now broadcastStatus try_catch
         addOrderToQueue ret emit];
    cbn [db cache queue log clock r_id];
    (eexists; eexists; split; [reflexivity|]);
    cbn [db queue]; rewrite lookup_insert_eq;
    (split; [reflexivity|]);
    cbn [r_status retry_count];
    do 2 (split; [reflexivity|]);
    (split; [case_bool_decide; set_solver|]);
    intros other Hne; apply lookup_insert_ne; congruence.
Qed.

(** ** The order store *)

(** The row [updateStatus] leaves behind, column by column. *)
Lemma sql_set_updates_of (t : nat) (status : OrderStatus)
    (additionalData : option PartialOrder) (r : Row) :
  let p := default emptyPatch additionalData in
  sql_set t (updates_of status additionalData) r
  = {| r_id := r_id r; token_in := token_in r; token_out := token_out r;
       r_amount := r_amount r; r_slippage := r_slippage r;
       r_status := status;
       selected_dex :=
         match p_selectedDex p with Some d => Some d | None => selected_dex r end;
       raydium_quote :=
         if truthy (p_raydiumQuote p) then Some (p_raydiumQuote p)
         else raydium_quote r;
       meteora_quote :=
         if truthy (p_meteoraQuote p) then Some (p_meteoraQuote p)
         else meteora_quote r;
       executed_price :=
         match p_executedPrice p with Some q => Some q | None => executed_price r end;
       amount_out :=
         match p_amountOut p with Some q => Some q | None => amount_out r end;
       tx_hash := if truthyStr (p_txHash p) then p_txHash p else tx_hash r;
       error_message :=
         if truthyStr (p_errorMessage p) then p_errorMessage p
         else error_message r;
       retry_count := default (retry_count r) (p_retryCount p);
       created_at := created_at r;
       updated_at := t |}.
Proof.
  cbv zeta. unfold updates_of, sql_set.
  generalize (default emptyPatch additionalData). intros p.
  destruct (p_selectedDex p), (truthy (p_raydiumQuote p)),
    (truthy (p_meteoraQuote p)), (p_executedPrice p), (p_amountOut p),
    (p_retryCount p);
    destruct (p_txHash p) as [h|]; cbn [truthyStr];
    try destruct (truthy (JsStr h));
    destruct (p_errorMessage p) as [m|]; cbn [truthyStr];
    try destruct (truthy (JsStr m));
    reflexivity.
Qed.


(** One run of [updateStatus]: the [UPDATE], then the cache deletion. *)
Lemma updateStatus_run (oid : string) (st : OrderStatus)
    (additionalData : option PartialOrder) (w : World) :
  updateStatus oid st additionalData w
  = (Ok tt,
     {| db := match db w !! oid with
              | Some r =>
                  <[oid := sql_set (clock w) (updates_of st additionalData) r]> (db w)
              | None => db w
              end;
        cache := delete (cacheKey oid) (cache w);
        queue := queue w;
        log := log w ++ [PgUpdate oid (updates_of st additionalData);
                         RedisDel (cacheKey oid)];
        clock := clock w |}).
Proof.
  unfold updateStatus, bind, pg_update, redis_del, emit.
  cbn [db cache queue log clock]. rewrite <- app_assoc. reflexivity.
Qed.

(** A hit: the reply of the cache is a non-empty text. *)
Lemma getById_hit (oid s : string) (w : World) :
  cache w !! cacheKey oid = Some s -> s <> ""%string ->
  getById oid w
  = (match JSON_parse s with Ok o => Ok (Some o) | Throw e => Throw e end,
     emit (RedisGet (cacheKey oid)) w).
Proof.
  intros Hc Hs. unfold getById, bind, redis_get. rewrite Hc.
  cbn [redis_reply truthy default from_option]. unfold Datatypes.id.
  apply String.eqb_neq in Hs. rewrite Hs.
  cbn [negb]. destruct (JSON_parse s); reflexivity.
Qed.

(** A miss on a well-formed id: the row is read and the cache refilled. *)
Lemma getById_miss_found (oid : string) (row : Row) (w : World) :
  truthy (redis_reply (cache w !! cacheKey oid)) = false ->
  uuidRegex_test oid = true ->
  db w !! oid = Some row ->
  getById oid w
  = (Ok (Some (mapRow row)),
     {| db := db w;
        cache := <[cacheKey oid := JSON_stringify (mapRow row)]> (cache w);
        queue := queue w;
        log := log w ++ [RedisGet (cacheKey oid); PgSelect oid;
                         RedisSetex (cacheKey oid) 3600
                           (JSON_stringify (mapRow row))];
        clock := clock w |}).
Proof.
  intros Hmiss Hid Hrow. unfold getById, bind, redis_get. rewrite Hmiss, Hid.
  cbn [negb]. unfold pg_select, emit. cbn [db cache queue log clock].
  rewrite Hrow. unfold redis_setex, ret, emit. cbn [db cache queue log clock].
  rewrite <- !app_assoc. reflexivity.
Qed.

(** A miss on an id with no row, or on a malformed id. *)
Lemma getById_miss_absent (oid : string) (w : World) :
  truthy (redis_reply (cache w !! cacheKey oid)) = false ->
  (uuidRegex_test oid = false ->
     getById oid w = (Ok None, emit (RedisGet (cacheKey oid)) w))
  /\ (uuidRegex_test oid = true -> db w !! oid = None ->
     getById oid w
     = (Ok None, emit (PgSelect oid) (emit (RedisGet (cacheKey oid)) w))).
Proof.
  intros Hmiss. split.
  - intros Hid. unfold getById, bind, redis_get. rewrite Hmiss, Hid. reflexivity.
  - intros Hid Hrow. unfold getById, bind, redis_get. rewrite Hmiss, Hid.
    cbn [negb]. unfold pg_select. cbn [emit db]. rewrite Hrow. reflexivity.
Qed.

(** C5.  [updateStatus] returns normally, and in the world it returns the
    cache holds no entry for the id: the statement that persists the new
    status and the patch is issued first, the cache key is deleted after it,
    and a direct cache lookup is absent.  The next [getById] of a stored,
    well-formed id reads the row and puts its snapshot back. *)
Theorem updateStatus_invalidates_cache (oid : string) (st : OrderStatus)
    (additionalData : option PartialOrder) (w : World) :
  exists w',
    updateStatus oid st additionalData w = (Ok tt, w')
    /\ cache w' !! cacheKey oid = None
    /\ log w' = log w ++ [PgUpdate oid (updates_of st additionalData);
                          RedisDel (cacheKey oid)]
    /\ (forall r, db w !! oid = Some r ->
          db w' !! oid = Some (sql_set (clock w) (updates_of st additionalData) r)
          /\ r_status (sql_set (clock w) (updates_of st additionalData) r) = st)
    /\ (forall r', db w' !! oid = Some r' -> uuidRegex_test oid = true ->
          exists w'',
            getById oid w' = (Ok (Some (mapRow r')), w'')
            /\ cache w'' !! cacheKey oid = Some (JSON_stringify (mapRow r'))
            /\ db w'' = db w').
Proof.
  eexists. split; [apply updateStatus_run|].
  cbn [db cache queue log clock].
  split; [apply lookup_delete_eq|].
  split; [reflexivity|].
  split.
  - intros r Hr. rewrite Hr. rewrite lookup_insert_eq.
    split; [reflexivity|]. rewrite sql_set_updates_of. reflexivity.
  - intros r' Hr' Hid. eexists. split.
    + apply getById_miss_found; [|assumption|exact Hr'].
      cbn [cache]. rewrite lookup_delete_eq. reflexivity.
    + cbn [db cache]. rewrite lookup_insert_eq. split; reflexivity.
Qed.

(** C8.  [getById] asks the cache first.  On a hit it returns the parsed
    entry at once.  On a miss with a malformed id it returns absent and the
    only effect is the cache lookup: no statement reaches the database.  On
    a miss with a well-formed id that has no row it returns absent as a
    normal result (no exception), after one [SELECT]. *)
Theorem getById_cache_aside (oid : string) (w : World) :
  (forall s, cache w !! cacheKey oid = Some s -> s <> ""%string ->
     getById oid w
     = (match JSON_parse s with Ok o => Ok (Some o) | Throw e => Throw e end,
        emit (RedisGet (cacheKey oid)) w))
  /\ (truthy (redis_reply (cache w !! cacheKey oid)) = false ->
      uuidRegex_test oid = false ->
      exists w',
        getById oid w = (Ok None, w')
        /\ log w' = log w ++ [RedisGet (cacheKey oid)]
        /\ db w' = db w /\ cache w' = cache w)
  /\ (truthy (redis_reply (cache w !! cacheKey oid)) = false ->
      uuidRegex_test oid = true -> db w !! oid = None ->
      exists w',
        getById oid w = (Ok None, w')
        /\ log w' = log w ++ [RedisGet (cacheKey oid); PgSelect oid]
        /\ db w' = db w /\ cache w' = cache w).
Proof.
  split; [intros s; apply getById_hit|].
  split.
  - intros Hmiss Hid. destruct (getById_miss_absent oid w Hmiss) as [H _].
    eexists. split; [apply H; assumption|]. repeat split.
  - intros Hmiss Hid Hrow. destruct (getById_miss_absent oid w Hmiss) as [_ H].
    eexists. split; [apply H; assumption|]. cbn [emit log db cache].
    rewrite <- app_assoc. repeat split.
Qed.

(** C9.  When the cache holds an entry for the id (a non-empty text, as
    every entry the store writes is), [getById] returns the parsed entry:
    the only effect is the cache lookup, the shape of the id is not
    examined and the database is not read.  So a malformed id whose key is
    cached yields the cached order, not absent. *)
Theorem getById_hit_skips_validation (oid s : string) (w : World) :
  cache w !! cacheKey oid = Some s -> s <> ""%string ->
  exists w',
    getById oid w
    = (match JSON_parse s with Ok o => Ok (Some o) | Throw e => Throw e end, w')
    /\ log w' = log w ++ [RedisGet (cacheKey oid)]
    /\ db w' = db w /\ cache w' = cache w
    /\ (forall o, JSON_parse s = Ok o -> uuidRegex_test oid = false ->
          fst (getById oid w) = Ok (Some o)).
Proof.
  intros Hc Hs. eexists. split; [apply getById_hit; assumption|].
  cbn [emit log db cache]. do 3 (split; [reflexivity|]).
  intros o Ho _. rewrite (getById_hit oid s w Hc Hs), Ho. reflexivity.
Qed.

(** C10.  [updateStatus] on a stored order writes [status] and
    [updated_at], the columns whose patch field is truthy ([selectedDex],
    the two quotes, [txHash], [errorMessage]) and the columns whose patch
    field is defined ([executedPrice], [amountOut], [retryCount]); every
    other column, and every other row, is as before.  A patch whose
    [errorMessage] is the empty string leaves the stored message alone. *)
Theorem updateStatus_writes_only_patched_columns (oid : string)
    (st : OrderStatus) (additionalData : option PartialOrder) (w : World) (r : Row) :
  db w !! oid = Some r ->
  let p := default emptyPatch additionalData in
  exists w' r',
    updateStatus oid st additionalData w = (Ok tt, w')
    /\ db w' !! oid = Some r'
    /\ r_status r' = st /\ updated_at r' = clock w
    /\ r_id r' = r_id r /\ token_in r' = token_in r /\ token_out r' = token_out r
    /\ r_amount r' = r_amount r /\ r_slippage r' = r_slippage r
    /\ created_at r' = created_at r
    /\ selected_dex r'
       = match p_selectedDex p with Some d => Some d | None => selected_dex r end
    /\ raydium_quote r'
       = (if truthy (p_raydiumQuote p) then Some (p_raydiumQuote p)
          else raydium_quote r)
    /\ meteora_quote r'
       = (if truthy (p_meteoraQuote p) then Some (p_meteoraQuote p)
          else meteora_quote r)
    /\ executed_price r'
       = match p_executedPrice p with Some q => Some q | None => executed_price r end
    /\ amount_out r'
       = match p_amountOut p with Some q => Some q | None => amount_out r end
    /\ tx_hash r' = (if truthyStr (p_txHash p) then p_txHash p else tx_hash r)
    /\ error_message r'
       = (if truthyStr (p_errorMessage p) then p_errorMessage p
          else error_message r)
    /\ retry_count r' = default (retry_count r) (p_retryCount p)
    /\ (p_errorMessage p = Some ""%string -> error_message r' = error_message r)
    /\ (forall other, other <> oid -> db w' !! other = db w !! other)
    /\ queue w' = queue w.
Proof.
  intros Hr. cbv zeta. eexists. eexists.
  split; [apply updateStatus_run|].
  cbn [db queue]. rewrite Hr.
  split; [apply lookup_insert_eq|].
  rewrite sql_set_updates_of.
  cbn [r_id token_in token_out r_amount r_slippage r_status selected_dex
       raydium_quote meteora_quote executed_price amount_out tx_hash
       error_message retry_count created_at updated_at].
  do 16 (split; [reflexivity|]).
  split; [intros E; rewrite E; reflexivity|].
  split; [|reflexivity].
  intros other Hne. apply lookup_insert_ne. congruence.
Qed.


(** ** The worker *)

(** *** Stepping through the monad *)

Lemma bind_ok {A B} (m : M A) (k : A -> M B) (w : World) (a : A) :
  fst (m w) = Ok a -> bind m k w = k a (snd (m w)).
Proof. unfold bind. destruct (m w) as [[x|e] w']; cbn; congruence. Qed.

Lemma bind_throw {A B} (m : M A) (k : A -> M B) (w : World) (e : string) :
  fst (m w) = Throw e -> bind m k w = (Throw e, snd (m w)).
Proof. unfold bind. destruct (m w) as [[x|e'] w']; cbn; congruence. Qed.

Lemma bind_now {B} (k : nat -> M B) (w : World) : bind now k w = k (clock w) w.
Proof. reflexivity. Qed.

Lemma bind_ret {A B} (a : A) (k : A -> M B) (w : World) : bind (ret a) k w = k a w.
Proof. reflexivity. Qed.

Lemma updateStatus_fst (oid : string) (st : OrderStatus)
    (ad : option PartialOrder) (w : World) :
  fst (updateStatus oid st ad w) = Ok tt.
Proof. rewrite updateStatus_run. reflexivity. Qed.

Lemma broadcastNow_fst (oid : string) (st : OrderStatus) (d : EventData) (w : World) :
  fst (broadcastNow oid st d w) = Ok tt.
Proof. reflexivity. Qed.

(** *** What one store or broadcaster call does to each part of the world *)

Lemma updateStatus_log (oid : string) (st : OrderStatus)
    (ad : option PartialOrder) (w : World) :
  log (snd (updateStatus oid st ad w))
  = (log w ++ [PgUpdate oid (updates_of st ad); RedisDel (cacheKey oid)])%list.
Proof. rewrite updateStatus_run. reflexivity. Qed.

Lemma updateStatus_clock (oid : string) (st : OrderStatus)
    (ad : option PartialOrder) (w : World) :
  clock (snd (updateStatus oid st ad w)) = clock w.
Proof. rewrite updateStatus_run. reflexivity. Qed.

Lemma updateStatus_queue (oid : string) (st : OrderStatus)
    (ad : option PartialOrder) (w : World) :
  queue (snd (updateStatus oid st ad w)) = queue w.
Proof. rewrite updateStatus_run. reflexivity. Qed.

Lemma updateStatus_cache (oid : string) (st : OrderStatus)
    (ad : option PartialOrder) (w : World) :
  cache (snd (updateStatus oid st ad w)) = delete (cacheKey oid) (cache w).
Proof. rewrite updateStatus_run. reflexivity. Qed.

Lemma updateStatus_db (oid : string) (st : OrderStatus)
    (ad : option PartialOrder) (w : World) :
  db (snd (updateStatus oid st ad w)) !! oid
  = sql_set (clock w) (updates_of st ad) <$> (db w !! oid).
Proof.
  rewrite updateStatus_run. cbn [snd db].
  destruct (db w !! oid) as [r|] eqn:E; cbn.
  - apply lookup_insert_eq.
  - assumption.
Qed.

Lemma updateStatus_db_other (oid other : string) (st : OrderStatus)
    (ad : option PartialOrder) (w : World) :
  other <> oid ->
  db (snd (updateStatus oid st ad w)) !! other = db w !! other.
Proof.
  intros Hne. rewrite updateStatus_run. cbn [snd db].
  destruct (db w !! oid); [|reflexivity].
  apply lookup_insert_ne. congruence.
Qed.

(** An update of an absent row leaves the table as it is. *)
Lemma updateStatus_db_absent (oid : string) (st : OrderStatus)
    (ad : option PartialOrder) (w : World) :
  db w !! oid = None -> db (snd (updateStatus oid st ad w)) = db w.
Proof. intros E. rewrite updateStatus_run. cbn [snd db]. rewrite E. reflexivity. Qed.

Lemma broadcastNow_log (oid : string) (st : OrderStatus) (d : EventData) (w : World) :
  log (snd (broadcastNow oid st d w))
  = (log w ++ [Broadcast {| su_orderId := oid; su_status := st;
                            su_timestamp := clock w; su_data := d |}])%list.
Proof. reflexivity. Qed.

Lemma broadcastNow_db (oid : string) (st : OrderStatus) (d : EventData) (w : World) :
  db (snd (broadcastNow oid st d w)) = db w.
Proof. reflexivity. Qed.

Lemma broadcastNow_cache (oid : string) (st : OrderStatus) (d : EventData) (w : World) :
  cache (snd (broadcastNow oid st d w)) = cache w.
Proof. reflexivity. Qed.

Lemma broadcastNow_clock (oid : string) (st : OrderStatus) (d : EventData) (w : World) :
  clock (snd (broadcastNow oid st d w)) = clock w.
Proof. reflexivity. Qed.

Lemma broadcastNow_queue (oid : string) (st : OrderStatus) (d : EventData) (w : World) :
  queue (snd (broadcastNow oid st d w)) = queue w.
Proof. reflexivity. Qed.

(** The statuses and retry counts in the [SET] list of [updateStatus]. *)
Lemma statusOf_updates_of (st : OrderStatus) (ad : option PartialOrder) :
  statusOf (updates_of st ad) = [st].
Proof.
  unfold updates_of. generalize (default emptyPatch ad). intros p.
  destruct (p_selectedDex p), (truthy (p_raydiumQuote p)),
    (truthy (p_meteoraQuote p)), (p_executedPrice p), (p_amountOut p),
    (p_retryCount p), (truthyStr (p_txHash p)), (truthyStr (p_errorMessage p));
    reflexivity.
Qed.

Lemma retryCountOf_updates_of (st : OrderStatus) (ad : option PartialOrder) :
  retryCountOf (updates_of st ad)
  = match p_retryCount (default emptyPatch ad) with Some n => [n] | None => [] end.
Proof.
  unfold updates_of. generalize (default emptyPatch ad). intros p.
  destruct (p_selectedDex p), (truthy (p_raydiumQuote p)),
    (truthy (p_meteoraQuote p)), (p_executedPrice p), (p_amountOut p),
    (p_retryCount p), (truthyStr (p_txHash p)), (truthyStr (p_errorMessage p));
    reflexivity.
Qed.

(** The observations of a log distribute over concatenation. *)
Lemma statusWrites_app (oid : string) (l1 l2 : list Effect) :
  statusWrites oid (l1 ++ l2) = (statusWrites oid l1 ++ statusWrites oid l2)%list.
Proof. apply flat_map_app. Qed.

Lemma retryCountWrites_app (oid : string) (l1 l2 : list Effect) :
  retryCountWrites oid (l1 ++ l2)
  = (retryCountWrites oid l1 ++ retryCountWrites oid l2)%list.
Proof. apply flat_map_app. Qed.

Lemma broadcasts_app (oid : string) (l1 l2 : list Effect) :
  broadcasts oid (l1 ++ l2) = (broadcasts oid l1 ++ broadcasts oid l2)%list.
Proof. apply flat_map_app. Qed.

(** [getById] writes no status, no retry count, and broadcasts nothing; it
    leaves the table, the queue and the clock alone. *)
Lemma getById_frame (oid : string) (w : World) :
  exists l,
    log (snd (getById oid w)) = (log w ++ l)%list
    /\ (forall i, statusWrites i l = []) /\ (forall i, retryCountWrites i l = [])
    /\ (forall i, broadcasts i l = [])
    /\ db (snd (getById oid w)) = db w
    /\ queue (snd (getById oid w)) = queue w
    /\ clock (snd (getById oid w)) = clock w.
Proof.
  unfold getById, bind, redis_get.
  destruct (truthy (redis_reply (cache w !! cacheKey oid))).
  - exists [RedisGet (cacheKey oid)].
    destruct (JSON_parse _); cbn; repeat split; reflexivity.
  - destruct (negb (uuidRegex_test oid)).
    + exists [RedisGet (cacheKey oid)]. cbn. repeat split; reflexivity.
    + unfold pg_select. cbn [emit db].
      destruct (db w !! oid) as [row|].
      * exists [RedisGet (cacheKey oid); PgSelect oid;
                RedisSetex (cacheKey oid) 3600 (JSON_stringify (mapRow row))].
        cbn. rewrite <- !app_assoc. repeat split; reflexivity.
      * exists [RedisGet (cacheKey oid); PgSelect oid].
        cbn. rewrite <- !app_assoc. repeat split; reflexivity.
Qed.


(** *** One run of [processOrder], symbolically *)

(** The [catch] block: the [failed] update, the [failed] event, the
    re-throw. *)
Lemma processOrder_catch_run (job : Job) (e : string) (w : World) :
  processOrder_catch job e w
  = (Throw e,
     snd (broadcastNow (job_orderId job) failed
            (FailedData e (attemptsMade job) (attemptsMade job <? maxRetries)%nat)
            (snd (updateStatus (job_orderId job) failed
                    (Some (patch_failed e (attemptsMade job))) w)))).
Proof.
  unfold processOrder_catch.
  rewrite (bind_ok _ _ _ tt (updateStatus_fst _ _ _ _)).
  rewrite (bind_ok _ _ _ tt (broadcastNow_fst _ _ _ _)).
  reflexivity.
Qed.

(** The [try] block once the order is found: it stops at the first awaited
    router call that rejects, in the world reached so far. *)
Lemma processOrder_try_found (job : Job) (env : Env) (order : Order) (w w1 : World) :
  getById (job_orderId job) w = (Ok (Some order), w1) ->
  let oid := job_orderId job in
  let w2 := snd (broadcastNow oid routing (MessageData "Comparing DEX quotes...")
                   (snd (updateStatus oid routing None w1))) in
  let quotes := getBestQuote (tokenIn order) (tokenOut order) (amount order)
                  (rand_raydium env) (rand_meteora env) (clock w2) in
  let best := bestQuote quotes in
  let w3 := snd (broadcastNow oid building
                   (BuildingData (dex best) (estimatedOutput best)
                      (priceImprovement quotes))
                   (snd (updateStatus oid building
                           (Some (patch_building (dex best)
                                    (quoteToJs (bq_raydiumQuote quotes))
                                    (quoteToJs (bq_meteoraQuote quotes)))) w2))) in
  let w4 := snd (broadcastNow oid submitted
                   (MessageData "Transaction submitted to blockchain...")
                   (snd (updateStatus oid submitted None w3))) in
  let swapResult :=
    executeSwap {| od_orderId := oid; od_tokenIn := tokenIn order;
                   od_tokenOut := tokenOut order; od_amount := amount order;
                   od_slippage := slippage order |}
      (dex best) (rand_slippage env) (mockTxHash env) (clock w4) in
  let w5 := snd (broadcastNow oid confirmed
                   (ConfirmedData (sr_txHash swapResult)
                      (sr_executedPrice swapResult) (sr_amountOut swapResult)
                      (sr_dex swapResult))
                   (snd (updateStatus oid confirmed
                           (Some (patch_confirmed (sr_executedPrice swapResult)
                                    (sr_amountOut swapResult)
                                    (sr_txHash swapResult))) w4))) in
  processOrder_try job env w
  = match quote_fault env with
    | Some e => (Throw e, w2)
    | None =>
        match swap_fault env with
        | Some e => (Throw e, w4)
        | None => (Ok tt, w5)
        end
    end.
Proof.
  intros Hget. cbv zeta. unfold processOrder_try.
  rewrite (bind_ok _ _ _ (Some order)) by (rewrite Hget; reflexivity).
  rewrite Hget. cbn [snd].
  rewrite (bind_ok _ _ _ tt (updateStatus_fst _ _ _ _)).
  rewrite (bind_ok _ _ _ tt (broadcastNow_fst _ _ _ _)).
  rewrite bind_now.
  destruct (quote_fault env) as [e|]; [reflexivity|].
  cbn [await]. rewrite bind_ret.
  rewrite (bind_ok _ _ _ tt (updateStatus_fst _ _ _ _)).
  rewrite (bind_ok _ _ _ tt (broadcastNow_fst _ _ _ _)).
  rewrite (bind_ok _ _ _ tt (updateStatus_fst _ _ _ _)).
  rewrite (bind_ok _ _ _ tt (broadcastNow_fst _ _ _ _)).
  rewrite bind_now.
  destruct (swap_fault env) as [e|]; [reflexivity|].
  cbn [await]. rewrite bind_ret.
  rewrite (bind_ok _ _ _ tt (updateStatus_fst _ _ _ _)).
  apply surjective_pairing.
Qed.

(** The [try] block when the order is not found, or the lookup throws. *)
Lemma processOrder_try_absent (job : Job) (env : Env) (w w1 : World) :
  getById (job_orderId job) w = (Ok None, w1) ->
  processOrder_try job env w
  = (Throw ("Order " +:+ job_orderId job +:+ " not found"), w1).
Proof.
  intros Hget. unfold processOrder_try.
  rewrite (bind_ok _ _ _ None) by (rewrite Hget; reflexivity).
  rewrite Hget. reflexivity.
Qed.

Lemma processOrder_try_lookup_throws (job : Job) (env : Env) (e : string)
    (w w1 : World) :
  getById (job_orderId job) w = (Throw e, w1) ->
  processOrder_try job env w = (Throw e, w1).
Proof.
  intros Hget. unfold processOrder_try.
  rewrite (bind_throw _ _ _ e) by (rewrite Hget; reflexivity).
  rewrite Hget. reflexivity.
Qed.


(** C1, as the code has it.  A job whose (well-formed) order id has no row
    and no cached snapshot makes [processOrder] throw "Order ... not found"
    out of the lookup and run its [catch] block like any other failure: the
    table, the cache and the queue end as they were (the [failed] update
    matches no row, the cache key to delete is not there), but the update
    and the deletion are issued, a [failed] event is broadcast for the id,
    and the error is thrown again to the queue, whose retry policy then
    applies. *)
Theorem processOrder_absent_order (job : Job) (env : Env) (w : World) :
  let oid := job_orderId job in
  let message := ("Order " +:+ oid +:+ " not found")%string in
  uuidRegex_test oid = true ->
  cache w !! cacheKey oid = None ->
  db w !! oid = None ->
  exists w',
    processOrder job env w = (Throw message, w')
    /\ db w' = db w /\ cache w' = cache w /\ queue w' = queue w
    /\ log w'
       = (log w ++
          [RedisGet (cacheKey oid); PgSelect oid;
           PgUpdate oid [set_status failed; set_updated_at_now;
                         set_error_message message;
                         set_retry_count (attemptsMade job)];
           RedisDel (cacheKey oid);
           Broadcast {| su_orderId := oid; su_status := failed;
                        su_timestamp := clock w;
                        su_data := FailedData message (attemptsMade job)
                                     (attemptsMade job <? maxRetries)%nat |}])%list.
Proof.
  cbv zeta. intros Hid Hcache Hrow.
  assert (Hmiss : truthy (redis_reply (cache w !! cacheKey (job_orderId job))) = false)
    by (rewrite Hcache; reflexivity).
  destruct (getById_miss_absent (job_orderId job) w Hmiss) as [_ Hget].
  specialize (Hget Hid Hrow).
  eexists. split.
  { unfold processOrder, try_catch.
    rewrite (processOrder_try_absent job env w _ Hget).
    apply processOrder_catch_run. }
  rewrite broadcastNow_db, broadcastNow_cache, broadcastNow_queue, broadcastNow_log.
  rewrite updateStatus_cache, updateStatus_queue, updateStatus_log,
    updateStatus_clock.
  rewrite updateStatus_db_absent by exact Hrow.
  cbn [emit db cache queue log clock].
  split; [reflexivity|].
  split; [apply delete_id; assumption|].
  split; [reflexivity|].
  rewrite <- !app_assoc. reflexivity.
Qed.


(** *** The two ways a run ends *)

Create Rewrite HintDb world.
#[local] Hint Rewrite broadcastNow_db broadcastNow_cache broadcastNow_queue
  broadcastNow_clock broadcastNow_log updateStatus_cache updateStatus_queue
  updateStatus_clock updateStatus_log : world.

(** The values the router returned play no role in what follows. *)
Ltac forget_router :=
  repeat match goal with
    | |- context [getBestQuote ?a ?b ?c ?d ?e ?f] =>
        generalize (getBestQuote a b c d e f); intro
    end;
  repeat match goal with
    | |- context [executeSwap ?a ?b ?c ?d ?e] =>
        generalize (executeSwap a b c d e); intro
    end.

Ltac observe_log :=
  rewrite ?statusWrites_app, ?broadcasts_app, ?retryCountWrites_app;
  cbn [statusWrites retryCountWrites broadcasts flat_map su_orderId su_status];
  rewrite ?String.eqb_refl, ?statusOf_updates_of, ?retryCountOf_updates_of;
  cbn [app default from_option patch_failed patch_building patch_confirmed
       emptyPatch p_retryCount].

(** A run that returns has found the order and met no fault: it wrote and
    broadcast [routing], [building], [submitted], [confirmed], in this
    order, wrote no retry count, and left the order [confirmed]. *)
Lemma processOrder_ok (job : Job) (env : Env) (w w' : World) :
  processOrder job env w = (Ok tt, w') ->
  let oid := job_orderId job in
  exists l,
    log w' = (log w ++ l)%list
    /\ statusWrites oid l = [routing; building; submitted; confirmed]
    /\ broadcasts oid l = [routing; building; submitted; confirmed]
    /\ retryCountWrites oid l = []
    /\ (forall r, db w !! oid = Some r ->
          exists r', db w' !! oid = Some r' /\ r_status r' = confirmed
                     /\ retry_count r' = retry_count r)
    /\ (forall other, other <> oid -> db w' !! other = db w !! other).
Proof.
  cbv zeta. unfold processOrder, try_catch.
  destruct (getById_frame (job_orderId job) w)
    as (l0 & Hlog & Hst & Hrc & Hbc & Hdb & _ & Hclock).
  destruct (getById (job_orderId job) w) as [[[order|]|e] w1] eqn:Hget;
    cbn [snd] in *.
  - rewrite (processOrder_try_found job env order w w1 Hget).
    destruct (quote_fault env) as [e|];
      [rewrite processOrder_catch_run; discriminate|].
    destruct (swap_fault env) as [e|];
      [rewrite processOrder_catch_run; discriminate|].
    forget_router.
    intros Hrun. apply (f_equal snd) in Hrun. cbn [snd] in Hrun. subst w'.
    eexists. split.
    { autorewrite with world. rewrite Hlog. rewrite <- !app_assoc. reflexivity. }
    observe_log. rewrite Hst, Hbc, Hrc.
    do 3 (split; [reflexivity|]).
    split.
    + intros r Hr.
      repeat first [rewrite broadcastNow_db | rewrite updateStatus_db].
      rewrite Hdb, Hr. cbn [fmap option_fmap option_map].
      eexists. split; [reflexivity|].
      rewrite !sql_set_updates_of. split; reflexivity.
    + intros other Hne.
      repeat first [rewrite broadcastNow_db
                   | rewrite updateStatus_db_other by assumption].
      rewrite Hdb. reflexivity.
  - rewrite (processOrder_try_absent job env w w1 Hget).
    rewrite processOrder_catch_run. discriminate.
  - rewrite (processOrder_try_lookup_throws job env e w w1 Hget).
    rewrite processOrder_catch_run. discriminate.
Qed.


(** A run that throws has gone through the [catch] block: its last write
    is [failed] with the job's attempt counter as retry count, and its last
    broadcast is [failed]. *)
Lemma processOrder_throw (job : Job) (env : Env) (e : string) (w w' : World) :
  processOrder job env w = (Throw e, w') ->
  let oid := job_orderId job in
  exists l,
    log w' = (log w ++ l)%list
    /\ retryCountWrites oid l = [attemptsMade job]
    /\ last (statusWrites oid l) = Some failed
    /\ last (broadcasts oid l) = Some failed
    /\ (forall r, db w !! oid = Some r ->
          exists r', db w' !! oid = Some r' /\ r_status r' = failed
                     /\ retry_count r' = attemptsMade job)
    /\ (forall other, other <> oid -> db w' !! other = db w !! other).
Proof.
  cbv zeta. unfold processOrder, try_catch.
  destruct (getById_frame (job_orderId job) w)
    as (l0 & Hlog & Hst & Hrc & Hbc & Hdb & _ & Hclock).
  assert (Hend : forall (e0 : string) (W : World),
    (@Throw unit e0, W) = (Throw e, w') -> w' = W)
    by (intros e0 W H; apply (f_equal snd) in H; symmetry; exact H).
  destruct (getById (job_orderId job) w) as [[[order|]|e1] w1] eqn:Hget;
    cbn [snd] in *.
  - rewrite (processOrder_try_found job env order w w1 Hget).
    forget_router.
    destruct (quote_fault env) as [e2|]; [|destruct (swap_fault env) as [e2|]];
      [ | |discriminate];
      rewrite processOrder_catch_run; intros Hrun; apply Hend in Hrun; subst w';
      (eexists; split;
       [autorewrite with world; rewrite Hlog; rewrite <- !app_assoc; reflexivity|]);
      observe_log; rewrite Hst, Hbc, Hrc;
      (do 3 (split; [reflexivity|]));
      (split;
       [ intros r Hr;
         repeat first [rewrite broadcastNow_db | rewrite updateStatus_db];
         rewrite Hdb, Hr; cbn [fmap option_fmap option_map];
         eexists; split; [reflexivity|];
         rewrite !sql_set_updates_of; split; reflexivity
       | intros other Hne;
         repeat first [rewrite broadcastNow_db
                      | rewrite updateStatus_db_other by assumption];
         rewrite Hdb; reflexivity ]).
  - rewrite (processOrder_try_absent job env w w1 Hget).
    rewrite processOrder_catch_run. intros Hrun. apply Hend in Hrun. subst w'.
    eexists. split.
    { autorewrite with world. rewrite Hlog. rewrite <- !app_assoc. reflexivity. }
    observe_log. rewrite Hst, Hbc, Hrc.
    do 3 (split; [reflexivity|]).
    split.
    + intros r Hr.
      repeat first [rewrite broadcastNow_db | rewrite updateStatus_db].
      rewrite Hdb, Hr. cbn [fmap option_fmap option_map].
      eexists. split; [reflexivity|].
      rewrite !sql_set_updates_of. split; reflexivity.
    + intros other Hne.
      repeat first [rewrite broadcastNow_db
                   | rewrite updateStatus_db_other by assumption].
      rewrite Hdb. reflexivity.
  - rewrite (processOrder_try_lookup_throws job env e1 w w1 Hget).
    rewrite processOrder_catch_run. intros Hrun. apply Hend in Hrun. subst w'.
    eexists. split.
    { autorewrite with world. rewrite Hlog. rewrite <- !app_assoc. reflexivity. }
    observe_log. rewrite Hst, Hbc, Hrc.
    do 3 (split; [reflexivity|]).
    split.
    + intros r Hr.
      repeat first [rewrite broadcastNow_db | rewrite updateStatus_db].
      rewrite Hdb, Hr. cbn [fmap option_fmap option_map].
      eexists. split; [reflexivity|].
      rewrite !sql_set_updates_of. split; reflexivity.
    + intros other Hne.
      repeat first [rewrite broadcastNow_db
                   | rewrite updateStatus_db_other by assumption].
      rewrite Hdb. reflexivity.
Qed.



(** [create] refuses an id that is already a primary key. *)
Lemma create_taken (newId tin tout : string) (a s : Q) (w : World) (r : Row) :
  db w !! newId = Some r ->
  exists e, create newId tin tout a s w = (Throw e, w).
Proof.
  intros Hr. unfold create, bind, now, pg_insert. cbn [r_id]. rewrite Hr.
  eexists. reflexivity.
Qed.

(** An order is created [pending]; when the processing run that follows
    returns, the statuses written for the order since its creation are
    [pending], [routing], [building], [submitted], [confirmed], the run
    broadcast the last four in the same order, and the order is left
    [confirmed]. *)
Lemma created_order_status_sequence
    (newId tin tout : string) (amt slip : Q) (job : Job) (env : Env)
    (w w1 w2 : World) (o : Order) :
  create newId tin tout amt slip w = (Ok o, w1) ->
  job_orderId job = newId ->
  processOrder job env w1 = (Ok tt, w2) ->
  exists l,
    log w2 = (log w ++ l)%list
    /\ status o = pending
    /\ statusWrites newId l = [pending; routing; building; submitted; confirmed]
    /\ broadcasts newId l = [routing; building; submitted; confirmed]
    /\ permitted (statusWrites newId l) = true
    /\ exists r, db w2 !! newId = Some r /\ r_status r = confirmed.
Proof.
  intros Hcreate Hjob Hrun.
  destruct (db w !! newId) as [r0|] eqn:Hnew.
  { destruct (create_taken newId tin tout amt slip w r0 Hnew) as [e He].
    rewrite He in Hcreate. discriminate. }
  rewrite (create_fresh newId tin tout amt slip w Hnew) in Hcreate.
  apply processOrder_ok in Hrun. rewrite Hjob in Hrun.
  destruct Hrun as (l & Hlog & Hst & Hbc & _ & Hdb & _).
  pose proof (f_equal fst Hcreate) as Ho. cbn [fst] in Ho.
  injection Ho as Ho.
  apply (f_equal snd) in Hcreate. cbn [snd] in Hcreate. subst w1.
  cbn [log db] in Hlog, Hdb.
  eexists. split; [rewrite Hlog, <- app_assoc; reflexivity|].
  split; [rewrite <- Ho; reflexivity|].
  rewrite statusWrites_app, broadcasts_app, Hst, Hbc.
  cbn [statusWrites broadcasts flat_map r_id r_status]. rewrite String.eqb_refl.
  do 3 (split; [reflexivity|]).
  destruct (Hdb _ (lookup_insert_eq _ _ _)) as (r' & Hr' & Hs & _).
  eauto.
Qed.


(** C6, as the code has it.  A submission is accepted and its order
    created [pending]; when the processing run that follows returns, the
    statuses written for the order are exactly [pending], [routing],
    [building], [submitted], [confirmed], in this order, none skipped,
    repeated or out of place; every step is a transition the state machine
    permits; the order is left [confirmed]; and the statuses broadcast are
    the same sequence, in the same order: from [pending] when the
    submission upgraded to a WebSocket (the handler then registers the
    socket and broadcasts [pending]), and from [routing] otherwise (no
    socket is registered then, and [pending] is the status in the HTTP
    reply). *)
Theorem successful_order_status_sequence
    (newId : string) (request : Request) (job : Job) (env : Env)
    (w w1 w2 : World) (reply : Reply) :
  valid (validateOrderRequest (body request)) = true ->
  db w !! newId = None ->
  executeOrder newId request w = (Ok reply, w1) ->
  job_orderId job = newId ->
  processOrder job env w1 = (Ok tt, w2) ->
  exists l,
    log w2 = (log w ++ l)%list
    /\ statusWrites newId l = [pending; routing; building; submitted; confirmed]
    /\ broadcasts newId l
       = ((if upgradeWebsocket request then [pending] else [])
          ++ [routing; building; submitted; confirmed])%list
    /\ permitted (statusWrites newId l) = true
    /\ exists r, db w2 !! newId = Some r /\ r_status r = confirmed.
Proof.
  intros Hv Hnew Hsubmit Hjob Hrun.
  unfold executeOrder in Hsubmit. rewrite Hv in Hsubmit.
  cbn [negb] in Hsubmit.
  unfold try_catch at 1 in Hsubmit. unfold bind at 1 in Hsubmit.
  rewrite (create_fresh _ _ _ _ _ _ Hnew) in Hsubmit.
  apply processOrder_ok in Hrun. rewrite Hjob in Hrun.
  destruct Hrun as (l & Hlog & Hst & Hbc & _ & Hdb & _).
  destruct (upgradeWebsocket request);
    cbv [bind registerConnection broadcastNow now broadcastStatus try_catch
         addOrderToQueue ret emit] in Hsubmit;
    cbn [db cache queue log clock mapRow id r_id] in Hsubmit;
    apply (f_equal snd) in Hsubmit; cbn [snd] in Hsubmit; subst w1;
    cbn [log db] in Hlog, Hdb;
    (eexists; split; [rewrite Hlog, <- !app_assoc; reflexivity|]);
    rewrite !statusWrites_app, !broadcasts_app, Hst, Hbc;
    cbn [statusWrites broadcasts flat_map r_id r_status su_orderId su_status app];
    rewrite String.eqb_refl;
    (do 3 (split; [reflexivity|]));
    destruct (Hdb _ (lookup_insert_eq _ _ _)) as (r' & Hr' & Hs & _);
    eauto.
Qed.

(** *** Redelivery *)




(** ** The cache only ever holds non-empty entries *)

Section CacheEntries.

(** The JSON text of an order is never the empty string. *)
Hypothesis stringify_nonempty : forall o : Order, JSON_stringify o <> ""%string.

Lemma preserves_ret {A} (P : World -> Prop) (a : A) : preserves P (ret a).
Proof. intros w Hw. exact Hw. Qed.

Lemma preserves_throw {A} (P : World -> Prop) (e : string) :
  preserves P (@throw A e).
Proof. intros w Hw. exact Hw. Qed.

Lemma preserves_bind {A B} (P : World -> Prop) (m : M A) (k : A -> M B) :
  preserves P m -> (forall a, preserves P (k a)) -> preserves P (bind m k).
Proof.
  intros Hm Hk w Hw. unfold bind. specialize (Hm w Hw).
  destruct (m w) as [[a|e] w1]; cbn [snd] in *.
  - apply Hk. exact Hm.
  - exact Hm.
Qed.

Lemma preserves_try_catch {A} (P : World -> Prop) (body : M A)
    (handler : string -> M A) :
  preserves P body -> (forall e, preserves P (handler e)) ->
  preserves P (try_catch body handler).
Proof.
  intros Hb Hh w Hw. unfold try_catch. specialize (Hb w Hw).
  destruct (body w) as [[a|e] w1]; cbn [snd] in *.
  - exact Hb.
  - apply Hh. exact Hb.
Qed.

Lemma preserves_await {A} (P : World -> Prop) (fault : option string) (a : A) :
  preserves P (await fault a).
Proof. destruct fault; [apply preserves_throw | apply preserves_ret]. Qed.

Lemma updateStatus_keeps_cache (oid : string) (st : OrderStatus)
    (ad : option PartialOrder) :
  preserves cacheEntriesNonEmpty (updateStatus oid st ad).
Proof.
  intros w Hw. unfold cacheEntriesNonEmpty. rewrite updateStatus_cache.
  apply map_Forall_delete. exact Hw.
Qed.

Lemma broadcastNow_keeps_cache (oid : string) (st : OrderStatus) (d : EventData) :
  preserves cacheEntriesNonEmpty (broadcastNow oid st d).
Proof. intros w Hw. exact Hw. Qed.

Lemma redis_setex_keeps_cache (key : string) (seconds : nat) (o : Order) :
  preserves cacheEntriesNonEmpty (redis_setex key seconds (JSON_stringify o)).
Proof.
  intros w Hw. unfold cacheEntriesNonEmpty. cbn.
  apply map_Forall_insert_2; [apply stringify_nonempty | exact Hw].
Qed.

Lemma getById_keeps_cache (oid : string) :
  preserves cacheEntriesNonEmpty (getById oid).
Proof.
  unfold getById. apply preserves_bind; [intros w Hw; exact Hw|].
  intros cached. destruct (truthy (redis_reply cached)).
  - destruct (JSON_parse _); [apply preserves_ret | apply preserves_throw].
  - destruct (negb (uuidRegex_test oid)); [apply preserves_ret|].
    apply preserves_bind; [intros w Hw; exact Hw|].
    intros [row|]; [|apply preserves_ret].
    apply preserves_bind; [apply redis_setex_keeps_cache|].
    intros _. apply preserves_ret.
Qed.

Lemma create_keeps_cache (newId tin tout : string) (a s : Q) :
  preserves cacheEntriesNonEmpty (create newId tin tout a s).
Proof.
  unfold create. apply preserves_bind; [intros w Hw; exact Hw|]. intros t.
  apply preserves_bind.
  - intros w Hw. unfold pg_insert. destruct (db w !! _); exact Hw.
  - intros row. apply preserves_bind; [apply redis_setex_keeps_cache|].
    intros _. apply preserves_ret.
Qed.

(** Whatever the store and the worker do, a cache whose entries are
    non-empty texts stays so: where the cache "holds an entry", what
    [redis.get] returns is truthy. *)
Lemma processOrder_keeps_cache (job : Job) (env : Env) :
  preserves cacheEntriesNonEmpty (processOrder job env).
Proof.
  unfold processOrder. apply preserves_try_catch.
  - unfold processOrder_try.
    apply preserves_bind; [apply getById_keeps_cache|].
    intros [order|]; [|apply preserves_throw].
    repeat first
      [ apply updateStatus_keeps_cache
      | apply broadcastNow_keeps_cache
      | apply preserves_await
      | apply preserves_bind; [|intros ?]
      | (intros w Hw; exact Hw) ].
  - intros e. unfold processOrder_catch.
    repeat first
      [ apply updateStatus_keeps_cache
      | apply broadcastNow_keeps_cache
      | apply preserves_throw
      | apply preserves_bind; [|intros ?] ].
Qed.

End CacheEntries.

End Properties.

(** * The properties on concrete inputs *)

(** C1, as stated, fails: for a job whose order has no row and no cached
    snapshot, [processOrder] issues a [failed] update, broadcasts a
    [failed] event that announces a retry, and throws the error on to the
    queue. *)
Lemma processOrder_absent_order_counterexample :
  db Demo.emptyWorld !! Demo.orderId = None
  /\ cache Demo.emptyWorld !! cacheKey Demo.orderId = None
  /\ exists w',
       processOrder (codec := Demo.codec) (config := Demo.config)
         Demo.firstDelivery Demo.calm Demo.emptyWorld
       = (Throw "Order 00000000-0000-0000-0000-000000000000 not found", w')
       /\ statusWrites Demo.orderId (log w') = [failed]
       /\ broadcasts Demo.orderId (log w') = [failed]
       /\ last (log w')
          = Some (Broadcast
                    {| su_orderId := Demo.orderId; su_status := failed;
                       su_timestamp := 0;
                       su_data :=
                         FailedData
                           "Order 00000000-0000-0000-0000-000000000000 not found"
                           1 true |}).
Proof.
  split; [reflexivity|]. split; [reflexivity|].
  eexists. split; [vm_compute; reflexivity|].
  split; [reflexivity|]. split; reflexivity.
Qed.

(** The same job, as an instance of the theorem: the stores end as they
    were. *)
Lemma processOrder_absent_order_witness :
  (uuidRegex_test Demo.orderId = true
   /\ cache Demo.emptyWorld !! cacheKey Demo.orderId = None
   /\ db Demo.emptyWorld !! Demo.orderId = None)
  /\ exists w',
       processOrder (codec := Demo.codec) (config := Demo.config)
         Demo.firstDelivery Demo.calm Demo.emptyWorld
       = (Throw "Order 00000000-0000-0000-0000-000000000000 not found", w')
       /\ db w' = db Demo.emptyWorld /\ cache w' = cache Demo.emptyWorld
       /\ queue w' = queue Demo.emptyWorld.
Proof.
  split; [repeat split; reflexivity|].
  destruct (processOrder_absent_order (codec := Demo.codec)
              (config := Demo.config) Demo.firstDelivery Demo.calm
              Demo.emptyWorld eq_refl eq_refl eq_refl)
    as (w' & Hrun & Hdb & Hcache & Hqueue & _).
  exists w'. auto.
Defined.

(** C2, as stated, fails at slippage 1: the request is accepted, and a
    pending order with that slippage is created and enqueued. *)
Lemma slippage_one_is_accepted :
  body_slippage (body Demo.slippageOne) = JsNum 1
  /\ valid (validateOrderRequest (body Demo.slippageOne)) = true
  /\ exists w' row,
       executeOrder (codec := Demo.codec) Demo.orderId Demo.slippageOne
         Demo.emptyWorld
       = (Ok (Reply201 Demo.orderId pending), w')
       /\ db w' !! Demo.orderId = Some row
       /\ r_status row = pending /\ r_slippage row == 1
       /\ queue w' = [Demo.orderId].
Proof.
  split; [reflexivity|]. split; [reflexivity|].
  eexists. eexists. split; [vm_compute; reflexivity|].
  split; [vm_compute; reflexivity|].
  split; [reflexivity|]. split; reflexivity.
Qed.

(** The spec's example submission over a WebSocket, processed without a
    fault: all five statuses are written and broadcast. *)
Lemma successful_order_status_sequence_witness :
  let w1 := snd (executeOrder (codec := Demo.codec) Demo.orderId Demo.submission
                   Demo.emptyWorld) in
  let w2 := snd (processOrder (codec := Demo.codec) (config := Demo.config)
                   Demo.firstDelivery Demo.calm w1) in
  (valid (validateOrderRequest (body Demo.submission)) = true
   /\ db Demo.emptyWorld !! Demo.orderId = None
   /\ fst (processOrder (codec := Demo.codec) (config := Demo.config)
             Demo.firstDelivery Demo.calm w1) = Ok tt)
  /\ exists l,
       log w2 = (log Demo.emptyWorld ++ l)%list
       /\ statusWrites Demo.orderId l
          = [pending; routing; building; submitted; confirmed]
       /\ broadcasts Demo.orderId l
          = [pending; routing; building; submitted; confirmed].
Proof.
  cbv zeta. split; [repeat split; vm_compute; reflexivity|].
  destruct (successful_order_status_sequence (codec := Demo.codec)
              (config := Demo.config) Demo.orderId Demo.submission
              Demo.firstDelivery Demo.calm Demo.emptyWorld
              (snd (executeOrder (codec := Demo.codec) Demo.orderId
                      Demo.submission Demo.emptyWorld))
              (snd (processOrder (codec := Demo.codec) (config := Demo.config)
                      Demo.firstDelivery Demo.calm
                      (snd (executeOrder (codec := Demo.codec) Demo.orderId
                              Demo.submission Demo.emptyWorld))))
              Hijacked)
    as (l & Hlog & Hst & Hbc & _).
  - reflexivity.
  - reflexivity.
  - vm_compute. reflexivity.
  - reflexivity.
  - vm_compute. reflexivity.
  - exists l. split; [exact Hlog|]. split; [exact Hst | exact Hbc].
Defined.

(** C6, as stated, fails for a plain HTTP submission: the order is
    confirmed and passes through the five statuses, but [pending] is not
    broadcast; the broadcasts start at [routing]. *)
Lemma http_submission_does_not_broadcast_pending :
  let submit := executeOrder (codec := Demo.codec) Demo.orderId
                  Demo.httpSubmission Demo.emptyWorld in
  let run := processOrder (codec := Demo.codec) (config := Demo.config)
               Demo.firstDelivery Demo.calm (snd submit) in
  fst submit = Ok (Reply201 Demo.orderId pending)
  /\ fst run = Ok tt
  /\ statusWrites Demo.orderId (log (snd run))
     = [pending; routing; building; submitted; confirmed]
  /\ broadcasts Demo.orderId (log (snd run))
     = [routing; building; submitted; confirmed]
  /\ broadcasts Demo.orderId (log (snd run))
     <> [pending; routing; building; submitted; confirmed].
Proof.
  cbv zeta. split; [vm_compute; reflexivity|]. split; [vm_compute; reflexivity|].
  split; [vm_compute; reflexivity|].
  assert (H : broadcasts Demo.orderId
                (log (snd (processOrder (codec := Demo.codec)
                             (config := Demo.config) Demo.firstDelivery Demo.calm
                             (snd (executeOrder (codec := Demo.codec)
                                     Demo.orderId Demo.httpSubmission
                                     Demo.emptyWorld)))))
              = [routing; building; submitted; confirmed])
    by (vm_compute; reflexivity).
  split; [exact H|]. rewrite H. discriminate.
Qed.


(** A snapshot cached under a key whose id is not a UUID is returned. *)
Lemma getById_hit_skips_validation_witness :
  (cache Demo.cachedOnly !! cacheKey Demo.malformedId
     = Some (Demo.stringify Demo.solUsdc)
   /\ Demo.stringify Demo.solUsdc <> ""%string)
  /\ uuidRegex_test Demo.malformedId = false
  /\ fst (getById (codec := Demo.codec) Demo.malformedId Demo.cachedOnly)
     = Ok (Some Demo.solUsdc).
Proof.
  assert (Hc : cache Demo.cachedOnly !! cacheKey Demo.malformedId
               = Some (Demo.stringify Demo.solUsdc)) by reflexivity.
  assert (Hs : Demo.stringify Demo.solUsdc <> ""%string) by discriminate.
  split; [split; assumption|]. split; [reflexivity|].
  destruct (getById_hit_skips_validation (codec := Demo.codec)
              Demo.malformedId (Demo.stringify Demo.solUsdc) Demo.cachedOnly
              Hc Hs) as (w' & _ & _ & _ & _ & Hmal).
  apply Hmal; reflexivity.
Defined.

(** A [failed] update with an empty error message on a stored order: the
    status and the retry count change, the stored message stays. *)
Lemma updateStatus_writes_only_patched_columns_witness :
  db Demo.stored !! Demo.orderId = Some Demo.storedRow
  /\ exists w' r',
       updateStatus Demo.orderId failed (Some (patch_failed "" 2)) Demo.stored
       = (Ok tt, w')
       /\ db w' !! Demo.orderId = Some r'
       /\ r_status r' = failed /\ retry_count r' = 2%nat
       /\ error_message r' = Some "quote timeout"%string
       /\ token_in r' = "SOL"%string.
Proof.
  assert (Hr : db Demo.stored !! Demo.orderId = Some Demo.storedRow)
    by reflexivity.
  split; [exact Hr|].
  destruct (updateStatus_writes_only_patched_columns Demo.orderId failed
              (Some (patch_failed "" 2)) Demo.stored Demo.storedRow Hr)
    as (w' & r' & Hrun & Hrow & Hst & _ & _ & Hin & _ & _ & _ & _ & _ & _ & _
        & _ & _ & _ & _ & Hcount & Hmsg & _).
  exists w', r'. split; [exact Hrun|]. split; [exact Hrow|].
  split; [exact Hst|]. split; [exact Hcount|].
  split; [apply Hmsg; reflexivity | exact Hin].
Defined.

(** An order that fails once and then succeeds passes through [failed]
    and re-enters [routing]; each step is still a permitted transition. *)
Example retried_order_statuses :
  let w1 := snd (create (codec := Demo.codec) Demo.orderId "SOL" "USDC" 1.5 0.01
                   Demo.emptyWorld) in
  let run := runJob (codec := Demo.codec) (config := Demo.config)
               (fun k => if (k =? 1)%nat then Demo.faulty else Demo.calm)
               Demo.orderId w1 in
  fst (fst run) = JobCompleted /\ snd (fst run) = 2%nat
  /\ statusWrites Demo.orderId (log (snd run))
     = [pending; routing; failed; routing; building; submitted; confirmed]
  /\ permitted (statusWrites Demo.orderId (log (snd run))) = true
  /\ retryCountWrites Demo.orderId (log (snd run)) = [0; 1]%nat.
Proof. vm_compute. repeat split. Qed.

(** The two misses of [getById] on an empty world: the id of the
    repository's test, which is not a UUID, never reaches the database; a
    well-formed id does, and is absent. *)
Example getById_misses :
  getById (codec := Demo.codec) "non-existent-id" Demo.emptyWorld
  = (Ok None, emit (RedisGet "order:non-existent-id") Demo.emptyWorld)
  /\ log (snd (getById (codec := Demo.codec) Demo.orderId Demo.emptyWorld))
     = [RedisGet (cacheKey Demo.orderId); PgSelect Demo.orderId]
  /\ fst (getById (codec := Demo.codec) Demo.orderId Demo.emptyWorld) = Ok None.
Proof. repeat split. Qed.

(** A freshly created order is cached; [updateStatus] removes the entry,
    and [getById] then reads the updated row and caches it again. *)
Example updateStatus_then_getById :
  let w1 := snd (create (codec := Demo.codec) Demo.orderId "SOL" "USDC" 1.5 0.01
                   Demo.emptyWorld) in
  let w2 := snd (updateStatus Demo.orderId routing None w1) in
  let got := getById (codec := Demo.codec) Demo.orderId w2 in
  is_Some (cache w1 !! cacheKey Demo.orderId)
  /\ cache w2 !! cacheKey Demo.orderId = None
  /\ (exists o, fst got = Ok (Some o) /\ status o = routing)
  /\ is_Some (cache (snd got) !! cacheKey Demo.orderId).
Proof.
  cbv zeta. split; [vm_compute; eauto|]. split; [reflexivity|].
  split; [eexists; split; [vm_compute; reflexivity | reflexivity]|].
  vm_compute. eauto.
Qed.

(** * Further properties

    Properties read off the code itself: the arithmetic of the router and
    of the helpers, what a run of the worker keeps and leaves behind, the
    read handlers, and the registry of connections. *)

(** ** The router and the helpers *)

(** X1.  For a draw in [[0,1)], the price Raydium quotes lies between 0.98
    and 1.04 times the base price of the pair and the price Meteora quotes
    between 0.97 and 1.05 times it, the bounds included; for an amount that
    is not negative neither estimated output is negative and, the fee
    taken, neither exceeds amount times price. *)
Theorem quote_prices_within_variance_band
    (tokenIn tokenOut : string) (amount rnd : Q) (t : nat) :
  0 <= rnd < 1 ->
  let base := getBasePrice tokenIn tokenOut in
  let r := getRaydiumQuote tokenIn tokenOut amount rnd t in
  let m := getMeteorQuote tokenIn tokenOut amount rnd t in
  (base * 0.98 <= price r /\ price r <= base * 1.04)
  /\ (base * 0.97 <= price m /\ price m <= base * 1.05)
  /\ (0 <= amount ->
        (0 <= estimatedOutput r /\ estimatedOutput r <= amount * price r)
        /\ (0 <= estimatedOutput m /\ estimatedOutput m <= amount * price m)).
Proof.
  intros [H0 H1]. cbv zeta.
  pose proof (getBasePrice_pos tokenIn tokenOut) as Hb.
  cbn [getRaydiumQuote getMeteorQuote price estimatedOutput].
  unfold applyPriceVariance.
  set (b := getBasePrice tokenIn tokenOut) in *.
  assert (Hx0 : 0 <= b * rnd) by (apply Qmult_le_0_compat; lra).
  assert (Hx1 : b * rnd < b * 1) by (apply Qmult_lt_l; assumption).
  split; [split|split; [split|]].
  - lra.
  - lra.
  - lra.
  - lra.
  - intros Ha.
    assert (HpR : 0 <= amount * (b * (0.98 + rnd * (1.04 - 0.98)))).
    { apply Qmult_le_0_compat; [assumption|].
      apply Qmult_le_0_compat; [lra|].
      assert (0 <= rnd * (1.04 - 0.98)) by (apply Qmult_le_0_compat; lra). lra. }
    assert (HpM : 0 <= amount * (b * (0.97 + rnd * (1.05 - 0.97)))).
    { apply Qmult_le_0_compat; [assumption|].
      apply Qmult_le_0_compat; [lra|].
      assert (0 <= rnd * (1.05 - 0.97)) by (apply Qmult_le_0_compat; lra). lra. }
    set (pR := amount * (b * (0.98 + rnd * (1.04 - 0.98)))) in *.
    set (pM := amount * (b * (0.97 + rnd * (1.05 - 0.97)))) in *.
    split; split; lra.
Qed.


(** X3.  For [minMs <= maxMs] and a draw in [[0,1)], [randomDelay] lies
    between its two bounds, both included. *)
Theorem randomDelay_within_range (minMs maxMs rnd : Q) :
  minMs <= maxMs -> 0 <= rnd < 1 ->
  minMs <= randomDelay minMs maxMs rnd <= maxMs.
Proof.
  intros Hle [H0 H1]. unfold randomDelay.
  assert (0 <= rnd * (maxMs - minMs)) by (apply Qmult_le_0_compat; lra).
  assert (rnd * (maxMs - minMs) <= 1 * (maxMs - minMs))
    by (apply Qmult_le_compat_r; lra).
  lra.
Qed.

Lemma length_append (s t : string) :
  String.length (s +:+ t) = (String.length s + String.length t)%nat.
Proof.
  induction s as [|c s IH]; [reflexivity|].
  change (S (String.length (s +:+ t)) = S (String.length s + String.length t)).
  f_equal. exact IH.
Qed.

Lemma drawnFrom_append (alphabet s t : string) :
  drawnFrom alphabet s -> drawnFrom alphabet t -> drawnFrom alphabet (s +:+ t).
Proof.
  unfold drawnFrom. intros Hs Ht. induction s as [|c s IH]; [exact Ht|].
  change (Forall (fun c => In c (list_ascii_of_string alphabet))
            (c :: list_ascii_of_string (s +:+ t))).
  change (Forall (fun c => In c (list_ascii_of_string alphabet))
            (c :: list_ascii_of_string s)) in Hs.
  inversion Hs; subst. constructor; [assumption|]. apply IH. assumption.
Qed.

(** X4.  The reconnection delay of the Redis client never decreases from
    one attempt to a later one and never exceeds 2000 ms: it is 50 ms per
    attempt up to the fortieth attempt and 2000 ms from there on. *)
Theorem retryStrategy_is_capped_and_monotone (times times' : Q) :
  times <= times' ->
  retryStrategy times <= retryStrategy times'
  /\ retryStrategy times' <= 2000
  /\ (times <= 40 -> retryStrategy times == times * 50)
  /\ (40 <= times -> retryStrategy times == 2000).
Proof.
  intros Hle. unfold retryStrategy. cbv zeta.
  destruct (Math_min_spec (times * 50) 2000) as [[H1 ->]|[H1 ->]];
    destruct (Math_min_spec (times' * 50) 2000) as [[H2 ->]|[H2 ->]];
    repeat split; intros; lra.
Qed.

(** One round of the loop picks a character of the alphabet. *)
Lemma hex_digit_drawn (rnd : Q) :
  0 <= rnd < 1 ->
  let chars := "0123456789abcdef"%string in
  let picked :=
    charAt chars (Math_floor (rnd * inject_Z (Z.of_nat (String.length chars)))) in
  String.length picked = 1%nat /\ drawnFrom chars picked.
Proof.
  intros [H0 H1]. cbv zeta. unfold Math_floor.
  change (inject_Z (Z.of_nat (String.length "0123456789abcdef"))) with (inject_Z 16).
  set (z := Qfloor (rnd * inject_Z 16)).
  assert (Hz : (0 <= z < 16)%Z).
  { split.
    - change 0%Z with (Qfloor 0). apply Qfloor_resp_le.
      apply Qmult_le_0_compat; [assumption|discriminate].
    - rewrite Zlt_Qlt. eapply Qle_lt_trans; [apply Qfloor_le|].
      change (inject_Z 16) with 16. lra. }
  assert (Hcases : (z = 0 \/ z = 1 \/ z = 2 \/ z = 3 \/ z = 4 \/ z = 5 \/ z = 6
           \/ z = 7 \/ z = 8 \/ z = 9 \/ z = 10 \/ z = 11 \/ z = 12 \/ z = 13
           \/ z = 14 \/ z = 15)%Z) by lia.
  unfold drawnFrom.
  repeat (destruct Hcases as [->|Hcases]);
    try subst z; try rewrite Hcases;
    (split; [reflexivity|]); cbn;
    (constructor; [repeat (first [left; reflexivity | right]) | constructor]).
Qed.

Lemma generateMockTxHash_loop_spec (draws : nat -> Q) (n : nat) :
  forall (i : nat) (hash : string),
    (forall j, (i <= j < i + n)%nat -> 0 <= draws j < 1) ->
    let chars := "0123456789abcdef"%string in
    String.length (generateMockTxHash_loop chars draws n i hash)
    = (String.length hash + n)%nat
    /\ (drawnFrom chars hash ->
        drawnFrom chars (generateMockTxHash_loop chars draws n i hash)).
Proof.
  induction n as [|n IH]; intros i hash Hd; cbv zeta.
  - cbn [generateMockTxHash_loop]. split; [lia|tauto].
  - cbn [generateMockTxHash_loop].
    destruct (hex_digit_drawn (draws i)) as [Hlen Hin]; [apply Hd; lia|].
    destruct (IH (S i)
                (hash +:+ charAt "0123456789abcdef"
                   (Math_floor (draws i * inject_Z (Z.of_nat
                      (String.length "0123456789abcdef"))))))
      as [IHlen IHin]; [intros j Hj; apply Hd; lia|].
    split.
    + rewrite IHlen, length_append, Hlen. lia.
    + intros Hh. apply IHin. apply drawnFrom_append; assumption.
Qed.

(** X5.  With draws in [[0,1)], [generateMockTxHash] returns 64 characters,
    each one of [0123456789abcdef]; the text is therefore truthy, so that
    [updateStatus] writes it when the order is confirmed. *)
Theorem generateMockTxHash_is_64_hex_characters (draws : nat -> Q) :
  (forall i, (i < 64)%nat -> 0 <= draws i < 1) ->
  let hash := generateMockTxHash draws in
  String.length hash = 64%nat
  /\ drawnFrom "0123456789abcdef" hash
  /\ truthyStr (Some hash) = true.
Proof.
  intros Hd. cbv zeta. unfold generateMockTxHash.
  destruct (generateMockTxHash_loop_spec draws 64 0 ""%string) as [Hlen Hin];
    [intros j Hj; apply Hd; lia|].
  cbv zeta in Hlen, Hin.
  split; [exact Hlen|].
  split; [apply Hin; constructor|].
  cbn [truthyStr truthy].
  destruct (generateMockTxHash_loop _ draws 64 0 "") eqn:E;
    [discriminate Hlen | reflexivity].
Qed.


(** ** The worker and the store *)

Section MoreProperties.

Context {codec : JsonCodec} {config : QueueConfig}.

(** One syntactic step through a computation of the worker: [upd] and [bc]
    are the facts about [updateStatus] and [broadcastNow]. *)
Ltac walk upd bc :=
  repeat match goal with
    | |- preserves _ (bind _ _) => apply preserves_bind; [|intros ?]
    | |- preserves _ (updateStatus _ _ _) => apply upd
    | |- preserves _ (broadcastNow _ _ _) => apply bc
    | |- preserves _ (await _ _) => apply preserves_await
    | |- preserves _ (throw _) => apply preserves_throw
    | |- preserves _ now => let H := fresh in intros ? H; exact H
    | |- preserves _ _ => progress cbv beta zeta
    end.

Lemma assign_immutableColumns (t : nat) (a : Assignment) (r : Row) :
  immutableColumns (assign t a r) = immutableColumns r.
Proof. destruct a; reflexivity. Qed.

Lemma sql_set_immutableColumns (t : nat) (updates : list Assignment) (r : Row) :
  immutableColumns (sql_set t updates r) = immutableColumns r.
Proof.
  unfold sql_set. revert r.
  induction updates as [|a updates IH]; intros r; [reflexivity|].
  cbn [fold_left]. rewrite IH. apply assign_immutableColumns.
Qed.

Lemma updateStatus_sameOrders (w0 : World) (oid : string) (st : OrderStatus)
    (ad : option PartialOrder) :
  preserves (sameOrders w0) (updateStatus oid st ad).
Proof.
  intros w Hw k. rewrite <- (Hw k).
  destruct (decide (k = oid)) as [->|Hne].
  - rewrite updateStatus_db. destruct (db w !! oid) as [r|]; [|reflexivity].
    cbn [fmap option_fmap option_map]. rewrite sql_set_immutableColumns. reflexivity.
  - rewrite updateStatus_db_other by assumption. reflexivity.
Qed.

Lemma broadcastNow_sameOrders (w0 : World) (oid : string) (st : OrderStatus)
    (d : EventData) :
  preserves (sameOrders w0) (broadcastNow oid st d).
Proof. intros w Hw. exact Hw. Qed.

Lemma getById_sameOrders (w0 : World) (oid : string) :
  preserves (sameOrders w0) (getById oid).
Proof.
  intros w Hw k.
  destruct (getById_frame oid w) as (_ & _ & _ & _ & _ & Hdb & _).
  rewrite Hdb. apply Hw.
Qed.

(** A run of the worker keeps the orders and their immutable columns. *)
Lemma processOrder_sameOrders (job : Job) (env : Env) (w : World) :
  sameOrders w (snd (processOrder job env w)).
Proof.
  assert (Hp : preserves (sameOrders w) (processOrder job env)).
  { unfold processOrder. apply preserves_try_catch.
    - unfold processOrder_try.
      apply preserves_bind; [apply getById_sameOrders|].
      intros [order|]; [|apply preserves_throw].
      walk updateStatus_sameOrders broadcastNow_sameOrders.
    - intros e. unfold processOrder_catch.
      walk updateStatus_sameOrders broadcastNow_sameOrders. }
  apply Hp. intros k. reflexivity.
Qed.

(** X6.  Whatever a run of [processOrder] does, and however it ends, the
    table holds the same orders afterwards: no row is created or deleted,
    and no row's id, tokens, amount, slippage or creation time changes.
    The run adds no job to the queue and does not move the clock. *)
Theorem processOrder_keeps_orders_and_immutable_columns
    (job : Job) (env : Env) (w : World) :
  let w' := snd (processOrder job env w) in
  (forall k, immutableColumns <$> (db w' !! k) = immutableColumns <$> (db w !! k))
  /\ (forall k, is_Some (db w' !! k) <-> is_Some (db w !! k))
  /\ queue w' = queue w /\ clock w' = clock w.
Proof.
  cbv zeta.
  pose proof (processOrder_sameOrders job env w) as H.
  split; [exact H|].
  split.
  { intros k. specialize (H k).
    rewrite <- !fmap_is_Some with (f := immutableColumns).
    rewrite H. reflexivity. }
  assert (Hp : preserves (fun w1 => queue w1 = queue w /\ clock w1 = clock w)
                 (processOrder job env)).
  { assert (Hu : forall oid st ad,
               preserves (fun w1 => queue w1 = queue w /\ clock w1 = clock w)
                 (updateStatus oid st ad)).
    { intros oid st ad w1 Hw1. rewrite updateStatus_queue, updateStatus_clock.
      exact Hw1. }
    assert (Hb : forall oid st d,
               preserves (fun w1 => queue w1 = queue w /\ clock w1 = clock w)
                 (broadcastNow oid st d)).
    { intros oid st d w1 Hw1. exact Hw1. }
    unfold processOrder. apply preserves_try_catch.
    - unfold processOrder_try.
      apply preserves_bind.
      { intros w1 Hw1.
        destruct (getById_frame (job_orderId job) w1)
          as (_ & _ & _ & _ & _ & _ & Hq & Hc).
        rewrite Hq, Hc. exact Hw1. }
      intros [order|]; [|apply preserves_throw].
      walk Hu Hb.
    - intros e. unfold processOrder_catch.
      walk Hu Hb. }
  apply Hp. split; reflexivity.
Qed.

Lemma getById_cache_other (oid : string) (w : World) (k : string) :
  k <> cacheKey oid -> cache (snd (getById oid w)) !! k = cache w !! k.
Proof.
  intros Hne. unfold getById, bind, redis_get.
  destruct (truthy (redis_reply (cache w !! cacheKey oid))).
  - destruct (JSON_parse _); reflexivity.
  - destruct (negb (uuidRegex_test oid)); [reflexivity|].
    unfold pg_select. cbn [emit db].
    destruct (db w !! oid) as [row|]; [|reflexivity].
    cbn. apply lookup_insert_ne. congruence.
Qed.

(** However a run ends, its last two steps are an [updateStatus] of the
    job's order and a broadcast. *)
Lemma processOrder_last_step (job : Job) (env : Env) (w : World) :
  exists wX st ad d,
    snd (processOrder job env w)
    = snd (broadcastNow (job_orderId job) st d
             (snd (updateStatus (job_orderId job) st ad wX))).
Proof.
  unfold processOrder, try_catch.
  destruct (getById (job_orderId job) w) as [[[order|]|e1] w1] eqn:Hget.
  - rewrite (processOrder_try_found job env order w w1 Hget).
    destruct (quote_fault env) as [e2|];
      [rewrite processOrder_catch_run; cbn [snd]; eauto|].
    destruct (swap_fault env) as [e2|];
      [rewrite processOrder_catch_run; cbn [snd]; eauto|].
    cbn [snd]. eauto.
  - rewrite (processOrder_try_absent job env w w1 Hget).
    rewrite processOrder_catch_run. cbn [snd]. eauto.
  - rewrite (processOrder_try_lookup_throws job env e1 w w1 Hget).
    rewrite processOrder_catch_run. cbn [snd]. eauto.
Qed.

(** X7.  For a job whose order id has the form of a UUID, which is what
    the table takes as a key: however a run of [processOrder] ends, the
    cache holds no entry for the job's order afterwards, so the next read of
    that order goes to the table; every other cache entry is as before. *)
Theorem processOrder_leaves_no_cache_entry (job : Job) (env : Env) (w : World) :
  uuidRegex_test (job_orderId job) = true ->
  let w' := snd (processOrder job env w) in
  cache w' !! cacheKey (job_orderId job) = None
  /\ (forall k, k <> cacheKey (job_orderId job) -> cache w' !! k = cache w !! k).
Proof.
  intros _. cbv zeta. split.
  - destruct (processOrder_last_step job env w) as (wX & st & ad & d & ->).
    rewrite broadcastNow_cache, updateStatus_cache. apply lookup_delete_eq.
  - set (key := cacheKey (job_orderId job)).
    assert (Hp : preserves (sameCacheExcept key w) (processOrder job env)).
    { assert (Hu : forall st ad,
                 preserves (sameCacheExcept key w)
                   (updateStatus (job_orderId job) st ad)).
      { intros st ad w1 Hw1 k Hk. rewrite updateStatus_cache.
        rewrite lookup_delete_ne by (fold key; congruence). apply Hw1, Hk. }
      assert (Hb : forall st d,
                 preserves (sameCacheExcept key w)
                   (broadcastNow (job_orderId job) st d)).
      { intros st d w1 Hw1. exact Hw1. }
      unfold processOrder. apply preserves_try_catch.
      - unfold processOrder_try.
        apply preserves_bind.
        { intros w1 Hw1 k Hk. rewrite getById_cache_other by exact Hk.
          apply Hw1, Hk. }
        intros [order|]; [|apply preserves_throw].
        walk Hu Hb.
      - intros e. unfold processOrder_catch.
        walk Hu Hb. }
    apply Hp. intros k _. reflexivity.
Qed.

Create Rewrite HintDb frame.
#[local] Hint Rewrite broadcastNow_db broadcastNow_cache broadcastNow_queue
  broadcastNow_clock broadcastNow_log updateStatus_cache updateStatus_queue
  updateStatus_clock updateStatus_log : frame.

(** The row [updateStatus] leaves behind, one column at a time. *)
Lemma column_status t st ad r :
  r_status (sql_set t (updates_of st ad) r) = st.
Proof. rewrite sql_set_updates_of. reflexivity. Qed.

Lemma column_selected_dex t st ad r :
  selected_dex (sql_set t (updates_of st ad) r)
  = match p_selectedDex (default emptyPatch ad) with
    | Some d => Some d
    | None => selected_dex r
    end.
Proof. rewrite sql_set_updates_of. reflexivity. Qed.

Lemma column_raydium_quote t st ad r :
  raydium_quote (sql_set t (updates_of st ad) r)
  = if truthy (p_raydiumQuote (default emptyPatch ad))
    then Some (p_raydiumQuote (default emptyPatch ad)) else raydium_quote r.
Proof. rewrite sql_set_updates_of. reflexivity. Qed.

Lemma column_meteora_quote t st ad r :
  meteora_quote (sql_set t (updates_of st ad) r)
  = if truthy (p_meteoraQuote (default emptyPatch ad))
    then Some (p_meteoraQuote (default emptyPatch ad)) else meteora_quote r.
Proof. rewrite sql_set_updates_of. reflexivity. Qed.

Lemma column_executed_price t st ad r :
  executed_price (sql_set t (updates_of st ad) r)
  = match p_executedPrice (default emptyPatch ad) with
    | Some q => Some q
    | None => executed_price r
    end.
Proof. rewrite sql_set_updates_of. reflexivity. Qed.

Lemma column_amount_out t st ad r :
  amount_out (sql_set t (updates_of st ad) r)
  = match p_amountOut (default emptyPatch ad) with
    | Some q => Some q
    | None => amount_out r
    end.
Proof. rewrite sql_set_updates_of. reflexivity. Qed.

Lemma column_tx_hash t st ad r :
  tx_hash (sql_set t (updates_of st ad) r)
  = if truthyStr (p_txHash (default emptyPatch ad))
    then p_txHash (default emptyPatch ad) else tx_hash r.
Proof. rewrite sql_set_updates_of. reflexivity. Qed.

Lemma column_error_message t st ad r :
  error_message (sql_set t (updates_of st ad) r)
  = if truthyStr (p_errorMessage (default emptyPatch ad))
    then p_errorMessage (default emptyPatch ad) else error_message r.
Proof. rewrite sql_set_updates_of. reflexivity. Qed.

Lemma column_retry_count t st ad r :
  retry_count (sql_set t (updates_of st ad) r)
  = default (retry_count r) (p_retryCount (default emptyPatch ad)).
Proof. rewrite sql_set_updates_of. reflexivity. Qed.

Create Rewrite HintDb columns.
#[local] Hint Rewrite column_status column_selected_dex column_raydium_quote
  column_meteora_quote column_executed_price column_amount_out column_tx_hash
  column_error_message column_retry_count : columns.

Ltac read_columns :=
  autorewrite with columns;
  cbn [default from_option patch_building patch_confirmed patch_failed emptyPatch
       p_selectedDex p_raydiumQuote p_meteoraQuote p_executedPrice
       p_amountOut p_txHash p_errorMessage p_retryCount truthyStr truthy
       quoteToJs];
  unfold Datatypes.id;
  cbn [patch_building patch_confirmed patch_failed emptyPatch
       p_selectedDex p_raydiumQuote p_meteoraQuote p_executedPrice
       p_amountOut p_txHash p_errorMessage p_retryCount truthyStr truthy
       quoteToJs].

(** X8.  A run of [processOrder] that returns, on a stored order that it
    has read, with a swap whose values fit their columns, leaves the row
    [confirmed] with the venue of the best quote, both quotes, an executed
    price and an output; the hash is stored unless it is the empty text.
    What the table keeps of the price and the output is left open (it rounds
    them); the run's last effect is the [confirmed] broadcast, which carries
    the swap's hash, executed price and output and the selected venue.  The
    run does not clear what an earlier failed attempt left: the error
    message and the retry count stay as they were. *)
Theorem confirmed_order_records_its_settlement
    (job : Job) (env : Env) (w w' : World) (r : Row) (order : Order) :
  let oid := job_orderId job in
  let quotes := getBestQuote (tokenIn order) (tokenOut order) (amount order)
                  (rand_raydium env) (rand_meteora env) (clock w) in
  let selected := dex (bestQuote quotes) in
  let swap := executeSwap
                {| od_orderId := oid; od_tokenIn := tokenIn order;
                   od_tokenOut := tokenOut order; od_amount := amount order;
                   od_slippage := slippage order |}
                selected (rand_slippage env) (mockTxHash env) (clock w) in
  processOrder job env w = (Ok tt, w') ->
  db w !! oid = Some r ->
  fst (getById oid w) = Ok (Some order) ->
  fitsColumns swap = true ->
  exists r' : Row,
    db w' !! oid = Some r'
    /\ r_status r' = confirmed
    /\ selected_dex r' = Some selected
    /\ raydium_quote r' = Some (quoteToJs (bq_raydiumQuote quotes))
    /\ meteora_quote r' = Some (quoteToJs (bq_meteoraQuote quotes))
    /\ is_Some (executed_price r')
    /\ is_Some (amount_out r')
    /\ tx_hash r' = (if String.eqb (mockTxHash env) "" then tx_hash r
                     else Some (mockTxHash env))
    /\ error_message r' = error_message r
    /\ retry_count r' = retry_count r
    /\ last (log w')
       = Some (Broadcast
                 {| su_orderId := oid; su_status := confirmed;
                    su_timestamp := clock w;
                    su_data := ConfirmedData (mockTxHash env)
                                 (sr_executedPrice swap) (sr_amountOut swap)
                                 selected |}).
Proof.
  cbv zeta. intros Hrun Hr Hord _. revert Hrun.
  unfold processOrder, try_catch.
  destruct (getById_frame (job_orderId job) w)
    as (_ & _ & _ & _ & _ & Hdb & _ & Hclock).
  destruct (getById (job_orderId job) w) as [[[order0|]|e] w1] eqn:Hget;
    cbn [snd fst] in *; try discriminate Hord.
  assert (order0 = order) by congruence. subst order0. clear Hord.
  rewrite (processOrder_try_found job env order w w1 Hget).
  destruct (quote_fault env) as [e|];
    [rewrite processOrder_catch_run; discriminate|].
  destruct (swap_fault env) as [e|];
    [rewrite processOrder_catch_run; discriminate|].
  autorewrite with frame. rewrite Hclock.
  intros Hrun. apply (f_equal snd) in Hrun. cbn [snd] in Hrun. subst w'.
  remember (getBestQuote (tokenIn order) (tokenOut order) (amount order)
              (rand_raydium env) (rand_meteora env) (clock w)) as quotes eqn:Eq.
  remember (executeSwap
              {| od_orderId := job_orderId job; od_tokenIn := tokenIn order;
                 od_tokenOut := tokenOut order; od_amount := amount order;
                 od_slippage := slippage order |}
              (dex (bestQuote quotes)) (rand_slippage env) (mockTxHash env)
              (clock w)) as swap eqn:Es.
  eexists.
  split.
  { repeat first [rewrite broadcastNow_db | rewrite updateStatus_db].
    rewrite Hdb, Hr. cbn [fmap option_fmap option_map]. reflexivity. }
  split; [read_columns; reflexivity|].
  split; [read_columns; reflexivity|].
  split; [read_columns; reflexivity|].
  split; [read_columns; reflexivity|].
  split; [read_columns; eexists; reflexivity|].
  split; [read_columns; eexists; reflexivity|].
  split.
  { read_columns. rewrite Es. cbn [executeSwap sr_txHash].
    destruct (String.eqb (mockTxHash env) ""); reflexivity. }
  split; [read_columns; reflexivity|].
  split; [read_columns; reflexivity|].
  rewrite broadcastNow_log. autorewrite with frame. rewrite Hclock.
  rewrite last_snoc. rewrite Es. reflexivity.
Qed.

(** X9.  A run of [processOrder] that throws, on a stored order, leaves the
    row [failed] with the job's attempt counter as retry count and with the
    very message it re-throws (an empty message leaves the stored one);
    its last effect is the [failed] broadcast carrying that message, the
    counter and [willRetry]; it has written no executed price, no output
    and no hash. *)
Theorem failed_run_records_the_error_it_rethrows
    (job : Job) (env : Env) (e : string) (w w' : World) (r : Row) :
  let oid := job_orderId job in
  processOrder job env w = (Throw e, w') ->
  db w !! oid = Some r ->
  exists r' : Row,
    db w' !! oid = Some r'
    /\ r_status r' = failed
    /\ retry_count r' = attemptsMade job
    /\ error_message r' = (if String.eqb e "" then error_message r else Some e)
    /\ executed_price r' = executed_price r
    /\ amount_out r' = amount_out r
    /\ tx_hash r' = tx_hash r
    /\ last (log w')
       = Some (Broadcast
                 {| su_orderId := oid; su_status := failed;
                    su_timestamp := clock w;
                    su_data := FailedData e (attemptsMade job)
                                 (attemptsMade job <? maxRetries)%nat |}).
Proof.
  cbv zeta. intros Hrun Hr. revert Hrun.
  unfold processOrder, try_catch.
  destruct (getById_frame (job_orderId job) w)
    as (_ & _ & _ & _ & _ & Hdb & _ & Hclock).
  assert (Hend : forall (e0 : string) (W : World),
    (@Throw unit e0, W) = (Throw e, w') -> e0 = e /\ w' = W).
  { intros e0 W H. split; [congruence|].
    apply (f_equal snd) in H; symmetry; exact H. }
  assert (Hfinish : forall e0 wX,
    clock wX = clock w ->
    (exists rX, db wX !! job_orderId job = Some rX
                /\ error_message rX = error_message r
                /\ executed_price rX = executed_price r
                /\ amount_out rX = amount_out r /\ tx_hash rX = tx_hash r) ->
    processOrder_catch job e0 wX = (Throw e, w') ->
    exists r' : Row,
      db w' !! job_orderId job = Some r'
      /\ r_status r' = failed
      /\ retry_count r' = attemptsMade job
      /\ error_message r' = (if String.eqb e "" then error_message r else Some e)
      /\ executed_price r' = executed_price r
      /\ amount_out r' = amount_out r
      /\ tx_hash r' = tx_hash r
      /\ last (log w')
         = Some (Broadcast
                   {| su_orderId := job_orderId job; su_status := failed;
                      su_timestamp := clock w;
                      su_data := FailedData e (attemptsMade job)
                                   (attemptsMade job <? maxRetries)%nat |})).
  { intros e0 wX HcX (rX & HrX & Em & Ep & Ea & Eh).
    rewrite processOrder_catch_run. intros Hrun.
    apply Hend in Hrun as [-> ->].
    eexists. split.
    { rewrite broadcastNow_db, updateStatus_db, HrX. reflexivity. }
    split; [read_columns; reflexivity|].
    split; [read_columns; reflexivity|].
    split; [read_columns; destruct (String.eqb e ""); [exact Em|reflexivity]|].
    split; [read_columns; exact Ep|].
    split; [read_columns; exact Ea|].
    split; [read_columns; exact Eh|].
    rewrite broadcastNow_log, updateStatus_clock, HcX.
    rewrite last_snoc. reflexivity. }
  destruct (getById (job_orderId job) w) as [[[order|]|e1] w1] eqn:Hget;
    cbn [snd] in *.
  - rewrite (processOrder_try_found job env order w w1 Hget).
    destruct (quote_fault env) as [e2|]; [|destruct (swap_fault env) as [e2|]];
      [ | |discriminate].
    + apply Hfinish.
      * autorewrite with frame. exact Hclock.
      * eexists. split.
        { repeat first [rewrite broadcastNow_db | rewrite updateStatus_db].
          rewrite Hdb, Hr. reflexivity. }
        repeat split; read_columns; reflexivity.
    + generalize (getBestQuote (tokenIn order) (tokenOut order) (amount order)
                    (rand_raydium env) (rand_meteora env)). intros gq.
      apply Hfinish.
      * autorewrite with frame. exact Hclock.
      * eexists. split.
        { repeat first [rewrite broadcastNow_db | rewrite updateStatus_db].
          rewrite Hdb, Hr. reflexivity. }
        repeat split; read_columns; reflexivity.
  - rewrite (processOrder_try_absent job env w w1 Hget).
    apply Hfinish; [exact Hclock|].
    exists r. rewrite Hdb. repeat split; [exact Hr|..]; reflexivity.
  - rewrite (processOrder_try_lookup_throws job env e1 w w1 Hget).
    apply Hfinish; [exact Hclock|].
    exists r. rewrite Hdb. repeat split; [exact Hr|..]; reflexivity.
Qed.

(** X10.  [create] with an unused id returns the pending order and caches
    its JSON text; a [getById] that follows parses that text and returns the
    same order (where the codec reads back what it wrote), with one cache
    lookup and no statement on the table. *)
Theorem create_then_getById_reads_the_cached_snapshot
    (newId tin tout : string) (a sl : Q) (w : World) :
  db w !! newId = None ->
  let order := mapRow {| r_id := newId; token_in := tin; token_out := tout;
                         r_amount := a; r_slippage := sl; r_status := pending;
                         selected_dex := None; raydium_quote := None;
                         meteora_quote := None; executed_price := None;
                         amount_out := None; tx_hash := None;
                         error_message := None; retry_count := 0;
                         created_at := clock w; updated_at := clock w |} in
  JSON_stringify order <> ""%string ->
  JSON_parse (JSON_stringify order) = Ok order ->
  exists w1,
    create newId tin tout a sl w = (Ok order, w1)
    /\ getById newId w1 = (Ok (Some order), emit (RedisGet (cacheKey newId)) w1).
Proof.
  intros Hnew order Hne Hparse.
  eexists. split; [apply create_fresh; exact Hnew|].
  rewrite (getById_hit newId (JSON_stringify order)).
  - fold order. rewrite Hparse. reflexivity.
  - cbn [cache]. apply lookup_insert_eq.
  - exact Hne.
Qed.

(** X11.  When the insert of a valid submission fails (the id is already a
    primary key), [executeOrder] answers 500 and leaves the world as it was:
    the stored order is not overwritten, nothing is cached, enqueued or
    broadcast. *)
Theorem executeOrder_answers_500_when_the_insert_fails
    (newId : string) (request : Request) (w : World) (r : Row) :
  valid (validateOrderRequest (body request)) = true ->
  db w !! newId = Some r ->
  executeOrder newId request w = (Ok Reply500, w).
Proof.
  intros Hv Hr. unfold executeOrder. rewrite Hv. cbn [negb].
  unfold try_catch, bind at 1.
  destruct (create_taken newId (asString (body_tokenIn (body request)))
              (asString (body_tokenOut (body request)))
              (asNumber (body_amount (body request)))
              (asNumber (body_slippage (body request))) w r Hr) as [e He].
  rewrite He. reflexivity.
Qed.

End MoreProperties.

(** ** The properties above, on concrete inputs *)

(** A quote for 1.5 SOL with a draw of one half. *)
Lemma quote_prices_within_variance_band_witness :
  0 <= 0.5 < 1
  /\ getBasePrice "SOL" "USDC" * 0.98
     <= price (getRaydiumQuote "SOL" "USDC" 1.5 0.5 0)
  /\ price (getRaydiumQuote "SOL" "USDC" 1.5 0.5 0)
     <= getBasePrice "SOL" "USDC" * 1.04
  /\ getBasePrice "SOL" "USDC" * 0.97
     <= price (getMeteorQuote "SOL" "USDC" 1.5 0.5 0)
  /\ price (getMeteorQuote "SOL" "USDC" 1.5 0.5 0)
     <= getBasePrice "SOL" "USDC" * 1.05.
Proof.
  assert (H : 0 <= 0.5 < 1) by (split; [discriminate | reflexivity]).
  split; [exact H|].
  destruct (quote_prices_within_variance_band "SOL" "USDC" 1.5 0.5 0%nat H)
    as ((A & B) & (C & D) & _).
  split; [exact A|]. split; [exact B|]. split; [exact C | exact D].
Defined.


(** The execution delay of the default configuration: 2500 ms, give or
    take 500. *)
Lemma randomDelay_within_range_witness :
  (2000 <= 3000 /\ 0 <= 0.25 < 1)
  /\ 2000 <= randomDelay 2000 3000 0.25 <= 3000.
Proof.
  assert (Hle : 2000 <= 3000) by discriminate.
  assert (Hr : 0 <= 0.25 < 1) by (split; [discriminate | reflexivity]).
  split; [split; [exact Hle | exact Hr]|].
  exact (randomDelay_within_range 2000 3000 0.25 Hle Hr).
Defined.

(** The third and the hundredth reconnection attempt. *)
Lemma retryStrategy_is_capped_and_monotone_witness :
  3 <= 100
  /\ retryStrategy 3 <= retryStrategy 100 /\ retryStrategy 100 <= 2000
  /\ (3 <= 40 -> retryStrategy 3 == 3 * 50)
  /\ (40 <= 3 -> retryStrategy 3 == 2000).
Proof.
  assert (H1 : 3 <= 100) by discriminate.
  split; [exact H1|].
  exact (retryStrategy_is_capped_and_monotone 3 100 H1).
Defined.

(** Sixty-four draws of one half give sixty-four times the digit 8. *)
Lemma generateMockTxHash_is_64_hex_characters_witness :
  (forall i, (i < 64)%nat -> 0 <= (fun _ : nat => 0.5) i < 1)
  /\ String.length (generateMockTxHash (fun _ => 0.5)) = 64%nat
  /\ drawnFrom "0123456789abcdef" (generateMockTxHash (fun _ => 0.5))
  /\ truthyStr (Some (generateMockTxHash (fun _ => 0.5))) = true.
Proof.
  assert (H : forall i, (i < 64)%nat -> 0 <= (fun _ : nat => 0.5) i < 1)
    by (intros i _; split; [discriminate | reflexivity]).
  split; [exact H|].
  exact (generateMockTxHash_is_64_hex_characters (fun _ => 0.5) H).
Defined.

(** The stored order of the examples, delivered once without a fault. *)
Lemma confirmed_order_records_its_settlement_witness :
  let run := processOrder (codec := Demo.codec) (config := Demo.config)
               Demo.firstDelivery Demo.calm Demo.stored in
  let swap := executeSwap
                {| od_orderId := Demo.orderId; od_tokenIn := "SOL";
                   od_tokenOut := "USDC"; od_amount := 1.5;
                   od_slippage := 0.01 |}
                raydium 0.5 "5f2c" 5 in
  (run = (Ok tt, snd run)
   /\ db Demo.stored !! Demo.orderId = Some Demo.storedRow
   /\ fst (getById (codec := Demo.codec) Demo.orderId Demo.stored)
      = Ok (Some (mapRow Demo.storedRow))
   /\ fitsColumns swap = true)
  /\ exists r',
       db (snd run) !! Demo.orderId = Some r'
       /\ r_status r' = confirmed
       /\ selected_dex r' = Some raydium
       /\ tx_hash r' = Some "5f2c"%string
       /\ error_message r' = Some "quote timeout"%string.
Proof.
  cbv zeta.
  assert (Hrun : processOrder (codec := Demo.codec) (config := Demo.config)
                   Demo.firstDelivery Demo.calm Demo.stored
                 = (Ok tt, snd (processOrder (codec := Demo.codec)
                                  (config := Demo.config) Demo.firstDelivery
                                  Demo.calm Demo.stored)))
    by (vm_compute; reflexivity).
  assert (Hrow : db Demo.stored !! Demo.orderId = Some Demo.storedRow)
    by reflexivity.
  assert (Hord : fst (getById (codec := Demo.codec) Demo.orderId Demo.stored)
                 = Ok (Some (mapRow Demo.storedRow)))
    by (vm_compute; reflexivity).
  assert (Hfit : fitsColumns
                   (executeSwap
                      {| od_orderId := Demo.orderId; od_tokenIn := "SOL";
                         od_tokenOut := "USDC"; od_amount := 1.5;
                         od_slippage := 0.01 |}
                      raydium 0.5 "5f2c" 5) = true)
    by (vm_compute; reflexivity).
  split; [split; [exact Hrun | split; [exact Hrow | split; [exact Hord | exact Hfit]]]|].
  destruct (confirmed_order_records_its_settlement (codec := Demo.codec)
              (config := Demo.config) Demo.firstDelivery Demo.calm Demo.stored
              _ Demo.storedRow (mapRow Demo.storedRow) Hrun Hrow Hord Hfit)
    as (r' & Hr' & Hst & Hsel & _ & _ & _ & _ & Hh & Hm & _).
  exists r'. split; [exact Hr'|]. split; [exact Hst|].
  split; [exact Hsel|]. split; [exact Hh | exact Hm].
Defined.

(** A job for the stored order of the examples: its id is a UUID, and the
    run leaves nothing under its cache key. *)
Lemma processOrder_leaves_no_cache_entry_witness :
  uuidRegex_test (job_orderId Demo.firstDelivery) = true
  /\ cache (snd (processOrder (codec := Demo.codec) (config := Demo.config)
                   Demo.firstDelivery Demo.calm Demo.stored))
       !! cacheKey Demo.orderId = None.
Proof.
  assert (H : uuidRegex_test (job_orderId Demo.firstDelivery) = true)
    by (vm_compute; reflexivity).
  split; [exact H|].
  exact (proj1 (processOrder_leaves_no_cache_entry (codec := Demo.codec)
                  (config := Demo.config) Demo.firstDelivery Demo.calm
                  Demo.stored H)).
Defined.

(** The stored order of the examples, delivered once with a quote fault. *)
Lemma failed_run_records_the_error_it_rethrows_witness :
  let run := processOrder (codec := Demo.codec) (config := Demo.config)
               Demo.firstDelivery Demo.faulty Demo.stored in
  (run = (Throw "quote timeout"%string, snd run)
   /\ db Demo.stored !! Demo.orderId = Some Demo.storedRow)
  /\ exists r',
       db (snd run) !! Demo.orderId = Some r'
       /\ r_status r' = failed
       /\ retry_count r' = 1%nat
       /\ error_message r' = Some "quote timeout"%string
       /\ tx_hash r' = None.
Proof.
  cbv zeta.
  assert (Hrun : processOrder (codec := Demo.codec) (config := Demo.config)
                   Demo.firstDelivery Demo.faulty Demo.stored
                 = (Throw "quote timeout"%string,
                    snd (processOrder (codec := Demo.codec)
                           (config := Demo.config) Demo.firstDelivery
                           Demo.faulty Demo.stored)))
    by (vm_compute; reflexivity).
  assert (Hrow : db Demo.stored !! Demo.orderId = Some Demo.storedRow)
    by reflexivity.
  split; [split; [exact Hrun | exact Hrow]|].
  destruct (failed_run_records_the_error_it_rethrows (codec := Demo.codec)
              (config := Demo.config) Demo.firstDelivery Demo.faulty
              "quote timeout"%string Demo.stored _ Demo.storedRow Hrun Hrow)
    as (r' & Hr' & Hst & Hrc & Hm & _ & _ & Hh & _).
  exists r'. split; [exact Hr'|]. split; [exact Hst|]. split; [exact Hrc|].
  split; [exact Hm | exact Hh].
Defined.

(** The spec's example order, created in an empty world and read back. *)
Lemma create_then_getById_reads_the_cached_snapshot_witness :
  (db Demo.emptyWorld !! Demo.orderId = None
   /\ @JSON_stringify Demo.codec Demo.solUsdc <> ""%string
   /\ @JSON_parse Demo.codec (@JSON_stringify Demo.codec Demo.solUsdc)
      = Ok Demo.solUsdc)
  /\ exists w1,
       create (codec := Demo.codec) Demo.orderId "SOL" "USDC" 1.5 0.01
         Demo.emptyWorld = (Ok Demo.solUsdc, w1)
       /\ getById (codec := Demo.codec) Demo.orderId w1
          = (Ok (Some Demo.solUsdc), emit (RedisGet (cacheKey Demo.orderId)) w1).
Proof.
  assert (Hnew : db Demo.emptyWorld !! Demo.orderId = None) by reflexivity.
  assert (Hne : @JSON_stringify Demo.codec Demo.solUsdc <> ""%string)
    by discriminate.
  assert (Hparse : @JSON_parse Demo.codec (@JSON_stringify Demo.codec Demo.solUsdc)
                   = Ok Demo.solUsdc) by reflexivity.
  split; [split; [exact Hnew | split; [exact Hne | exact Hparse]]|].
  exact (create_then_getById_reads_the_cached_snapshot (codec := Demo.codec)
           Demo.orderId "SOL" "USDC" 1.5 0.01 Demo.emptyWorld Hnew Hne Hparse).
Defined.

(** The spec's example submission, with an id that is already taken. *)
Lemma executeOrder_answers_500_when_the_insert_fails_witness :
  (valid (validateOrderRequest (body Demo.httpSubmission)) = true
   /\ db Demo.stored !! Demo.orderId = Some Demo.storedRow)
  /\ executeOrder (codec := Demo.codec) Demo.orderId Demo.httpSubmission Demo.stored
     = (Ok Reply500, Demo.stored).
Proof.
  assert (Hv : valid (validateOrderRequest (body Demo.httpSubmission)) = true)
    by reflexivity.
  assert (Hrow : db Demo.stored !! Demo.orderId = Some Demo.storedRow)
    by reflexivity.
  split; [split; [exact Hv | exact Hrow]|].
  exact (executeOrder_answers_500_when_the_insert_fails (codec := Demo.codec)
           Demo.orderId Demo.httpSubmission Demo.stored Demo.storedRow Hv Hrow).
Defined.

Local Close Scope Q_scope.

(** ** The listing and the read handlers *)

Lemma newerFirst_total : Total newerFirst.
Proof. intros a b. unfold newerFirst. lia. Qed.

Lemma newerFirst_trans : Transitive newerFirst.
Proof. intros a b c. unfold newerFirst. lia. Qed.

Lemma rowsNewestFirst_stored (w : World) (r : Row) :
  r ∈ rowsNewestFirst w <-> exists k, db w !! k = Some r.
Proof.
  unfold rowsNewestFirst. rewrite merge_sort_Permutation.
  rewrite list_elem_of_fmap. split.
  - intros ([k r'] & -> & Hin). exists k. apply elem_of_map_to_list in Hin. exact Hin.
  - intros (k & Hk). exists (k, r). split; [reflexivity|].
    apply elem_of_map_to_list. exact Hk.
Qed.

Lemma rowsNewestFirst_length (w : World) :
  length (rowsNewestFirst w) = size (db w).
Proof.
  unfold rowsNewestFirst. rewrite merge_sort_Permutation.
  rewrite length_fmap. apply length_map_to_list.
Qed.

Lemma rowsNewestFirst_sorted (w : World) :
  StronglySorted newerFirst (rowsNewestFirst w).
Proof.
  apply StronglySorted_merge_sort; [apply newerFirst_trans | apply newerFirst_total].
Qed.

Lemma StronglySorted_mapRow (l : list Row) :
  StronglySorted newerFirst l ->
  StronglySorted (fun a b : Order => (createdAt b <= createdAt a)%nat) (mapRow <$> l).
Proof.
  induction 1 as [|r l Hl IH Hall]; [constructor|].
  cbn [fmap list_fmap]. constructor; [exact IH|].
  apply Forall_fmap. eapply Forall_impl; [exact Hall|].
  intros r' Hr'. exact Hr'.
Qed.

(** X12.  [getRecent] is a read: it returns, and leaves the world as it
    was.  It returns as many orders as the limit (50 when omitted) allows
    and the table holds, each one a stored row, the newest first; and an
    order it leaves out is no newer than any it returns. *)
Theorem getRecent_returns_the_newest_orders (limit : option nat) (w : World) :
  exists orders : list Order,
    getRecent limit w = (Ok orders, w)
    /\ length orders = Nat.min (default 50%nat limit) (size (db w))
    /\ StronglySorted (fun a b : Order => (createdAt b <= createdAt a)%nat) orders
    /\ (forall o, o ∈ orders -> exists k r, db w !! k = Some r /\ o = mapRow r)
    /\ (forall k r, db w !! k = Some r -> mapRow r ∉ orders ->
          forall o, o ∈ orders -> (created_at r <= createdAt o)%nat).
Proof.
  eexists. split; [reflexivity|].
  set (n := default 50%nat limit). set (l := rowsNewestFirst w).
  pose proof (rowsNewestFirst_sorted w) as Hsorted. fold l in Hsorted.
  rewrite <- (take_drop n l) in Hsorted.
  split.
  { rewrite length_fmap, length_take. unfold l.
    rewrite rowsNewestFirst_length. reflexivity. }
  split.
  { apply StronglySorted_mapRow. eapply StronglySorted_app_1_l. exact Hsorted. }
  split.
  { intros o Ho. apply list_elem_of_fmap in Ho as (r & -> & Hr).
    apply elem_of_take in Hr as (i & Hr & _).
    apply list_elem_of_lookup_2 in Hr. apply rowsNewestFirst_stored in Hr as (k & Hk).
    exists k, r. split; [exact Hk | reflexivity]. }
  intros k r Hk Hout o Ho.
  apply list_elem_of_fmap in Ho as (r1 & -> & Hr1).
  assert (Hr : r ∈ take n l ++ drop n l).
  { rewrite take_drop. apply rowsNewestFirst_stored. exists k. exact Hk. }
  apply elem_of_app in Hr as [Hr|Hr].
  - exfalso. apply Hout. apply list_elem_of_fmap. exists r. split; [reflexivity|exact Hr].
  - exact (StronglySorted_app_1_elem_of _ _ _ _ _ Hsorted Hr1 Hr).
Qed.

Lemma leadingDigits_append (s rest : string) :
  allDigits s = true -> noDigitAhead rest = true ->
  forall acc, leadingDigits acc (s +:+ rest) = leadingDigits acc s.
Proof.
  intros Hs Hrest. induction s as [|c s IH]; intros acc.
  - destruct rest as [|c rest]; [reflexivity|].
    cbn [noDigitAhead] in Hrest. apply negb_true_iff in Hrest.
    change (leadingDigits acc (String c rest) = acc).
    cbn [leadingDigits]. rewrite Hrest. reflexivity.
  - cbn [allDigits] in Hs. apply andb_true_iff in Hs as [Hc Hs].
    change (String c s +:+ rest)%string with (String c (s +:+ rest)).
    cbn [leadingDigits]. rewrite Hc. apply IH. exact Hs.
Qed.

Lemma digit_is_no_white_space (c : Ascii.ascii) :
  is_digit c = true ->
  is_white_space c = false /\ Ascii.eqb c "-"%char = false
  /\ Ascii.eqb c "+"%char = false.
Proof.
  unfold is_digit, is_white_space. cbv zeta. intros H.
  apply andb_true_iff in H as [H1 H2].
  apply Nat.leb_le in H1. apply Nat.leb_le in H2.
  split; [|split].
  - apply orb_false_iff. split.
    + apply andb_false_iff. right. apply Nat.leb_gt. lia.
    + apply Nat.eqb_neq. lia.
  - destruct (Ascii.eqb_spec c "-"%char) as [->|]; [|reflexivity].
    change (48 <= 45)%nat in H1. lia.
  - destruct (Ascii.eqb_spec c "+"%char) as [->|]; [|reflexivity].
    change (48 <= 43)%nat in H1. lia.
Qed.

(** [parseInt] reads the digits at the front and ignores what follows. *)
Lemma parseInt_append (s rest : string) :
  allDigits s = true -> s <> ""%string -> noDigitAhead rest = true ->
  parseInt (s +:+ rest) = parseInt s.
Proof.
  intros Hs Hne Hrest. destruct s as [|c s]; [congruence|].
  pose proof Hs as Hall. cbn [allDigits] in Hs.
  apply andb_true_iff in Hs as [Hc Hs].
  destruct (digit_is_no_white_space c Hc) as (Hw & Hm & Hp).
  unfold parseInt.
  change (String c s +:+ rest)%string with (String c (s +:+ rest)).
  cbn [skipWhiteSpace]. rewrite Hw, Hm, Hp.
  apply (leadingDigits_append (String c s) rest Hall Hrest).
Qed.

(** X13.  [getOrders] always answers, with 400 "limit must be between 1 and
    100" or with a list, never with 500, and leaves the world as it was.  A
    list it sends has at most 100 orders and [count] is its length; with no
    limit, or an empty one, it is the list of the 50 newest orders. *)
Theorem getOrders_sends_at_most_100_orders (limit : option string) (w : World) :
  exists reply : OrdersReply,
    getOrders limit w = (Ok reply, w)
    /\ reply <> OrdersReply500
    /\ (forall message, reply = OrdersReply400 message ->
          message = "limit must be between 1 and 100"%string)
    /\ (forall orders count, reply = OrdersReply200 orders count ->
          count = length orders /\ (count <= 100)%nat /\ (count <= size (db w))%nat)
    /\ (limit = None \/ limit = Some ""%string ->
          exists orders, fst (getRecent (Some 50%nat) w) = Ok orders
            /\ reply = OrdersReply200 (summary <$> orders) (length orders)).
Proof.
  unfold getOrders.
  destruct (getRecent_returns_the_newest_orders (Some 50%nat) w)
    as (o50 & H50 & _).
  destruct (truthyStr limit) eqn:Et.
  - assert (Hlimit : ~ (limit = None \/ limit = Some ""%string)).
    { intros [->| ->]; discriminate Et. }
    destruct (parseInt (default ""%string limit)) as [n|].
    + destruct ((n <? 1)%Z || (100 <? n)%Z) eqn:Erange.
      * eexists. split; [reflexivity|].
        split; [discriminate|]. split; [congruence|].
        split; [discriminate|]. intros H. contradiction.
      * apply orb_false_iff in Erange as [E1 E2].
        apply Z.ltb_ge in E1. apply Z.ltb_ge in E2.
        destruct (getRecent_returns_the_newest_orders (Some (Z.to_nat n)) w)
          as (orders & Hrun & Hlen & _).
        unfold try_catch, bind. rewrite Hrun. cbn [ret].
        eexists. split; [reflexivity|].
        split; [discriminate|]. split; [discriminate|].
        split; [|intros H; contradiction].
        intros os count [= <- <-]. cbn [default from_option] in Hlen.
        unfold Datatypes.id in Hlen.
        split; [rewrite length_fmap; reflexivity|]. lia.
    + eexists. split; [reflexivity|].
      split; [discriminate|]. split; [congruence|].
      split; [discriminate|]. intros H. contradiction.
  - change ((50 <? 1)%Z || (100 <? 50)%Z) with false. cbv iota.
    change (Z.to_nat 50) with 50%nat.
    unfold try_catch, bind. rewrite H50. cbn [ret].
    destruct (getRecent_returns_the_newest_orders (Some 50%nat) w)
      as (orders & Hrun & Hlen & _).
    rewrite H50 in Hrun. injection Hrun as <-.
    cbn [default from_option] in Hlen. unfold Datatypes.id in Hlen.
    eexists. split; [reflexivity|].
    split; [discriminate|]. split; [discriminate|].
    split.
    + intros os count [= <- <-].
      split; [rewrite length_fmap; reflexivity|]. lia.
    + intros _. exists o50. split; reflexivity.
Qed.

(** X14.  [getOrders] reads the limit with [parseInt]: what follows the
    leading digits is ignored, so a limit such as [10abc] or [10.9] is
    served as [10]. *)
Theorem getOrders_ignores_text_after_the_digits
    (digits rest : string) (w : World) :
  allDigits digits = true -> digits <> ""%string -> noDigitAhead rest = true ->
  getOrders (Some (digits +:+ rest)%string) w = getOrders (Some digits) w.
Proof.
  intros Hd Hne Hrest. unfold getOrders.
  assert (Ht : truthyStr (Some (digits +:+ rest)%string) = true).
  { destruct digits; [congruence|reflexivity]. }
  assert (Ht' : truthyStr (Some digits) = true).
  { destruct digits; [congruence|reflexivity]. }
  rewrite Ht, Ht'. cbn [default from_option]. unfold Datatypes.id.
  rewrite (parseInt_append digits rest Hd Hne Hrest). reflexivity.
Qed.


Section RouteProperties.

Context {codec : JsonCodec}.

(** X15.  [getOrder] always answers.  It answers 500 exactly when the
    cache holds a text for the id that [JSON.parse] rejects.  With nothing
    cached it answers 404 for a malformed id (the only effect is the cache
    lookup) and for an id with no row, and otherwise 200 with the fields of
    the stored row. *)
Theorem getOrder_answers_404_for_unknown_ids (orderId : string) (w : World) :
  (exists reply, fst (getOrder orderId w) = Ok reply)
  /\ (fst (getOrder orderId w) = Ok OrderReply500
      <-> exists s e, cache w !! cacheKey orderId = Some s /\ s <> ""%string
                      /\ JSON_parse s = Throw e)
  /\ (cache w !! cacheKey orderId = None ->
      (uuidRegex_test orderId = false ->
         getOrder orderId w = (Ok OrderReply404, emit (RedisGet (cacheKey orderId)) w))
      /\ (uuidRegex_test orderId = true -> db w !! orderId = None ->
         fst (getOrder orderId w) = Ok OrderReply404)
      /\ (forall r, uuidRegex_test orderId = true -> db w !! orderId = Some r ->
         fst (getOrder orderId w) = Ok (OrderReply200 (view (mapRow r))))).
Proof.
  unfold getOrder, try_catch, bind.
  destruct (cache w !! cacheKey orderId) as [s|] eqn:Ec.
  - destruct (String.eqb_spec s "") as [->|Hs].
    + (* an empty text is falsy: the read falls through to the table *)
      assert (Hmiss : truthy (redis_reply (cache w !! cacheKey orderId)) = false)
        by (rewrite Ec; reflexivity).
      destruct (getById_miss_absent orderId w Hmiss) as [Hbad Hnone].
      destruct (uuidRegex_test orderId) eqn:Eid.
      * destruct (db w !! orderId) as [r|] eqn:Er.
        -- rewrite (getById_miss_found orderId r w Hmiss Eid Er). cbn [ret fst].
           split; [eauto|]. split; [|intros [=]].
           split; [discriminate|]. intros (s & e & [= <-] & Hne & _). congruence.
        -- rewrite (Hnone eq_refl eq_refl). cbn [ret fst].
           split; [eauto|]. split; [|intros [=]].
           split; [discriminate|]. intros (s & e & [= <-] & Hne & _). congruence.
      * rewrite (Hbad eq_refl). cbn [ret fst].
        split; [eauto|]. split; [|intros [=]].
        split; [discriminate|]. intros (s & e & [= <-] & Hne & _). congruence.
    + rewrite (getById_hit orderId s w Ec Hs).
      destruct (JSON_parse s) as [o|e] eqn:Ep; cbn [ret fst].
      * split; [eauto|]. split; [|intros [=]].
        split; [discriminate|]. intros (s' & e & [= <-] & _ & Hp). congruence.
      * split; [eauto|]. split; [|intros [=]].
        split; [intros _; eauto|reflexivity].
  - assert (Hmiss : truthy (redis_reply (cache w !! cacheKey orderId)) = false)
      by (rewrite Ec; reflexivity).
    destruct (getById_miss_absent orderId w Hmiss) as [Hbad Hnone].
    destruct (uuidRegex_test orderId) eqn:Eid.
    + destruct (db w !! orderId) as [r|] eqn:Er.
      * rewrite (getById_miss_found orderId r w Hmiss Eid Er). cbn [ret fst].
        split; [eauto|]. split.
        { split; [discriminate|]. intros (s & e & [=] & _). }
        intros _. split; [discriminate|]. split; [discriminate|].
        intros r' _ [= <-]. reflexivity.
      * rewrite (Hnone eq_refl eq_refl). cbn [ret fst].
        split; [eauto|]. split.
        { split; [discriminate|]. intros (s & e & [=] & _). }
        intros _. split; [discriminate|]. split; [reflexivity|]. discriminate.
    + rewrite (Hbad eq_refl). cbn [ret fst].
      split; [eauto|]. split.
      { split; [discriminate|]. intros (s & e & [=] & _). }
      intros _. split; [reflexivity|]. split; discriminate.
Qed.

End RouteProperties.

Section AfterARun.

Context {codec : JsonCodec} {config : QueueConfig}.

(** X23.  After a run of [processOrder] on a stored order with a
    well-formed id, however the run ended, [getOrder] answers 200 with the
    fields of the row the run left (it is read from the table, the cache
    holding no entry): the status is [confirmed] if the run returned and
    [failed] if it threw, and the id, tokens, amount, slippage and creation
    time are those the order had. *)
Theorem getOrder_after_a_run_shows_its_outcome
    (job : Job) (env : Env) (w : World) (r : Row) :
  let oid := job_orderId job in
  db w !! oid = Some r ->
  uuidRegex_test oid = true ->
  let run := processOrder job env w in
  exists r' : Row,
    db (snd run) !! oid = Some r'
    /\ fst (getOrder oid (snd run)) = Ok (OrderReply200 (view (mapRow r')))
    /\ r_status r' = match fst run with Ok _ => confirmed | Throw _ => failed end
    /\ immutableColumns r' = immutableColumns r.
Proof.
  cbv zeta. intros Hr Hid.
  pose proof (processOrder_sameOrders job env w (job_orderId job)) as Hsame.
  rewrite Hr in Hsame.
  destruct (db (snd (processOrder job env w)) !! job_orderId job) as [r'|] eqn:Er';
    [|discriminate Hsame].
  cbn [fmap option_fmap option_map] in Hsame.
  assert (Himm : immutableColumns r' = immutableColumns r) by congruence.
  exists r'. split; [reflexivity|].
  split.
  { destruct (processOrder_last_step job env w) as (wX & st & ad & d & Hlast).
    assert (Hcache : cache (snd (processOrder job env w))
                       !! cacheKey (job_orderId job) = None).
    { rewrite Hlast, broadcastNow_cache, updateStatus_cache.
      apply lookup_delete_eq. }
    assert (Hmiss : truthy (redis_reply (cache (snd (processOrder job env w))
                                           !! cacheKey (job_orderId job))) = false)
      by (rewrite Hcache; reflexivity).
    unfold getOrder, try_catch, bind.
    rewrite (getById_miss_found _ r' _ Hmiss Hid Er'). reflexivity. }
  split; [|exact Himm].
  destruct (processOrder job env w) as [[[]|e] w'] eqn:Hrun; cbn [fst snd] in *.
  - destruct (processOrder_ok job env w w' Hrun) as (_ & _ & _ & _ & _ & Hrow & _).
    destruct (Hrow r Hr) as (r2 & Hr2 & Hst & _). congruence.
  - destruct (processOrder_throw job env e w w' Hrun) as (_ & _ & _ & _ & _ & Hrow & _).
    destruct (Hrow r Hr) as (r2 & Hr2 & Hst & _). congruence.
Qed.

End AfterARun.

(** ** The registry of connections *)

Lemma Set_add_spec (ws : nat) (set : list nat) :
  NoDup set ->
  WebSocketManager.Set_add ws set <> []
  /\ NoDup (WebSocketManager.Set_add ws set)
  /\ (forall x, x ∈ WebSocketManager.Set_add ws set <-> x = ws \/ x ∈ set).
Proof.
  intros Hnd. unfold WebSocketManager.Set_add. case_bool_decide as Hin.
  - split; [intros ->; inversion Hin|]. split; [exact Hnd|].
    intros x. split; [auto|]. intros [->|]; assumption.
  - split; [destruct set; discriminate|].
    split.
    { apply NoDup_app. split; [exact Hnd|]. split.
      - intros x Hx Hx'. apply list_elem_of_singleton in Hx'. subst. contradiction.
      - apply NoDup_singleton. }
    intros x. rewrite elem_of_app, list_elem_of_singleton. tauto.
Qed.

Lemma Set_delete_spec (ws : nat) (set : list nat) :
  NoDup set ->
  NoDup (WebSocketManager.Set_delete ws set)
  /\ (forall x, x ∈ WebSocketManager.Set_delete ws set <-> x <> ws /\ x ∈ set).
Proof.
  intros Hnd. unfold WebSocketManager.Set_delete. split.
  - apply NoDup_filter. exact Hnd.
  - intros x. rewrite list_elem_of_filter. tauto.
Qed.

(** The map [registerConnection] leaves: the order's set with the socket
    added. *)
Lemma registerConnection_connections (orderId : string) (ws : nat)
    (s : WebSocketManager.Sockets) :
  WebSocketManager.connections (WebSocketManager.registerConnection orderId ws s)
  = <[orderId := WebSocketManager.Set_add ws (WebSocketManager.subscribers orderId s)]>
      (WebSocketManager.connections s).
Proof.
  unfold WebSocketManager.registerConnection, WebSocketManager.subscribers.
  cbn [WebSocketManager.connections].
  apply map_eq. intros k. destruct (decide (k = orderId)) as [->|Hne].
  - rewrite lookup_alter_eq, lookup_insert_eq.
    destruct (WebSocketManager.connections s !! orderId) as [set|] eqn:E.
    + rewrite E. reflexivity.
    + rewrite lookup_insert_eq. reflexivity.
  - rewrite lookup_alter_ne, lookup_insert_ne by congruence.
    destruct (WebSocketManager.connections s !! orderId); [reflexivity|].
    rewrite lookup_insert_ne by congruence. reflexivity.
Qed.

Lemma onClose_spec (orderId : string) (ws : nat) (m : gmap string (list nat)) :
  goodSets m ->
  goodSets (WebSocketManager.onClose orderId ws m)
  /\ shrunk m (WebSocketManager.onClose orderId ws m)
  /\ (forall set, WebSocketManager.onClose orderId ws m !! orderId = Some set ->
        ws ∉ set).
Proof.
  intros Hm. unfold WebSocketManager.onClose.
  destruct (m !! orderId) as [oc|] eqn:E.
  - destruct (Hm _ _ E) as [_ Hnd].
    destruct (Set_delete_spec ws oc Hnd) as [Hnd' Hin'].
    cbv zeta.
    destruct (length (WebSocketManager.Set_delete ws oc) =? 0)%nat eqn:El.
    + split; [|split].
      * intros k set Hk. apply lookup_delete_Some in Hk as [_ Hk]. eauto.
      * intros k set Hk. apply lookup_delete_Some in Hk as [_ Hk]. eauto.
      * intros set Hk. rewrite lookup_delete_eq in Hk. discriminate.
    + apply Nat.eqb_neq in El. split; [|split].
      * intros k set Hk. destruct (decide (k = orderId)) as [->|Hne].
        -- rewrite lookup_insert_eq in Hk. injection Hk as <-.
           split; [|exact Hnd']. intros E0. rewrite E0 in El. cbn in El. lia.
        -- rewrite lookup_insert_ne in Hk by congruence. eauto.
      * intros k set Hk. destruct (decide (k = orderId)) as [->|Hne].
        -- rewrite lookup_insert_eq in Hk. injection Hk as <-.
           exists oc. split; [exact E|]. intros x Hx. apply Hin' in Hx. tauto.
        -- rewrite lookup_insert_ne in Hk by congruence. eauto.
      * intros set Hk. rewrite lookup_insert_eq in Hk. injection Hk as <-.
        intros Hx. apply Hin' in Hx. tauto.
  - split; [exact Hm|]. split; [intros k set Hk; eauto|].
    intros set Hk. congruence.
Qed.

(** The listeners of a ['close'] event, run one after the other. *)
Lemma closeEvent_listeners (ws : nat) (listeners : list (nat * string)) :
  forall m : gmap string (list nat),
    goodSets m ->
    let m' := fold_left
                (fun conns listener =>
                   if (fst listener =? ws)%nat
                   then WebSocketManager.onClose (snd listener) ws conns
                   else conns) listeners m in
    goodSets m' /\ shrunk m m'
    /\ (forall k set, (ws, k) ∈ listeners -> m' !! k = Some set -> ws ∉ set).
Proof.
  induction listeners as [|[x k0] listeners IH]; intros m Hm; cbv zeta.
  - cbn [fold_left]. split; [exact Hm|]. split; [intros k set Hk; eauto|].
    intros k set Hin. inversion Hin.
  - cbn [fold_left fst snd].
    set (m1 := if (x =? ws)%nat then WebSocketManager.onClose k0 ws m else m).
    assert (H1 : goodSets m1 /\ shrunk m m1
                 /\ (x = ws -> forall set, m1 !! k0 = Some set -> ws ∉ set)).
    { unfold m1. destruct (Nat.eqb_spec x ws) as [->|Hne].
      - destruct (onClose_spec k0 ws m Hm) as (A & B & C). auto.
      - split; [exact Hm|]. split; [intros k set Hk; eauto|]. contradiction. }
    destruct H1 as (Hg1 & Hs1 & Hout1).
    destruct (IH m1 Hg1) as (Hg & Hs & Hout). cbv zeta in Hg, Hs, Hout.
    split; [exact Hg|]. split.
    + intros k set' Hk. destruct (Hs k set' Hk) as (set1 & Hk1 & Hsub1).
      destruct (Hs1 k set1 Hk1) as (set & Hk0 & Hsub). eauto.
    + intros k set Hin Hk. apply elem_of_cons in Hin as [[= <- <-]|Hin].
      * destruct (Hs k set Hk) as (set1 & Hk1 & Hsub1).
        intros Hx. apply (Hout1 eq_refl set1 Hk1). auto.
      * eapply Hout; eassumption.
Qed.

(** [send] and [close] leave the registry's map and listeners alone. *)
Lemma trySend_loop (sendThrows : nat -> bool) (u : StatusUpdate) (l : list nat) :
  forall s : WebSocketManager.Sockets,
    let s' := fold_left (WebSocketManager.trySend sendThrows u) l s in
    WebSocketManager.connections s' = WebSocketManager.connections s
    /\ WebSocketManager.readyState s' = WebSocketManager.readyState s
    /\ WebSocketManager.closeListeners s' = WebSocketManager.closeListeners s
    /\ WebSocketManager.sent s'
       = WebSocketManager.sent s
         ++ map (fun ws => (ws, WebSocketManager.UpdateMessage u))
              (List.filter
                 (fun ws => WebSocketManager.isOpen (WebSocketManager.readyState s ws)
                            && negb (sendThrows ws)) l).
Proof.
  induction l as [|ws l IH]; intros s; cbv zeta.
  - cbn. rewrite app_nil_r. repeat split.
  - cbn [fold_left List.filter].
    destruct (IH (WebSocketManager.trySend sendThrows u s ws)) as (A & B & C & D).
    cbv zeta in A, B, C, D. rewrite A, B, C, D.
    unfold WebSocketManager.trySend.
    destruct (WebSocketManager.isOpen (WebSocketManager.readyState s ws));
      [destruct (sendThrows ws)|];
      cbn [andb negb WebSocketManager.connections WebSocketManager.readyState
           WebSocketManager.closeListeners WebSocketManager.sent map];
      rewrite <- ?app_assoc; repeat split.
Qed.

Lemma close_loop (l : list nat) :
  forall s : WebSocketManager.Sockets,
    let s' := fold_left WebSocketManager.closeIfOpen l s in
    WebSocketManager.connections s' = WebSocketManager.connections s
    /\ WebSocketManager.closeListeners s' = WebSocketManager.closeListeners s
    /\ WebSocketManager.sent s' = WebSocketManager.sent s
    /\ (forall ws,
          WebSocketManager.readyState s' ws
          = if bool_decide (ws ∈ l)
               && WebSocketManager.isOpen (WebSocketManager.readyState s ws)
            then WebSocketManager.CLOSING
            else WebSocketManager.readyState s ws).
Proof.
  induction l as [|x l IH]; intros s; cbv zeta.
  - cbn [fold_left]. repeat split.
  - cbn [fold_left].
    destruct (IH (WebSocketManager.closeIfOpen s x)) as (A & B & C & D).
    cbv zeta in A, B, C, D. rewrite A, B, C.
    assert (Hc : WebSocketManager.connections (WebSocketManager.closeIfOpen s x)
                 = WebSocketManager.connections s
                 /\ WebSocketManager.closeListeners (WebSocketManager.closeIfOpen s x)
                    = WebSocketManager.closeListeners s
                 /\ WebSocketManager.sent (WebSocketManager.closeIfOpen s x)
                    = WebSocketManager.sent s).
    { unfold WebSocketManager.closeIfOpen, WebSocketManager.close.
      destruct (WebSocketManager.readyState s x); repeat split. }
    destruct Hc as (-> & -> & ->).
    do 3 (split; [reflexivity|]).
    intros ws. rewrite D.
    assert (Hr : WebSocketManager.readyState (WebSocketManager.closeIfOpen s x) ws
                 = if (ws =? x)%nat
                   then (if WebSocketManager.isOpen (WebSocketManager.readyState s x)
                         then WebSocketManager.CLOSING
                         else WebSocketManager.readyState s x)
                   else WebSocketManager.readyState s ws).
    { unfold WebSocketManager.closeIfOpen, WebSocketManager.close.
      destruct (WebSocketManager.readyState s x) eqn:Eo;
        cbn [WebSocketManager.isOpen WebSocketManager.readyState];
        try rewrite Eo;
        try reflexivity;
        (destruct (Nat.eqb_spec ws x) as [Heq|]; [rewrite Heq, Eo|]; reflexivity). }
    rewrite Hr. clear Hr.
    destruct (decide (ws = x)) as [Heq|Hne].
    + subst ws. rewrite Nat.eqb_refl.
      rewrite (bool_decide_eq_true_2 (x ∈ x :: l)) by (apply elem_of_cons; auto).
      destruct (WebSocketManager.isOpen (WebSocketManager.readyState s x)) eqn:Eo.
      * cbn [WebSocketManager.isOpen andb]. rewrite andb_false_r. reflexivity.
      * rewrite Eo, andb_false_r. reflexivity.
    + apply Nat.eqb_neq in Hne as Hne'. rewrite Hne'.
      destruct (decide (ws ∈ l)) as [Hl|Hl].
      * rewrite !bool_decide_eq_true_2; [reflexivity|apply elem_of_cons; auto|exact Hl].
      * rewrite !bool_decide_eq_false_2; [reflexivity| |exact Hl].
        intros Hin. apply elem_of_cons in Hin as [?|?]; contradiction.
Qed.

Lemma count_insert (m : gmap string (list nat)) (k : string) (v : list nat) :
  map_fold (fun _ oc count => (count + length oc)%nat) 0%nat (<[k := v]> m)
  = (map_fold (fun _ oc count => (count + length oc)%nat) 0%nat (delete k m)
     + length v)%nat.
Proof.
  rewrite <- insert_delete_eq.
  rewrite map_fold_insert_L; [reflexivity| |apply lookup_delete_eq].
  intros. lia.
Qed.

Lemma count_delete (m : gmap string (list nat)) (k : string) :
  (map_fold (fun _ oc count => (count + length oc)%nat) 0%nat (delete k m)
   + length (default [] (m !! k)))%nat
  = map_fold (fun _ oc count => (count + length oc)%nat) 0%nat m.
Proof.
  destruct (m !! k) as [v|] eqn:E.
  - rewrite (map_fold_delete_L _ _ k v m); [reflexivity| |exact E].
    intros. lia.
  - rewrite delete_id by exact E. cbn. lia.
Qed.

Lemma wellFormed_goodSets (s : WebSocketManager.Sockets) :
  WebSocketManager.wellFormed s -> goodSets (WebSocketManager.connections s).
Proof. intros Hwf k set Hk. destruct (Hwf k set Hk) as (A & B & _). auto. Qed.

Lemma registerConnection_wellFormed (orderId : string) (ws : nat)
    (s : WebSocketManager.Sockets) :
  WebSocketManager.wellFormed s ->
  WebSocketManager.wellFormed (WebSocketManager.registerConnection orderId ws s).
Proof.
  intros Hwf k set Hk.
  rewrite registerConnection_connections in Hk.
  cbn [WebSocketManager.registerConnection WebSocketManager.closeListeners].
  destruct (decide (k = orderId)) as [->|Hne].
  - rewrite lookup_insert_eq in Hk. injection Hk as <-.
    assert (Hnd : NoDup (WebSocketManager.subscribers orderId s)).
    { unfold WebSocketManager.subscribers.
      destruct (WebSocketManager.connections s !! orderId) as [set0|] eqn:E;
        [apply (Hwf _ _ E) | apply NoDup_nil_2]. }
    destruct (Set_add_spec ws _ Hnd) as (A & B & C).
    split; [exact A|]. split; [exact B|].
    intros x Hx. apply C in Hx as [->|Hx].
    + apply elem_of_app. right. apply list_elem_of_singleton. reflexivity.
    + apply elem_of_app. left. unfold WebSocketManager.subscribers in Hx.
      destruct (WebSocketManager.connections s !! orderId) as [set0|] eqn:E;
        [|inversion Hx].
      apply (Hwf _ _ E). exact Hx.
  - rewrite lookup_insert_ne in Hk by congruence.
    destruct (Hwf k set Hk) as (A & B & C).
    split; [exact A|]. split; [exact B|].
    intros x Hx. apply elem_of_app. left. apply C. exact Hx.
Qed.

Lemma closeEvent_wellFormed (ws : nat) (s : WebSocketManager.Sockets) :
  WebSocketManager.wellFormed s ->
  WebSocketManager.wellFormed (WebSocketManager.closeEvent ws s).
Proof.
  intros Hwf k set Hk.
  destruct (closeEvent_listeners ws (WebSocketManager.closeListeners s)
              (WebSocketManager.connections s) (wellFormed_goodSets s Hwf))
    as (Hg & Hs & _).
  cbv zeta in Hg, Hs.
  cbn [WebSocketManager.closeEvent WebSocketManager.connections
       WebSocketManager.closeListeners] in Hk |- *.
  destruct (Hg k set Hk) as [A B]. split; [exact A|]. split; [exact B|].
  intros x Hx. destruct (Hs k set Hk) as (set0 & Hk0 & Hsub).
  apply (Hwf _ _ Hk0). apply Hsub. exact Hx.
Qed.

Lemma closeConnections_wellFormed (orderId : string) (s : WebSocketManager.Sockets) :
  WebSocketManager.wellFormed s ->
  WebSocketManager.wellFormed (WebSocketManager.closeConnections orderId s).
Proof.
  intros Hwf k set Hk. unfold WebSocketManager.closeConnections in Hk |- *.
  destruct (WebSocketManager.connections s !! orderId) as [oc|] eqn:E;
    [|apply (Hwf k set Hk)].
  destruct (close_loop oc s) as (A & B & _ & _). cbv zeta in A, B.
  cbn [WebSocketManager.connections WebSocketManager.closeListeners] in Hk |- *.
  rewrite A in Hk. rewrite B. apply lookup_delete_Some in Hk as [_ Hk].
  apply (Hwf k set Hk).
Qed.

Lemma broadcastStatus_wellFormed (sendThrows : nat -> bool) (update : StatusUpdate)
    (s : WebSocketManager.Sockets) :
  WebSocketManager.wellFormed s ->
  WebSocketManager.wellFormed (WebSocketManager.broadcastStatus sendThrows update s).
Proof.
  intros Hwf k set Hk.
  unfold WebSocketManager.broadcastStatus in Hk |- *.
  destruct (WebSocketManager.connections s !! su_orderId update) as [oc|];
    [|apply (Hwf k set Hk)].
  destruct (length oc =? 0)%nat; [apply (Hwf k set Hk)|].
  destruct (trySend_loop sendThrows update oc s) as (A & _ & C & _).
  cbv zeta in A, C. rewrite A in Hk. rewrite C. apply (Hwf k set Hk).
Qed.

(** X16.  The four operations of the registry keep its shape: after
    [registerConnection], a ['close'] event, [closeConnections] or
    [broadcastStatus], no order has an empty set, no set holds a socket
    twice, and every member of a set has a close listener for its order. *)
Theorem registry_sets_stay_nonempty_and_free_of_repetition
    (s : WebSocketManager.Sockets) :
  WebSocketManager.wellFormed s ->
  (forall orderId ws,
     WebSocketManager.wellFormed (WebSocketManager.registerConnection orderId ws s))
  /\ (forall ws, WebSocketManager.wellFormed (WebSocketManager.closeEvent ws s))
  /\ (forall orderId,
        WebSocketManager.wellFormed (WebSocketManager.closeConnections orderId s))
  /\ (forall sendThrows update,
        WebSocketManager.wellFormed
          (WebSocketManager.broadcastStatus sendThrows update s)).
Proof.
  intros Hwf. split; [|split; [|split]].
  - intros orderId ws. apply registerConnection_wellFormed. exact Hwf.
  - intros ws. apply closeEvent_wellFormed. exact Hwf.
  - intros orderId. apply closeConnections_wellFormed. exact Hwf.
  - intros sendThrows update. apply broadcastStatus_wellFormed. exact Hwf.
Qed.

Lemma Set_delete_idempotent (ws : nat) (l : list nat) :
  WebSocketManager.Set_delete ws (WebSocketManager.Set_delete ws l)
  = WebSocketManager.Set_delete ws l.
Proof.
  unfold WebSocketManager.Set_delete. induction l as [|x l IH]; [reflexivity|].
  rewrite filter_cons. destruct (decide (x <> ws)) as [Hne|Heq].
  - rewrite filter_cons. rewrite decide_True by exact Hne. rewrite IH. reflexivity.
  - exact IH.
Qed.

Lemma Set_delete_absent (ws : nat) (l : list nat) :
  ws ∉ l -> WebSocketManager.Set_delete ws l = l.
Proof.
  unfold WebSocketManager.Set_delete. induction l as [|x l IH]; [reflexivity|].
  intros Hout. apply not_elem_of_cons in Hout as [Hne Hout].
  rewrite filter_cons. rewrite decide_True by congruence. rewrite IH by exact Hout.
  reflexivity.
Qed.

Lemma Set_delete_add (ws : nat) (l : list nat) :
  ws ∉ l -> WebSocketManager.Set_delete ws (WebSocketManager.Set_add ws l) = l.
Proof.
  intros Hout. unfold WebSocketManager.Set_add.
  rewrite bool_decide_eq_false_2 by exact Hout.
  unfold WebSocketManager.Set_delete. rewrite filter_app.
  fold (WebSocketManager.Set_delete ws l). rewrite Set_delete_absent by exact Hout.
  rewrite filter_cons. rewrite decide_False by (intros H; apply H; reflexivity).
  rewrite filter_nil. apply app_nil_r.
Qed.

(** The set one listener leaves for each order. *)
Lemma onClose_lookup (k0 : string) (ws : nat) (m : gmap string (list nat)) (k : string) :
  default [] (WebSocketManager.onClose k0 ws m !! k)
  = if decide (k = k0) then WebSocketManager.Set_delete ws (default [] (m !! k0))
    else default [] (m !! k).
Proof.
  unfold WebSocketManager.onClose.
  destruct (m !! k0) as [oc|] eqn:E; cbv zeta.
  - destruct (length (WebSocketManager.Set_delete ws oc) =? 0)%nat eqn:El.
    + apply Nat.eqb_eq in El. apply nil_length_inv in El.
      destruct (decide (k = k0)) as [->|Hne].
      * rewrite lookup_delete_eq. cbn. symmetry. exact El.
      * rewrite lookup_delete_ne by congruence. reflexivity.
    + destruct (decide (k = k0)) as [->|Hne].
      * rewrite lookup_insert_eq. reflexivity.
      * rewrite lookup_insert_ne by congruence. reflexivity.
  - destruct (decide (k = k0)) as [->|Hne]; [|reflexivity].
    rewrite E. reflexivity.
Qed.

Lemma closeEvent_lookup (ws : nat) (listeners : list (nat * string)) (k : string) :
  forall m : gmap string (list nat),
    default []
      (fold_left
         (fun conns listener =>
            if (fst listener =? ws)%nat
            then WebSocketManager.onClose (snd listener) ws conns
            else conns) listeners m !! k)
    = if bool_decide ((ws, k) ∈ listeners)
      then WebSocketManager.Set_delete ws (default [] (m !! k))
      else default [] (m !! k).
Proof.
  induction listeners as [|[x k0] listeners IH]; intros m.
  - cbn [fold_left]. rewrite bool_decide_eq_false_2; [reflexivity|].
    intros H. inversion H.
  - cbn [fold_left fst snd]. rewrite IH.
    destruct (Nat.eqb_spec x ws) as [Hx|Hx].
    + subst x. rewrite onClose_lookup.
      destruct (decide (k = k0)) as [Hk|Hk].
      * subst k0.
        rewrite (bool_decide_eq_true_2 ((ws, k) ∈ (ws, k) :: listeners))
          by (apply elem_of_cons; auto).
        rewrite Set_delete_idempotent.
        destruct (bool_decide ((ws, k) ∈ listeners)); reflexivity.
      * destruct (decide ((ws, k) ∈ listeners)) as [Hin|Hin].
        -- rewrite !bool_decide_eq_true_2;
             [reflexivity | apply elem_of_cons; auto | exact Hin].
        -- rewrite !bool_decide_eq_false_2; [reflexivity | | exact Hin].
           intros H. apply elem_of_cons in H as [[= ?]|?]; [congruence|contradiction].
    + destruct (decide ((ws, k) ∈ listeners)) as [Hin|Hin].
      * rewrite !bool_decide_eq_true_2;
          [reflexivity | apply elem_of_cons; auto | exact Hin].
      * rewrite !bool_decide_eq_false_2; [reflexivity | | exact Hin].
        intros H. apply elem_of_cons in H as [[= ? ?]|?]; [congruence|contradiction].
Qed.

Lemma closeEvent_subscribers (ws : nat) (s : WebSocketManager.Sockets)
    (orderId : string) :
  WebSocketManager.wellFormed s ->
  WebSocketManager.subscribers orderId (WebSocketManager.closeEvent ws s)
  = WebSocketManager.Set_delete ws (WebSocketManager.subscribers orderId s).
Proof.
  intros Hwf. unfold WebSocketManager.subscribers, WebSocketManager.closeEvent.
  cbn [WebSocketManager.connections]. rewrite closeEvent_lookup.
  case_bool_decide as Hin; [reflexivity|].
  symmetry. apply Set_delete_absent.
  destruct (WebSocketManager.connections s !! orderId) as [set|] eqn:E;
    [|intros H; inversion H].
  intros Hmem. apply Hin. apply (Hwf _ _ E). exact Hmem.
Qed.

(** Two registries without empty sets that have the same subscribers for
    every order hold the same map. *)
Lemma connections_eq (s1 s2 : WebSocketManager.Sockets) :
  WebSocketManager.wellFormed s1 -> WebSocketManager.wellFormed s2 ->
  (forall k, WebSocketManager.subscribers k s1 = WebSocketManager.subscribers k s2) ->
  WebSocketManager.connections s1 = WebSocketManager.connections s2.
Proof.
  intros H1 H2 Hsub. apply map_eq. intros k. specialize (Hsub k).
  unfold WebSocketManager.subscribers in Hsub.
  destruct (WebSocketManager.connections s1 !! k) as [a|] eqn:E1;
    destruct (WebSocketManager.connections s2 !! k) as [b|] eqn:E2;
    cbn in Hsub; subst; try reflexivity.
  - destruct (H1 _ _ E1) as [Hne _]. congruence.
  - destruct (H2 _ _ E2) as [Hne _]. congruence.
Qed.

(** X17.  When a socket's ['close'] event fires on a well-formed registry,
    the socket is closed and leaves every order's set, the other sockets
    stay in their order of insertion, and an order left without sockets
    loses its entry. *)
Theorem closed_socket_leaves_every_set (ws : nat) (s : WebSocketManager.Sockets) :
  WebSocketManager.wellFormed s ->
  let s' := WebSocketManager.closeEvent ws s in
  WebSocketManager.readyState s' ws = WebSocketManager.CLOSED
  /\ (forall orderId,
        WebSocketManager.subscribers orderId s'
        = WebSocketManager.Set_delete ws (WebSocketManager.subscribers orderId s))
  /\ (forall orderId, ws ∉ WebSocketManager.subscribers orderId s')
  /\ (forall orderId,
        WebSocketManager.subscribers orderId s' = []
        -> WebSocketManager.connections s' !! orderId = None).
Proof.
  intros Hwf. cbv zeta.
  split.
  { cbn [WebSocketManager.closeEvent WebSocketManager.readyState].
    rewrite Nat.eqb_refl. reflexivity. }
  split; [intros orderId; apply closeEvent_subscribers; exact Hwf|].
  split.
  { intros orderId. rewrite closeEvent_subscribers by exact Hwf.
    unfold WebSocketManager.Set_delete. rewrite list_elem_of_filter. tauto. }
  intros orderId Hempty.
  pose proof (closeEvent_wellFormed ws s Hwf) as Hwf'.
  unfold WebSocketManager.subscribers in Hempty.
  destruct (WebSocketManager.connections (WebSocketManager.closeEvent ws s) !! orderId)
    as [set|] eqn:E; [|reflexivity].
  destruct (Hwf' _ _ E) as [Hne _]. cbn in Hempty. congruence.
Qed.

(** X18.  A socket that is in no set, registers for an order and then
    closes leaves the registry's map exactly as it found it. *)
Theorem registered_socket_that_closes_leaves_no_trace
    (orderId : string) (ws : nat) (s : WebSocketManager.Sockets) :
  WebSocketManager.wellFormed s ->
  (forall k, ws ∉ WebSocketManager.subscribers k s) ->
  WebSocketManager.connections
    (WebSocketManager.closeEvent ws (WebSocketManager.registerConnection orderId ws s))
  = WebSocketManager.connections s.
Proof.
  intros Hwf Hfresh.
  pose proof (registerConnection_wellFormed orderId ws s Hwf) as Hwf1.
  apply connections_eq;
    [apply closeEvent_wellFormed; exact Hwf1 | exact Hwf |].
  intros k. rewrite closeEvent_subscribers by exact Hwf1.
  unfold WebSocketManager.subscribers at 1.
  rewrite registerConnection_connections.
  destruct (decide (k = orderId)) as [->|Hne].
  - rewrite lookup_insert_eq. cbn [default from_option]. unfold Datatypes.id.
    apply Set_delete_add. apply Hfresh.
  - rewrite lookup_insert_ne by congruence.
    apply Set_delete_absent. apply Hfresh.
Qed.

(** X19.  [broadcastStatus] sends the update once to each socket registered
    for the update's order that is open and whose [send] does not throw, in
    the order of registration, and to no other socket: a socket that is
    not open is skipped, a [send] that throws does not stop the loop.  The
    registry, the sockets' states and the listeners are unchanged. *)
Theorem broadcastStatus_reaches_the_open_subscribers
    (sendThrows : nat -> bool) (update : StatusUpdate)
    (s : WebSocketManager.Sockets) :
  let s' := WebSocketManager.broadcastStatus sendThrows update s in
  WebSocketManager.sent s'
  = WebSocketManager.sent s
    ++ map (fun ws => (ws, WebSocketManager.UpdateMessage update))
         (List.filter
            (fun ws => WebSocketManager.isOpen (WebSocketManager.readyState s ws)
                       && negb (sendThrows ws))
            (WebSocketManager.subscribers (su_orderId update) s))
  /\ WebSocketManager.connections s' = WebSocketManager.connections s
  /\ WebSocketManager.readyState s' = WebSocketManager.readyState s
  /\ WebSocketManager.closeListeners s' = WebSocketManager.closeListeners s.
Proof.
  cbv zeta. unfold WebSocketManager.broadcastStatus, WebSocketManager.subscribers.
  destruct (WebSocketManager.connections s !! su_orderId update) as [oc|].
  - cbn [default from_option]. unfold Datatypes.id.
    destruct oc as [|x oc].
    + cbn. rewrite app_nil_r. repeat split.
    + cbn [length Nat.eqb].
      destruct (trySend_loop sendThrows update (x :: oc) s) as (A & B & C & D).
      cbv zeta in A, B, C, D. rewrite A, B, C, D. repeat split.
  - cbn. rewrite app_nil_r. repeat split.
Qed.

(** X20.  [getActiveConnectionCount] goes up by one when a socket registers
    for an order it was not registered for, and stays as it is when it was
    already registered. *)
Theorem registerConnection_counts_a_socket_once
    (orderId : string) (ws : nat) (s : WebSocketManager.Sockets) :
  WebSocketManager.getActiveConnectionCount
    (WebSocketManager.registerConnection orderId ws s)
  = if bool_decide (ws ∈ WebSocketManager.subscribers orderId s)
    then WebSocketManager.getActiveConnectionCount s
    else S (WebSocketManager.getActiveConnectionCount s).
Proof.
  unfold WebSocketManager.getActiveConnectionCount.
  rewrite registerConnection_connections, count_insert.
  rewrite <- (count_delete (WebSocketManager.connections s) orderId).
  fold (WebSocketManager.subscribers orderId s).
  unfold WebSocketManager.Set_add.
  case_bool_decide; [reflexivity|].
  rewrite length_app. cbn [length]. lia.
Qed.

(** X21.  [closeConnections] removes the order's entry and no other, starts
    closing exactly the order's open sockets, sends nothing, and lowers the
    connection count by the size of the order's set; a broadcast for that
    order afterwards does nothing. *)
Theorem closeConnections_ends_the_orders_broadcasts
    (orderId : string) (s : WebSocketManager.Sockets) :
  let s' := WebSocketManager.closeConnections orderId s in
  WebSocketManager.connections s' = delete orderId (WebSocketManager.connections s)
  /\ (forall sendThrows update, su_orderId update = orderId ->
        WebSocketManager.broadcastStatus sendThrows update s' = s')
  /\ (forall ws,
        WebSocketManager.readyState s' ws
        = if bool_decide (ws ∈ WebSocketManager.subscribers orderId s)
             && WebSocketManager.isOpen (WebSocketManager.readyState s ws)
          then WebSocketManager.CLOSING
          else WebSocketManager.readyState s ws)
  /\ WebSocketManager.sent s' = WebSocketManager.sent s
  /\ (WebSocketManager.getActiveConnectionCount s'
      + length (WebSocketManager.subscribers orderId s))%nat
     = WebSocketManager.getActiveConnectionCount s.
Proof.
  cbv zeta.
  assert (Hconn : WebSocketManager.connections
                    (WebSocketManager.closeConnections orderId s)
                  = delete orderId (WebSocketManager.connections s)).
  { unfold WebSocketManager.closeConnections.
    destruct (WebSocketManager.connections s !! orderId) as [oc|] eqn:E.
    - destruct (close_loop oc s) as (A & _). cbv zeta in A.
      cbn [WebSocketManager.connections]. rewrite A. reflexivity.
    - symmetry. apply delete_id. exact E. }
  split; [exact Hconn|].
  split.
  { intros sendThrows update <-. unfold WebSocketManager.broadcastStatus.
    rewrite Hconn, lookup_delete_eq. reflexivity. }
  split.
  { intros ws. unfold WebSocketManager.closeConnections, WebSocketManager.subscribers.
    destruct (WebSocketManager.connections s !! orderId) as [oc|] eqn:E.
    - destruct (close_loop oc s) as (_ & _ & _ & D). cbv zeta in D.
      cbn [WebSocketManager.readyState default from_option]. apply D.
    - cbn [default from_option]. rewrite bool_decide_eq_false_2; [reflexivity|].
      intros H. inversion H. }
  split.
  { unfold WebSocketManager.closeConnections.
    destruct (WebSocketManager.connections s !! orderId) as [oc|] eqn:E;
      [|reflexivity].
    destruct (close_loop oc s) as (_ & _ & C & _). cbv zeta in C.
    cbn [WebSocketManager.sent]. exact C. }
  unfold WebSocketManager.getActiveConnectionCount. rewrite Hconn.
  apply count_delete.
Qed.


Lemma close_frame (s : WebSocketManager.Sockets) (ws : nat) :
  WebSocketManager.connections (WebSocketManager.close s ws)
  = WebSocketManager.connections s
  /\ WebSocketManager.closeListeners (WebSocketManager.close s ws)
     = WebSocketManager.closeListeners s
  /\ WebSocketManager.sent (WebSocketManager.close s ws) = WebSocketManager.sent s
  /\ WebSocketManager.readyState (WebSocketManager.close s ws) ws
     <> WebSocketManager.OPEN.
Proof.
  unfold WebSocketManager.close.
  destruct (WebSocketManager.readyState s ws) eqn:E;
    cbn [WebSocketManager.connections WebSocketManager.closeListeners
         WebSocketManager.sent WebSocketManager.readyState];
    rewrite ?Nat.eqb_refl, ?E; repeat split; discriminate.
Qed.

Lemma send_frame (sendThrows : nat -> bool) (ws : nat)
    (message : WebSocketManager.Message) (s : WebSocketManager.Sockets) :
  let s' := snd (WebSocketManager.send sendThrows ws message s) in
  WebSocketManager.connections s' = WebSocketManager.connections s
  /\ WebSocketManager.closeListeners s' = WebSocketManager.closeListeners s
  /\ WebSocketManager.readyState s' = WebSocketManager.readyState s
  /\ (WebSocketManager.sent s' = WebSocketManager.sent s
      \/ WebSocketManager.sent s' = WebSocketManager.sent s ++ [(ws, message)])
  /\ (WebSocketManager.readyState s ws = WebSocketManager.OPEN ->
      sendThrows ws = false ->
      WebSocketManager.send sendThrows ws message s
      = (Ok tt,
         {| WebSocketManager.connections := WebSocketManager.connections s;
            WebSocketManager.readyState := WebSocketManager.readyState s;
            WebSocketManager.closeListeners := WebSocketManager.closeListeners s;
            WebSocketManager.sent := WebSocketManager.sent s ++ [(ws, message)] |}))
  /\ (forall e, fst (WebSocketManager.send sendThrows ws message s) = Throw e ->
      WebSocketManager.sent s' = WebSocketManager.sent s).
Proof.
  cbv zeta. unfold WebSocketManager.send.
  destruct (WebSocketManager.readyState s ws) eqn:E;
    destruct (sendThrows ws) eqn:Et; cbn [fst snd];
    repeat split; auto; try discriminate.
Qed.

Section SubscriptionProperties.

Context {codec : JsonCodec}.

(** X22.  [subscribeToOrder] does to the order store what one [getById]
    does.  For an order that does not exist it registers nothing, sends
    the "Order not found" message (to an open socket whose [send] succeeds)
    and closes the socket; when the lookup throws it sends nothing and
    closes the socket; for an order that exists it registers the socket,
    with its close listener, and an open socket whose [send] succeeds stays
    open and receives the snapshot with the order's current status. *)
Theorem subscribeToOrder_registers_only_for_known_orders
    (sendThrows : nat -> bool) (orderId : string) (socket : nat)
    (w : World) (s : WebSocketManager.Sockets) :
  let s' := snd (subscribeToOrder sendThrows orderId socket w s) in
  fst (subscribeToOrder sendThrows orderId socket w s) = snd (getById orderId w)
  /\ (fst (getById orderId w) = Ok None ->
        WebSocketManager.connections s' = WebSocketManager.connections s
        /\ WebSocketManager.closeListeners s' = WebSocketManager.closeListeners s
        /\ WebSocketManager.readyState s' socket <> WebSocketManager.OPEN
        /\ (WebSocketManager.readyState s socket = WebSocketManager.OPEN ->
            sendThrows socket = false ->
            WebSocketManager.sent s'
            = WebSocketManager.sent s
              ++ [(socket, WebSocketManager.NotFoundMessage orderId)]))
  /\ (forall e, fst (getById orderId w) = Throw e ->
        WebSocketManager.connections s' = WebSocketManager.connections s
        /\ WebSocketManager.sent s' = WebSocketManager.sent s
        /\ WebSocketManager.readyState s' socket <> WebSocketManager.OPEN)
  /\ (forall order, fst (getById orderId w) = Ok (Some order) ->
        socket ∈ WebSocketManager.subscribers orderId s'
        /\ (socket, orderId) ∈ WebSocketManager.closeListeners s'
        /\ (WebSocketManager.readyState s socket = WebSocketManager.OPEN ->
            sendThrows socket = false ->
            WebSocketManager.readyState s' socket = WebSocketManager.OPEN
            /\ WebSocketManager.sent s'
               = WebSocketManager.sent s
                 ++ [(socket,
                      WebSocketManager.SnapshotMessage (id order) (status order)
                        (clock w) (tokenIn order) (tokenOut order) (amount order)
                        (slippage order) (txHash order) (errorMessage order))])).
Proof.
  cbv zeta. unfold subscribeToOrder.
  destruct (getById_frame orderId w) as (_ & _ & _ & _ & _ & _ & _ & Hclock).
  destruct (getById orderId w) as [[[order|]|e] w1] eqn:Hget; cbn [fst snd] in *.
  - (* the order exists *)
    set (s1 := WebSocketManager.registerConnection orderId socket s).
    set (message := WebSocketManager.SnapshotMessage _ _ _ _ _ _ _ _ _).
    assert (Hmem : forall s2,
      WebSocketManager.connections s2 = WebSocketManager.connections s1 ->
      socket ∈ WebSocketManager.subscribers orderId s2).
    { intros s2 E. unfold WebSocketManager.subscribers. rewrite E. unfold s1.
      rewrite registerConnection_connections, lookup_insert_eq.
      cbn [default from_option]. unfold Datatypes.id.
      unfold WebSocketManager.Set_add. case_bool_decide as Hin; [exact Hin|].
      apply elem_of_app. right. apply list_elem_of_singleton. reflexivity. }
    assert (Hlis : (socket, orderId) ∈ WebSocketManager.closeListeners s1).
    { cbn. apply elem_of_app. right. apply list_elem_of_singleton. reflexivity. }
    destruct (send_frame sendThrows socket message s1) as (A & B & C & _ & D & _).
    cbv zeta in A, B, C.
    assert (Hshape :
      forall s', s' = snd (WebSocketManager.send sendThrows socket message s1)
                 \/ s' = WebSocketManager.close
                           (snd (WebSocketManager.send sendThrows socket message s1))
                           socket ->
      socket ∈ WebSocketManager.subscribers orderId s'
      /\ (socket, orderId) ∈ WebSocketManager.closeListeners s').
    { intros s' [-> | ->].
      - split; [apply Hmem; exact A | rewrite B; exact Hlis].
      - destruct (close_frame
                    (snd (WebSocketManager.send sendThrows socket message s1)) socket)
          as (A' & B' & _).
        split; [apply Hmem; rewrite A'; exact A | rewrite B', B; exact Hlis]. }
    split.
    { destruct (WebSocketManager.send sendThrows socket message s1) as [[?|?] ?];
        reflexivity. }
    split; [discriminate|]. split; [discriminate|].
    intros order' [= <-].
    split; [|split].
    + destruct (WebSocketManager.send sendThrows socket message s1) as [[?|?] s2];
        cbn [snd] in *; apply Hshape; auto.
    + destruct (WebSocketManager.send sendThrows socket message s1) as [[?|?] s2];
        cbn [snd] in *; apply Hshape; auto.
    + intros Hopen Hthrows. rewrite (D Hopen Hthrows).
      cbn [snd WebSocketManager.readyState WebSocketManager.sent].
      split; [exact Hopen|]. unfold message. rewrite Hclock. reflexivity.
  - (* no such order *)
    set (message := WebSocketManager.NotFoundMessage orderId).
    destruct (send_frame sendThrows socket message s) as (A & B & C & _ & D & _).
    cbv zeta in A, B, C.
    destruct (close_frame (snd (WebSocketManager.send sendThrows socket message s))
                socket) as (A' & B' & C' & D').
    split.
    { destruct (WebSocketManager.send sendThrows socket message s); reflexivity. }
    split; [|split; [discriminate|discriminate]].
    intros _.
    replace (snd (let '(_, s1) := WebSocketManager.send sendThrows socket message s in
                  (w1, WebSocketManager.close s1 socket)))
      with (WebSocketManager.close
              (snd (WebSocketManager.send sendThrows socket message s)) socket)
      by (destruct (WebSocketManager.send sendThrows socket message s); reflexivity).
    split; [rewrite A'; exact A|]. split; [rewrite B'; exact B|].
    split; [exact D'|].
    intros Hopen Hthrows. rewrite C', (D Hopen Hthrows). reflexivity.
  - (* the lookup throws *)
    destruct (close_frame s socket) as (A' & B' & C' & D').
    split; [reflexivity|].
    split; [discriminate|]. split; [|discriminate].
    intros e' _. auto.
Qed.

End SubscriptionProperties.

(** ** The registry and the read handlers, on concrete inputs *)

(** A limit of [10abc] is served as [10]. *)
Lemma getOrders_ignores_text_after_the_digits_witness :
  (allDigits "10" = true /\ "10"%string <> ""%string /\ noDigitAhead "abc" = true)
  /\ getOrders (Some "10abc"%string) Demo.stored
     = getOrders (Some "10"%string) Demo.stored.
Proof.
  assert (Hd : allDigits "10" = true) by reflexivity.
  assert (Hne : "10"%string <> ""%string) by discriminate.
  assert (Hrest : noDigitAhead "abc" = true) by reflexivity.
  split; [split; [exact Hd | split; [exact Hne | exact Hrest]]|].
  exact (getOrders_ignores_text_after_the_digits "10" "abc" Demo.stored
           Hd Hne Hrest).
Defined.

(** Limits at and beyond the bounds, a text without digits, and [+1e2],
    of which [parseInt] reads 1. *)
Example getOrders_limits :
  fst (getOrders (Some "0"%string) Demo.stored)
  = Ok (OrdersReply400 "limit must be between 1 and 100")
  /\ fst (getOrders (Some "101"%string) Demo.stored)
     = Ok (OrdersReply400 "limit must be between 1 and 100")
  /\ fst (getOrders (Some "abc"%string) Demo.stored)
     = Ok (OrdersReply400 "limit must be between 1 and 100")
  /\ fst (getOrders (Some " +1e2"%string) Demo.stored)
     = Ok (OrdersReply200 [summary (mapRow Demo.storedRow)] 1).
Proof. repeat split; vm_compute; reflexivity. Qed.

(** The stored order of the examples, processed without a fault and then
    fetched. *)
Lemma getOrder_after_a_run_shows_its_outcome_witness :
  let run := processOrder (codec := Demo.codec) (config := Demo.config)
               Demo.firstDelivery Demo.calm Demo.stored in
  (db Demo.stored !! Demo.orderId = Some Demo.storedRow
   /\ uuidRegex_test Demo.orderId = true)
  /\ exists r',
       fst (getOrder (codec := Demo.codec) Demo.orderId (snd run))
       = Ok (OrderReply200 (view (mapRow r')))
       /\ r_status r' = confirmed.
Proof.
  cbv zeta.
  assert (Hrow : db Demo.stored !! Demo.orderId = Some Demo.storedRow)
    by reflexivity.
  assert (Hid : uuidRegex_test Demo.orderId = true) by reflexivity.
  split; [split; [exact Hrow | exact Hid]|].
  destruct (getOrder_after_a_run_shows_its_outcome (codec := Demo.codec)
              (config := Demo.config) Demo.firstDelivery Demo.calm Demo.stored
              Demo.storedRow Hrow Hid) as (r' & _ & Hreply & Hst & _).
  exists r'. split; [exact Hreply|].
  rewrite Hst.
  replace (fst (processOrder (codec := Demo.codec) (config := Demo.config)
                  Demo.firstDelivery Demo.calm Demo.stored))
    with (@Ok unit tt) by (vm_compute; reflexivity).
  reflexivity.
Defined.

Lemma empty_wellFormed : WebSocketManager.wellFormed WebSocketManager.empty.
Proof. intros k set Hk. cbn in Hk. rewrite lookup_empty in Hk. discriminate. Qed.

Lemma threeSockets_wellFormed : WebSocketManager.wellFormed threeSockets.
Proof.
  unfold threeSockets. do 3 apply registerConnection_wellFormed.
  apply empty_wellFormed.
Qed.

Lemma registry_sets_stay_nonempty_and_free_of_repetition_witness :
  WebSocketManager.wellFormed WebSocketManager.empty
  /\ WebSocketManager.wellFormed
       (WebSocketManager.registerConnection Demo.orderId 1 WebSocketManager.empty)
  /\ WebSocketManager.wellFormed
       (WebSocketManager.closeEvent 1 WebSocketManager.empty).
Proof.
  split; [exact empty_wellFormed|].
  destruct (registry_sets_stay_nonempty_and_free_of_repetition
              WebSocketManager.empty empty_wellFormed) as (A & B & _).
  split; [apply A | apply B].
Defined.

(** Socket 1 closes: socket 2 is the order's only subscriber left. *)
Lemma closed_socket_leaves_every_set_witness :
  WebSocketManager.wellFormed threeSockets
  /\ WebSocketManager.subscribers Demo.orderId
       (WebSocketManager.closeEvent 1 threeSockets) = [2]
  /\ WebSocketManager.subscribers "order-b"
       (WebSocketManager.closeEvent 1 threeSockets) = [3].
Proof.
  split; [exact threeSockets_wellFormed|].
  destruct (closed_socket_leaves_every_set 1 threeSockets threeSockets_wellFormed)
    as (_ & Hsub & _).
  split; rewrite Hsub; vm_compute; reflexivity.
Defined.

(** Socket 9 subscribes to an order of [threeSockets] and closes. *)
Lemma registered_socket_that_closes_leaves_no_trace_witness :
  (WebSocketManager.wellFormed threeSockets
   /\ forall k, 9 ∉ WebSocketManager.subscribers k threeSockets)
  /\ WebSocketManager.connections
       (WebSocketManager.closeEvent 9
          (WebSocketManager.registerConnection Demo.orderId 9 threeSockets))
     = WebSocketManager.connections threeSockets.
Proof.
  assert (Hfresh : forall k, 9 ∉ WebSocketManager.subscribers k threeSockets).
  { intros k Hin. unfold WebSocketManager.subscribers in Hin.
    destruct (WebSocketManager.connections threeSockets !! k) as [set|] eqn:E;
      [|inversion Hin].
    cbn [default from_option] in Hin. unfold Datatypes.id in Hin.
    destruct (threeSockets_wellFormed k set E) as (_ & _ & Hlis).
    apply Hlis in Hin. vm_compute in Hin.
    repeat (apply elem_of_cons in Hin as [Hin|Hin]; [discriminate Hin|]).
    inversion Hin. }
  split; [split; [exact threeSockets_wellFormed | exact Hfresh]|].
  exact (registered_socket_that_closes_leaves_no_trace Demo.orderId 9
           threeSockets threeSockets_wellFormed Hfresh).
Defined.

(** A broadcast for the order with two sockets, of which the second one's
    [send] throws: the first still gets the update, the socket of the other
    order gets nothing. *)
Example broadcast_to_two_sockets :
  let update := {| su_orderId := Demo.orderId; su_status := routing;
                   su_timestamp := 0; su_data := MessageData "Comparing DEX quotes..." |} in
  WebSocketManager.sent
    (WebSocketManager.broadcastStatus (fun ws => (ws =? 2)%nat) update threeSockets)
  = [(1, WebSocketManager.UpdateMessage update)].
Proof. vm_compute. reflexivity. Qed.
